(** * ACGAN training script ([acgan/cancer128/cancer_acgan.py])

    A shallow embedding of the script's own code: the data loader
    ([get_dir_data], [get_data]), the architecture declarations
    ([build_generator], [build_discriminator]) and the adversarial training
    loop with its host-side bookkeeping.

    Conventions.
    - NumPy float arrays are lists of rationals ([Q]); the only arithmetic
      the script itself performs on them is multiplication by the constants
      of the source and the per-epoch mean.
    - A Python exception is [None]; code that can raise returns [option].
    - Everything the script delegates (directory listing and image decoding,
      the random number generator, the deep-learning framework's [predict],
      [train_on_batch], [evaluate]) is an interface: a type class whose
      operations are left abstract and whose documented behaviour, where a
      statement needs it, is a separate contract class.
    - An image is the flat list of its values: its shape is not
      represented. The errors that NumPy and the framework raise on images
      of unequal or unexpected shapes ([np.array], [np.concatenate], the
      input check of a model) are therefore outside this development: its
      statements are about executions that complete, or take the images to
      have one shape. *)

From Stdlib Require Import QArith Rbase Rbasic_fun Rtrigo_def Exp_prop Lra Ascii.
From Stdlib Require Import R_Ifp Rpower Rfunctions.
From stdpp Require Import gmap strings list fin_maps pretty.

Set Default Proof Using "Type*".

(** ** NumPy and Python helpers *)

Module np.

(** [np.ones(n)], [np.zeros(n)] *)
Definition ones (n : nat) : list Q := replicate n 1%Q.
Definition zeros (n : nat) : list Q := replicate n 0%Q.

(** [a * c] for an array [a] and a scalar [c] *)
Definition scale (a : list Q) (c : Q) : list Q := (λ v, (v * c)%Q) <$> a.

(** [np.concatenate((a, b))] of two one-dimensional arrays, or of two
    arrays of images of one shape *)
Definition concatenate {A} (a b : list A) : list A := a ++ b.

(** [np.concatenate((a, b))] for arrays of images built by
    [np.array([...])]: an empty list gives a one-dimensional array, a list
    of images a four-dimensional one, and arrays of different dimensions
    cannot be concatenated (ValueError). All images are taken to have one
    shape. *)
Definition concatenate_nd {A} (a b : list A) : option (list A) :=
  match a, b with
  | [], _ :: _ | _ :: _, [] => None
  | _, _ => Some (a ++ b)
  end.

(** [a[lo:hi]] for [0 <= lo], [0 <= hi]: slices clip, they never raise *)
Definition slice {A} (a : list A) (lo hi : nat) : list A :=
  take (hi - lo) (drop lo a).

(** [a[indices]]: IndexError when an index is out of range *)
Definition take_indices {A} (a : list A) (indices : list nat) : option (list A) :=
  mapM (λ i, a !! i) indices.

(** sum of the entries of an array *)
Definition sum (a : list Q) : Q := foldr Qplus 0%Q a.

End np.

(** [os.path.join(a, b)] of posixpath *)
Definition os_path_join (a b : string) : string :=
  if String.prefix "/" b then b
  else if (String.eqb a "" || String.eqb (String.substring (String.length a - 1) 1 a) "/")%bool
       then a +:+ b
       else a +:+ "/" +:+ b.

(** [os.path.join(a, *p)] *)
Definition os_path_join_all (a : string) (p : list string) : string :=
  foldl os_path_join a p.

(** ** The data loader *)

(** An image as read from disk: its pixel values (uint8), flattened. *)
Abbreviation raw_image := (list Z) (only parsing).

(** The image directories, as the script sees them. *)
Class Disk := {
  (** [os.listdir(path)]; [None] when it raises (no such directory) *)
  os_listdir : string → option (list string);
  (** [np.array(Image.open(fname))]; [None] when the file cannot be read *)
  Image_open : string → option raw_image;
}.

(** The process-wide NumPy random state, used by [sklearn.utils.shuffle] and
    by [np.random.uniform] / [np.random.randint]. *)
Class Random := {
  rng : Type;
  (** a shuffled [np.arange(n)] *)
  random_permutation : rng → nat → list nat * rng;
  (** [np.random.uniform(-1, 1, (rows, cols))] *)
  random_uniform : rng → nat → nat → list (list Q) * rng;
  (** [np.random.randint(low, high, size)] *)
  random_randint : rng → Z → Z → nat → list Z * rng;
}.

(** What the library documents of the random state. *)
Class RandomOk `{Random} : Prop := {
  random_permutation_perm g n : (random_permutation g n).1 ≡ₚ seq 0 n;
  random_uniform_length g rows cols : length (random_uniform g rows cols).1 = rows;
  random_randint_length g low high size :
    length (random_randint g low high size).1 = size;
}.

Definition num_classes : nat := 2.
Definition images_dir : string := "images128".

(** [sklearn.utils.shuffle(a, b)]: one random permutation of the indices,
    applied to both arrays; ValueError when the lengths differ. *)
Definition shuffle `{Random} {A B} (a : list A) (b : list B) (g : rng)
    : option (list A * list B * rng) :=
  if decide (length a = length b) then
    let '(indices, g) := random_permutation g (length a) in
    a' ← np.take_indices a indices;
    b' ← np.take_indices b indices;
    Some (a', b', g)
  else None.

(** [get_dir_data(path, clz)]. The files of a directory are taken to decode
    to images of one shape: what [np.array(x)] does with images of unequal
    shapes is not represented. *)
Definition get_dir_data `{Disk} (path : string) (clz : Q)
    : option (list raw_image * list Q) :=
  names ← os_listdir path;
  let x := (λ f, os_path_join path f) <$> names in
  x ← mapM Image_open x;
  let y := np.scale (np.ones (length x)) clz in
  Some (x, y).

Definition get_data `{Disk} `{Random} (g : rng)
    : option (list raw_image * list Q * list raw_image * list Q * rng) :=
  '(x_melanoma_train, y_melanoma_train) ←
     get_dir_data (os_path_join_all "." [images_dir; "train"; "melanoma"]%string) 1;
  '(x_melanoma_test, y_melanoma_test) ←
     get_dir_data (os_path_join_all "." [images_dir; "validation"; "melanoma"]%string) 1;
  '(x_other_train, y_other_train) ←
     get_dir_data (os_path_join_all "." [images_dir; "train"; "outros"]%string) 0;
  '(x_other_test, y_other_test) ←
     get_dir_data (os_path_join_all "." [images_dir; "validation"; "outros"]%string) 0;

  x_train ← np.concatenate_nd x_melanoma_train x_other_train;
  let y_train := np.concatenate y_melanoma_train y_other_train in

  x_test ← np.concatenate_nd x_melanoma_test x_other_test;
  let y_test := np.concatenate y_melanoma_test y_other_test in

  (* the shuffled labels are bound to [ytrain], which is never read *)
  '(x_train, ytrain, g) ← shuffle x_train y_train g;
  '(x_test, y_test, g) ← shuffle x_test y_test g;

  Some (x_train, y_train, x_test, y_test, g).

(** ** The framework, as the script uses it *)

(** A normalised image: float pixel values, flattened. *)
Abbreviation image := (list Q) (only parsing).

(** The three Keras models of the script. *)
Inductive model := generator | discriminator | combined.

(** The two networks that own weights: the generator's convolutional stack
    with its embedding, and the discriminator's. [combined] has no layer of
    its own: it is the discriminator applied to the generator. *)
Inductive net := G | D.

#[global] Instance model_eq_dec : EqDecision model.
Proof. solve_decision. Defined.
#[global] Instance net_eq_dec : EqDecision net.
Proof. solve_decision. Defined.

(** What is fed to a model: images for the discriminator, [[latent,
    image_class]] for the generator and the combined model. *)
Inductive inputs :=
| Images (x : list image)
| LatentClass (latent : list (list Q)) (image_class : list (list Z)).

(** The two target (or sample weight) arrays of a two-headed model:
    [[generation, auxiliary]]. *)
Abbreviation targets := (list Q * list Q)%type (only parsing).

(** What [train_on_batch] and [evaluate] return for a two-headed model
    compiled without metrics: [[loss, generation_loss, auxiliary_loss]]. *)
Abbreviation losses := (Q * Q * Q)%type (only parsing).

Class Keras := {
  (** the backend session: every variable of the graph *)
  session : Type;
  weights : Type;
  (** the current weights of a network *)
  get_weights : session → net → weights;
  (** [generator.predict([latent, image_class])] *)
  keras_generator_predict : session → list (list Q) → list (list Z) → list image;
  (** [discriminator.predict(x)]: [[generation, auxiliary]] outputs *)
  keras_discriminator_predict : session → list image → list Q * list (list Q);
  (** one optimizer step of model [m] over the weights that were collected
      when [m] was compiled *)
  keras_train_on_batch :
    model → list net → session → inputs → targets → option targets → session * losses;
  (** [m.evaluate(x, y)] *)
  keras_evaluate : model → session → inputs → targets → losses;
}.

(** What Keras documents of these operations and the script relies on. *)
Class KerasOk `{Keras} : Prop := {
  (** a training step assigns only to the weights collected at compile time *)
  keras_train_frame m collected s x y sw n :
    n ∉ collected →
    get_weights (keras_train_on_batch m collected s x y sw).1 n = get_weights s n;
  (** [predict] returns one image per input row *)
  keras_generator_predict_length s latent image_class :
    length (keras_generator_predict s latent image_class) = length latent;
  (** the auxiliary output has one row of [num_classes] probabilities per
      image *)
  keras_discriminator_predict_length s x :
    length (keras_discriminator_predict s x).2 = length x;
  keras_discriminator_predict_classes s x :
    Forall (λ row, length row = num_classes) (keras_discriminator_predict s x).2;
}.

(** A call of a Keras model method, as the script issues it. *)
Inductive call :=
| Predict (m : model) (x : inputs)
| TrainOnBatch (m : model) (x : inputs) (y : targets) (sample_weight : option targets)
| Evaluate (m : model) (x : inputs) (y : targets)
| SaveWeights (m : model) (path : string).

Inductive method := predict | train_on_batch | evaluate | save_weights.

Definition call_method (c : call) : model * method :=
  match c with
  | Predict m _ => (m, predict)
  | TrainOnBatch m _ _ _ => (m, train_on_batch)
  | Evaluate m _ _ => (m, evaluate)
  | SaveWeights m _ => (m, save_weights)
  end.

(** A value stored in a history list: a vector of three losses, a float, or
    the [nan] scalar that [np.mean] returns for an empty array. *)
Inductive value := vec3 (l : losses) | scalar (q : Q) | nan.

(** [defaultdict(list)] *)
Abbreviation history := (gmap string (list value)) (only parsing).

(** [h[key]]: the empty list for a key that was never used *)
Definition history_get (key : string) (h : history) : list value :=
  default [] (h !! key).

(** [h[key].append(v)] *)
Definition history_append (key : string) (v : value) (h : history) : history :=
  <[key := history_get key h ++ [v]]> h.

(** [h[key][-1]]: IndexError on an empty list *)
Definition history_last (key : string) (h : history) : option value :=
  last (history_get key h).

(** ** Host-side helpers of [__main__] *)

(** The constants at the head of [__main__]. *)
Record hyper := {
  max_runs : nat;
  epochs : nat;
  batch_size : nat;
  latent_size : nat;
}.

(** batch and latent size taken from the paper *)
Definition paper : hyper :=
  {| max_runs := 10; epochs := 50000; batch_size := 100; latent_size := 110 |}.

(** [int(a / b)] on non-negative ints; ZeroDivisionError when [b] is 0 *)
Definition int_div (a b : nat) : option nat :=
  if decide (b = 0) then None else Some (a / b).

(** [(x.astype(np.float32) - 127.5) / 127.5] *)
Definition normalize (x : list raw_image) : list image :=
  (λ img : raw_image, (λ v, ((inject_Z v - 127.5) / 127.5)%Q) <$> img) <$> x.

(** [labels.reshape((-1, 1))] *)
Definition reshape_col (labels : list Z) : list (list Z) := (λ l, [l]) <$> labels.

(** a NumPy int array used where floats are expected *)
Definition as_float (labels : list Z) : list Q := inject_Z <$> labels.

(** the column sums of a list of loss vectors *)
Definition sum_axis0 (a : list losses) : losses :=
  foldr (λ '(l, g, c) '(sl, sg, sc), (l + sl, g + sg, c + sc)%Q) (0, 0, 0)%Q a.

(** [np.mean(np.array(a), axis=0)]: the [nan] scalar on an empty list *)
Definition mean_axis0 (a : list losses) : value :=
  match a with
  | [] => nan
  | _ :: _ =>
      let n := inject_Z (Z.of_nat (length a)) in
      let '(l, g, c) := sum_axis0 a in
      vec3 (l / n, g / n, c / n)%Q
  end.

(** [np.argmax(row)]: the first index of the maximum; ValueError on an empty
    row *)
Fixpoint argmax_from (best : Q) (best_i i : nat) (row : list Q) : nat :=
  match row with
  | [] => best_i
  | v :: row =>
      if Qle_bool v best then argmax_from best best_i (S i) row
      else argmax_from v i (S i) row
  end.

Definition argmax (row : list Q) : option nat :=
  match row with
  | [] => None
  | v :: row => Some (argmax_from v 0 1 row)
  end.

(** [sklearn.metrics.accuracy_score(y_true, y_pred)]: the fraction of equal
    entries; ValueError when the lengths differ, [nan] on empty arrays *)
Definition accuracy_score (y_true : list Q) (y_pred : list nat) : option value :=
  if decide (length y_true = length y_pred) then
    match y_true with
    | [] => Some nan
    | _ :: _ =>
        let hits := List.filter (λ '(t, p), Qeq_bool t (inject_Z (Z.of_nat p)))
                                (zip y_true y_pred) in
        Some (scalar (inject_Z (Z.of_nat (length hits))
                      / inject_Z (Z.of_nat (length y_true)))%Q)
    end
  else None.

(** [ROW_FMT.format(name, *v)]: the starred argument must be a sequence of
    three floats (TypeError on a scalar). The text printed is not modelled. *)
Definition ROW_FMT_format (name : string) (v : value) : option unit :=
  match v with
  | vec3 _ => Some ()
  | _ => None
  end.

Fixpoint zero_pad (k : nat) : string :=
  match k with
  | 0 => ""
  | S k => "0" +:+ zero_pad k
  end.

(** ['{0:0<width>d}'.format(n)] *)
Definition format_0d (width n : nat) : string :=
  let s := pretty n in
  zero_pad (width - String.length s) +:+ s.

(** [for x in xs: ...], threading the loop's variables and stopping at the
    first exception *)
Fixpoint for_each {A S} (xs : list A) (body : A → S → option S) (s : S) : option S :=
  match xs with
  | [] => Some s
  | x :: xs => s ← body x s; for_each xs body s
  end.

(** ** The state the script acts on *)

Section training.
Context `{Random} `{Keras}.

(** What the script writes into a run directory. *)
Inductive file :=
| hdf5 (ws : list weights)
| pickle (d : gmap string history)
| png (images : list image).

Record world := World {
  (** the NumPy random state *)
  w_rng : rng;
  (** the framework's variables *)
  w_session : session;
  (** the [trainable] attribute of each model *)
  w_trainable : model → bool;
  (** the trainable weights each model collected when it was compiled;
      [None] before [compile] *)
  w_collected : model → option (list net);
  (** the directories and files the script created *)
  w_dirs : gset string;
  w_files : gmap string file;
  (** the paths written so far, in order *)
  w_written : list string;
  (** the calls of model methods issued so far *)
  w_calls : list call;
}.

Definition set_rng (g : rng) (w : world) : world :=
  World g (w_session w) (w_trainable w) (w_collected w) (w_dirs w) (w_files w)
        (w_written w) (w_calls w).
Definition set_session (s : session) (w : world) : world :=
  World (w_rng w) s (w_trainable w) (w_collected w) (w_dirs w) (w_files w)
        (w_written w) (w_calls w).
Definition set_trainable (m : model) (b : bool) (w : world) : world :=
  World (w_rng w) (w_session w) (λ m', if decide (m' = m) then b else w_trainable w m')
        (w_collected w) (w_dirs w) (w_files w) (w_written w) (w_calls w).
Definition set_collected (m : model) (c : option (list net)) (w : world) : world :=
  World (w_rng w) (w_session w) (w_trainable w)
        (λ m', if decide (m' = m) then c else w_collected w m')
        (w_dirs w) (w_files w) (w_written w) (w_calls w).
Definition set_dirs (d : gset string) (w : world) : world :=
  World (w_rng w) (w_session w) (w_trainable w) (w_collected w) d (w_files w)
        (w_written w) (w_calls w).
(** a file is created or replaced at [path] *)
Definition set_file (path : string) (content : file) (w : world) : world :=
  World (w_rng w) (w_session w) (w_trainable w) (w_collected w) (w_dirs w)
        (<[path := content]> (w_files w)) (w_written w ++ [path]) (w_calls w).
Definition log (c : call) (w : world) : world :=
  World (w_rng w) (w_session w) (w_trainable w) (w_collected w) (w_dirs w) (w_files w)
        (w_written w) (w_calls w ++ [c]).

(** [np.random.uniform(-1, 1, (rows, cols))] *)
Definition np_random_uniform (rows cols : nat) (w : world) : list (list Q) * world :=
  let '(a, g) := random_uniform (w_rng w) rows cols in (a, set_rng g w).

(** [np.random.randint(low, high, size)] *)
Definition np_random_randint (low high : Z) (size : nat) (w : world) : list Z * world :=
  let '(a, g) := random_randint (w_rng w) low high size in (a, set_rng g w).

(** [os.mkdir(path)]: FileExistsError when the directory exists *)
Definition os_mkdir (path : string) (w : world) : option world :=
  if decide (path ∈ w_dirs w) then None
  else Some (set_dirs ({[path]} ∪ w_dirs w) w).

(** [open(os.path.join(dir, name), 'wb')] and a write of [content]:
    FileNotFoundError when [dir] does not exist *)
Definition write_file (dir name : string) (content : file) (w : world) : option world :=
  if decide (dir ∈ w_dirs w)
  then Some (set_file (os_path_join dir name) content w)
  else None.

(** *** Keras models: the attributes the script reads and writes *)

(** the weights a model owns directly *)
Definition own_weights (m : model) : list net :=
  match m with
  | generator => [G]
  | discriminator => [D]
  | combined => []
  end.

(** the models a model uses as layers *)
Definition sub_models (m : model) : list model :=
  match m with
  | combined => [generator; discriminator]
  | _ => []
  end.

(** [m.weights] *)
Definition all_weights (m : model) : list net :=
  own_weights m ++ mjoin (own_weights <$> sub_models m).

(** [m.trainable_weights]: empty when [m.trainable] is False, otherwise the
    model's own weights and its sub-models' trainable weights *)
Definition trainable_weights (w : world) (m : model) : list net :=
  if w_trainable w m then
    own_weights m
    ++ mjoin ((λ l, if w_trainable w l then own_weights l else []) <$> sub_models m)
  else [].

(** [m.compile(optimizer, loss)]: collects [m.trainable_weights] as they are
    at this moment (the optimizer and the losses configure the framework's
    training step, which is abstract here) *)
Definition model_compile (m : model) (w : world) : world :=
  set_collected m (Some (trainable_weights w m)) w.

(** [Model(inputs, outputs)]: a new model is trainable and not compiled *)
Definition Model (m : model) (w : world) : world :=
  set_collected m None (set_trainable m true w).

(** [generator.predict([latent, image_class])] *)
Definition generator_predict (latent : list (list Q)) (image_class : list (list Z))
    (w : world) : list image * world :=
  (keras_generator_predict (w_session w) latent image_class,
   log (Predict generator (LatentClass latent image_class)) w).

(** [discriminator.predict(x)] *)
Definition discriminator_predict (x : list image) (w : world)
    : (list Q * list (list Q)) * world :=
  (keras_discriminator_predict (w_session w) x, log (Predict discriminator (Images x)) w).

(** [m.train_on_batch(x, y, sample_weight)]: RuntimeError before [compile].
    The framework's check of the shapes of [x], [y] and [sample_weight]
    against the model's inputs and outputs is not represented. *)
Definition model_train_on_batch (m : model) (x : inputs) (y : targets)
    (sample_weight : option targets) (w : world) : option (losses * world) :=
  collected ← w_collected w m;
  let '(s, l) := keras_train_on_batch m collected (w_session w) x y sample_weight in
  Some (l, log (TrainOnBatch m x y sample_weight) (set_session s w)).

(** [m.evaluate(x, y)]: RuntimeError before [compile]; the check of the
    shapes is not represented *)
Definition model_evaluate (m : model) (x : inputs) (y : targets) (w : world)
    : option (losses * world) :=
  _ ← w_collected w m;
  Some (keras_evaluate m (w_session w) x y, log (Evaluate m x y) w).

(** [m.save_weights(os.path.join(dir, name), True)] *)
Definition model_save_weights (m : model) (dir name : string) (w : world) : option world :=
  w ← write_file dir name (hdf5 (get_weights (w_session w) <$> all_weights m)) w;
  Some (log (SaveWeights m (os_path_join dir name)) w).

(** ** The training loop *)

(** The sample weights of the discriminator's two outputs (computed at the
    head of every epoch). *)
Definition disc_sample_weight (p : hyper) : targets :=
  (np.ones (2 * batch_size p),
   np.concatenate (np.scale (np.ones (batch_size p)) 2) (np.zeros (batch_size p))).

(** one-sided soft real/fake labels *)
Definition soft_zero : Q := 0.
Definition soft_one : Q := 0.95.

(** The body of [for index in range(num_batches)]. The loop's variables are
    the two lists of per-batch losses and the state. *)
Definition train_batch (p : hyper) (x_train : list image) (y_train : list Q)
    (index : nat) (st : list losses * list losses * world)
    : option (list losses * list losses * world) :=
  let '(epoch_gen_loss, epoch_disc_loss, w) := st in
  (* generate a new batch of noise *)
  let '(noise, w) := np_random_uniform (batch_size p) (latent_size p) w in

  (* get a batch of real images *)
  let image_batch := np.slice x_train (index * batch_size p) ((index + 1) * batch_size p) in
  let label_batch := np.slice y_train (index * batch_size p) ((index + 1) * batch_size p) in

  (* sample some labels from p_c *)
  let '(sampled_labels, w) := np_random_randint 0 (Z.of_nat num_classes) (batch_size p) w in

  (* generate a batch of fake images *)
  let '(generated_images, w) := generator_predict noise (reshape_col sampled_labels) w in

  let x := np.concatenate image_batch generated_images in

  let y := replicate (batch_size p) soft_one ++ replicate (batch_size p) soft_zero in
  let aux_y := np.concatenate label_batch (as_float sampled_labels) in

  (* see if the discriminator can figure itself out... *)
  '(l, w) ← model_train_on_batch discriminator (Images x) (y, aux_y)
              (Some (disc_sample_weight p)) w;
  let epoch_disc_loss := epoch_disc_loss ++ [l] in

  (* make new noise: 2 * batch size here *)
  let '(noise, w) := np_random_uniform (2 * batch_size p) (latent_size p) w in
  let '(sampled_labels, w) :=
    np_random_randint 0 (Z.of_nat num_classes) (2 * batch_size p) w in

  (* all the {fake, not-fake} labels say not-fake *)
  let trick := np.scale (np.ones (2 * batch_size p)) soft_one in

  '(l, w) ← model_train_on_batch combined (LatentClass noise (reshape_col sampled_labels))
              (trick, as_float sampled_labels) None w;
  let epoch_gen_loss := epoch_gen_loss ++ [l] in
  Some (epoch_gen_loss, epoch_disc_loss, w).

(** The lines after [if epoch % 50 != 0: continue]. *)
Definition checkpoint (p : hyper) (run_path : string) (epoch : nat)
    (train_history test_history : history) (w : world) : option world :=
  w ← model_save_weights generator run_path
        ("params_generator_epoch_" +:+ format_0d 6 epoch +:+ ".hdf5") w;
  w ← model_save_weights discriminator run_path
        ("params_discriminator_epoch_" +:+ format_0d 6 epoch +:+ ".hdf5") w;

  w ← write_file run_path "acgan-history.pkl"
        (pickle {[ "train"%string := train_history; "test"%string := test_history ]}) w;

  (* generate some digits to display *)
  let num_rows := 5 in
  let '(noise, w) := np_random_uniform (num_rows * 6) (latent_size p) w in

  let sampled_labels :=
    mjoin ((λ i, replicate (num_rows * 3) [Z.of_nat i]) <$> seq 0 num_classes) in

  (* get a batch to display *)
  let '(generated_images, w) := generator_predict noise sampled_labels w in

  shown ← mapM (λ i, (λ img : image, (λ v, ((v + 1.0) / 2.0)%Q) <$> img)
                       <$> generated_images !! i)
               (seq 0 (6 * 5));

  write_file run_path ("plot_epoch_" +:+ format_0d 3 epoch +:+ "_generated.png")
    (png shown) w.

(** The body of [for epoch in range(1, epochs + 1)]. The loop's variables
    are the two histories and the state. *)
Definition train_epoch (p : hyper) (x_train : list image) (y_train : list Q)
    (x_test : list image) (y_test : list Q) (run_path : string) (epoch : nat)
    (st : history * history * world) : option (history * history * world) :=
  let '(train_history, test_history, w) := st in
  let num_test := length x_test in

  num_batches ← int_div (length x_train) (batch_size p);

  '(epoch_gen_loss, epoch_disc_loss, w) ←
     for_each (seq 0 num_batches) (train_batch p x_train y_train) ([], [], w);

  (* evaluate the testing loss here *)
  let '(noise, w) := np_random_uniform num_test (latent_size p) w in
  let '(sampled_labels, w) := np_random_randint 0 (Z.of_nat num_classes) num_test w in
  let '(generated_images, w) := generator_predict noise (reshape_col sampled_labels) w in

  let x := np.concatenate x_test generated_images in
  let y := replicate num_test 1%Q ++ replicate num_test 0%Q in
  let aux_y := np.concatenate y_test (as_float sampled_labels) in

  '(discriminator_test_loss, w) ← model_evaluate discriminator (Images x) (y, aux_y) w;

  let discriminator_train_loss := mean_axis0 epoch_disc_loss in

  (* make new noise *)
  let '(noise, w) := np_random_uniform (2 * num_test) (latent_size p) w in
  let '(sampled_labels, w) := np_random_randint 0 (Z.of_nat num_classes) (2 * num_test) w in

  let trick := np.ones (2 * num_test) in

  '(generator_test_loss, w) ←
     model_evaluate combined (LatentClass noise (reshape_col sampled_labels))
       (trick, as_float sampled_labels) w;

  let generator_train_loss := mean_axis0 epoch_gen_loss in

  (* the discriminator's accuracy *)
  let '(y_pred, w) := discriminator_predict x_test w in
  y_pred ← mapM argmax y_pred.2;
  discriminator_accuracy ← accuracy_score y_test y_pred;

  (* generate an epoch report on performance *)
  let train_history := history_append "generator" generator_train_loss train_history in
  let train_history :=
    history_append "discriminator" discriminator_train_loss train_history in

  let test_history := history_append "generator" (vec3 generator_test_loss) test_history in
  let test_history :=
    history_append "discriminator" (vec3 discriminator_test_loss) test_history in
  let test_history := history_append "accuracy" discriminator_accuracy test_history in

  _ ← history_last "generator" train_history ≫= ROW_FMT_format "generator (train)";
  _ ← history_last "generator" test_history ≫= ROW_FMT_format "generator (test)";
  _ ← history_last "discriminator" train_history ≫= ROW_FMT_format "discriminator (train)";
  _ ← history_last "discriminator" test_history ≫= ROW_FMT_format "discriminator (test)";

  if negb (epoch mod 50 =? 0) then
    (* continue *)
    Some (train_history, test_history, w)
  else
    w ← checkpoint p run_path epoch train_history test_history w;
    Some (train_history, test_history, w).

(** The first [E] epochs of a run, from fresh histories. *)
Definition run_epochs (p : hyper) (x_train : list image) (y_train : list Q)
    (x_test : list image) (y_test : list Q) (run_path : string) (E : nat) (w : world)
    : option (history * history * world) :=
  let train_history : history := ∅ in
  let test_history : history := ∅ in
  for_each (seq 1 E) (train_epoch p x_train y_train x_test y_test run_path)
           (train_history, test_history, w).

(** The body of [for nrun in range(1, max_runs + 1)]. *)
Definition train_run (p : hyper) (x_train : list image) (y_train : list Q)
    (x_test : list image) (y_test : list Q) (nrun : nat) (w : world) : option world :=
  let run_path := os_path_join "." ("r" +:+ pretty nrun) in
  w ← os_mkdir run_path w;
  '(_, _, w) ← run_epochs p x_train y_train x_test y_test run_path (epochs p) w;
  Some w.

(** The set-up lines of [__main__]: build and compile the models. *)
Definition build_models (w : world) : world :=
  (* build the discriminator *)
  let w := Model discriminator w in
  let w := model_compile discriminator w in
  (* build the generator *)
  let w := Model generator w in
  (* we only want to be able to train generation for the combined model *)
  let w := set_trainable discriminator false w in
  let w := Model combined w in
  let w := model_compile combined w in
  w.

Definition main `{Disk} (p : hyper) (w : world) : option world :=
  let w := build_models w in
  '(x_train, y_train, x_test, y_test, g) ← get_data (w_rng w);
  let w := set_rng g w in
  let x_train := normalize x_train in
  let x_test := normalize x_test in
  for_each (seq 1 (max_runs p)) (train_run p x_train y_train x_test y_test) w.

End training.

(** The state of a fresh process: models are trainable when they are built
    and nothing is compiled; the working directory holds no run directory. *)
Definition fresh `{Random} `{Keras} (g : rng) (s : session) : world :=
  World g s (λ _, true) (λ _, None) ∅ ∅ [] [].

(** ** The architecture declarations *)

Module arch.
Local Open Scope N_scope.

Inductive activation := linear | relu | tanh | sigmoid | softmax.
Inductive padding := valid | same.

(** The layers the script declares, with the arguments it gives them. *)
Inductive layer :=
| Dense (units : N) (input_dim : option N) (act : activation)
| Reshape (target_shape : list N)
| Conv2DTranspose (filters kernel_size strides : N) (pad : padding) (act : activation)
| Conv2D (filters kernel_size : N) (pad : padding) (strides : N)
         (input_shape : option (list N))
| BatchNormalization
| LeakyReLU (alpha : Q)
| Dropout (rate : Q)
| Flatten.

(** The functional model [build_generator] returns:
    [Model([latent, image_class], cnn(multiply([latent, Flatten(Embedding(...)(image_class))])))]. *)
Record generator_model := {
  (** [Input(shape=(latent_size, ))] *)
  latent_shape : list N;
  (** [Input(shape=(1,), dtype='int32')] *)
  image_class_shape : list N;
  (** [Embedding(input_dim, output_dim)] *)
  embedding_input_dim : N;
  embedding_output_dim : N;
  (** the [Sequential] stack *)
  cnn : list layer;
}.

(** The functional model [build_discriminator] returns: a [Sequential]
    feature extractor followed by the two heads. *)
Record discriminator_model := {
  image_shape : list N;
  features : list layer;
  fake : layer;
  aux : layer;
}.

Definition build_generator (latent_size : N) : generator_model :=
  {| cnn :=
       [ Dense (12 * 12 * 768) (Some latent_size) relu;
         Reshape [12; 12; 768]%N;
         (* upsample to (16, 16, ...) *)
         Conv2DTranspose 384 5 1 valid relu;
         BatchNormalization;
         (* upsample to (32, 32, ...) *)
         Conv2DTranspose 192 5 2 same relu;
         BatchNormalization;
         (* upsample to (64, 64, ...) *)
         Conv2DTranspose 96 5 2 same relu;
         BatchNormalization;
         (* upsample to (128, 128, ...) *)
         Conv2DTranspose 3 5 2 same tanh ];
     (* this is the z space commonly referred to in GAN papers *)
     latent_shape := [latent_size];
     (* this will be our label *)
     image_class_shape := [1%N];
     embedding_input_dim := N.of_nat num_classes;
     embedding_output_dim := latent_size |}.

Definition build_discriminator : discriminator_model :=
  {| features :=
       [ Conv2D 16 3 same 2 (Some [128; 128; 3]%N); LeakyReLU 0.2%Q; Dropout 0.5%Q;
         Conv2D 32 3 same 1 None; LeakyReLU 0.2%Q; Dropout 0.5%Q;
         Conv2D 64 3 same 2 None; LeakyReLU 0.2%Q; Dropout 0.5%Q;
         Conv2D 128 3 same 1 None; LeakyReLU 0.2%Q; Dropout 0.5%Q;
         Conv2D 256 3 same 2 None; LeakyReLU 0.2%Q; Dropout 0.5%Q;
         Conv2D 512 3 same 1 None; LeakyReLU 0.2%Q; Dropout 0.5%Q;
         Flatten ];
     image_shape := [128; 128; 3]%N;
     fake := Dense 1 None sigmoid;
     aux := Dense (N.of_nat num_classes) None softmax |}.

(** *** Shapes, by the framework's rules *)

Definition product (shape : list N) : N := foldr N.mul 1%N shape.

(** Keras's [deconv_length] *)
Definition deconv_length (dim_size stride_size kernel_size : N) (pad : padding) : N :=
  match pad with
  | valid => dim_size * stride_size + N.max (kernel_size - stride_size) 0
  | same => dim_size * stride_size
  end.

(** Keras's [conv_output_length] (dilation 1) *)
Definition conv_output_length (input_length filter_size stride : N) (pad : padding) : N :=
  let output_length :=
    match pad with
    | same => input_length
    | valid => input_length - filter_size + 1
    end in
  (output_length + stride - 1) / stride.

(** [layer.compute_output_shape(input_shape)] without the batch axis;
    [None] when the layer rejects the input shape *)
Definition compute_output_shape (l : layer) (input_shape : list N) : option (list N) :=
  match l, input_shape with
  | Dense units input_dim _, [d] =>
      if decide (default d input_dim = d) then Some [units] else None
  | Reshape target_shape, _ =>
      if decide (product target_shape = product input_shape)
      then Some target_shape else None
  | Conv2DTranspose filters kernel_size strides pad _, [h; w; _] =>
      Some [deconv_length h strides kernel_size pad;
            deconv_length w strides kernel_size pad; filters]
  | Conv2D filters kernel_size pad strides declared, [h; w; _] =>
      if decide (default input_shape declared = input_shape)
      then Some [conv_output_length h kernel_size strides pad;
                 conv_output_length w kernel_size strides pad; filters]
      else None
  | BatchNormalization, _ | LeakyReLU _, _ | Dropout _, _ => Some input_shape
  | Flatten, _ => Some [product input_shape]
  | _, _ => None
  end.

(** *** Values *)

(** A tensor (one sample, no batch axis): its shape and its entries. *)
Record tensor := {
  shape : list N;
  entry : list N → R;
}.

(** The tensors hold float32 numbers. The integer nearest to [x], ties to
    even: *)
Definition Znearest (x : R) : Z :=
  let f := Int_part x in
  let d := (x - IZR f)%R in
  if Rlt_dec d (1 / 2) then f
  else if Rlt_dec (1 / 2) d then (f + 1)%Z
  else if Z.even f then f else (f + 1)%Z.

(** the exponent [e] with [2 ^ (e - 1) <= |x| < 2 ^ e], for [x <> 0] *)
Definition mag (x : R) : Z := (Int_part (ln (Rabs x) / ln 2) + 1)%Z.

(** [x] rounded to the nearest float32 (24 bits of precision, least
    exponent -149); overflow does not occur on the values rounded here *)
Definition round_f32 (x : R) : R :=
  let e := Z.max (mag x - 24) (-149) in
  (IZR (Znearest (x * powerRZ 2 (- e))) * powerRZ 2 e)%R.

(** An elementwise activation function on float32 values: [relu] is exact,
    the float32 [tanh] is the [tanh] of the argument rounded to float32 (for
    arguments of large magnitude it is exactly 1.0 or -1.0). [softmax] and
    [sigmoid] only occur in the discriminator's heads, whose values are not
    modelled. *)
Definition activate (act : activation) (v : R) : R :=
  match act with
  | relu => Rmax 0%R v
  | tanh => round_f32 (Rtrigo_def.tanh v)
  | _ => v
  end.

Definition activation_of (l : layer) : activation :=
  match l with
  | Dense _ _ act | Conv2DTranspose _ _ _ _ act => act
  | _ => linear
  end.

(** The framework's kernels with the current weights. *)
Class Kernels := {
  (** what layer number [i] of the stack computes before its activation
      (the affine map of a dense or convolutional layer, the normalisation
      of a batch-norm layer, the re-indexing of a reshape) *)
  pre_activation : nat → layer → (list N → R) → (list N → R);
  (** the rows of the embedding matrix *)
  embedding_row : N → (list N → R);
}.

(** layer number [i] applied to [t] *)
Definition call_layer `{Kernels} (i : nat) (l : layer) (t : tensor) : option tensor :=
  out_shape ← compute_output_shape l (shape t);
  Some {| shape := out_shape;
          entry := λ ix, activate (activation_of l) (pre_activation i l (entry t) ix) |}.

(** [Sequential.call]: the layers in order *)
Fixpoint call_sequential `{Kernels} (i : nat) (layers : list layer) (t : tensor)
    : option tensor :=
  match layers with
  | [] => Some t
  | l :: layers => t ← call_layer i l t; call_sequential (S i) layers t
  end.

(** the shapes after each layer of a stack *)
Fixpoint output_shapes (layers : list layer) (input_shape : list N)
    : option (list (list N)) :=
  match layers with
  | [] => Some []
  | l :: layers =>
      s ← compute_output_shape l input_shape;
      rest ← output_shapes layers s;
      Some (s :: rest)
  end.

(** [Flatten()(Embedding(...)(image_class))]: the row of the label; the
    lookup fails on a label outside [0, input_dim) *)
Definition embed `{Kernels} (m : generator_model) (image_class : Z) : option tensor :=
  if decide (0 ≤ image_class < Z.of_N (embedding_input_dim m))%Z
  then Some {| shape := [embedding_output_dim m];
               entry := embedding_row (Z.to_N image_class) |}
  else None.

(** [layers.multiply([a, b])]: the shapes must agree *)
Definition multiply (a b : tensor) : option tensor :=
  if decide (shape a = shape b)
  then Some {| shape := shape a; entry := λ ix, (entry a ix * entry b ix)%R |}
  else None.

(** the generator model applied to one [(latent, image_class)] pair *)
Definition call_generator `{Kernels} (m : generator_model) (latent : tensor)
    (image_class : Z) : option tensor :=
  if decide (shape latent = latent_shape m) then
    cls ← embed m image_class;
    (* hadamard product between z-space and a class conditional embedding *)
    h ← multiply latent cls;
    call_sequential 0%nat (cnn m) h
  else None.

End arch.

(** ** Vocabulary of the statements *)

Section vocabulary.
Context `{Random} `{Keras}.

(** The models' attributes, and the files on disk, are the same in two
    states. *)
Definition same_models (w w' : world) : Prop :=
  w_trainable w' = w_trainable w ∧ w_collected w' = w_collected w.

Definition same_disk (w w' : world) : Prop :=
  w_dirs w' = w_dirs w ∧ w_files w' = w_files w ∧ w_written w' = w_written w.

(** The calls of iteration [index] of the batch loop: what is passed to the
    three model methods, for some draws of the random state and some weights
    of the generator. *)
Definition batch_calls (p : hyper) (x_train : list image) (y_train : list Q)
    (index : nat) (cs : list call) : Prop :=
  ∃ (g g' g2 g2' : rng) (s : session),
    let noise := (random_uniform g (batch_size p) (latent_size p)).1 in
    let sampled_labels :=
      (random_randint g' 0 (Z.of_nat num_classes) (batch_size p)).1 in
    let generated_images := keras_generator_predict s noise (reshape_col sampled_labels) in
    let image_batch :=
      np.slice x_train (index * batch_size p) ((index + 1) * batch_size p) in
    let label_batch :=
      np.slice y_train (index * batch_size p) ((index + 1) * batch_size p) in
    let noise2 := (random_uniform g2 (2 * batch_size p) (latent_size p)).1 in
    let sampled_labels2 :=
      (random_randint g2' 0 (Z.of_nat num_classes) (2 * batch_size p)).1 in
    cs = [ Predict generator (LatentClass noise (reshape_col sampled_labels));
           TrainOnBatch discriminator (Images (image_batch ++ generated_images))
             (replicate (batch_size p) soft_one ++ replicate (batch_size p) soft_zero,
              label_batch ++ as_float sampled_labels)
             (Some (disc_sample_weight p));
           TrainOnBatch combined (LatentClass noise2 (reshape_col sampled_labels2))
             (replicate (2 * batch_size p) soft_one, as_float sampled_labels2) None ].

(** The calls of the evaluation that follows the batch loop. *)
Definition test_calls (p : hyper) (x_test : list image) (y_test : list Q)
    (cs : list call) : Prop :=
  ∃ (g g' g2 g2' : rng) (s : session),
    let num_test := length x_test in
    let noise := (random_uniform g num_test (latent_size p)).1 in
    let sampled_labels := (random_randint g' 0 (Z.of_nat num_classes) num_test).1 in
    let generated_images := keras_generator_predict s noise (reshape_col sampled_labels) in
    let noise2 := (random_uniform g2 (2 * num_test) (latent_size p)).1 in
    let sampled_labels2 :=
      (random_randint g2' 0 (Z.of_nat num_classes) (2 * num_test)).1 in
    cs = [ Predict generator (LatentClass noise (reshape_col sampled_labels));
           Evaluate discriminator (Images (x_test ++ generated_images))
             (replicate num_test 1%Q ++ replicate num_test 0%Q,
              y_test ++ as_float sampled_labels);
           Evaluate combined (LatentClass noise2 (reshape_col sampled_labels2))
             (replicate (2 * num_test) 1%Q, as_float sampled_labels2);
           Predict discriminator (Images x_test) ].

(** The inputs of the discriminator updates among a list of calls, in order. *)
Definition discriminator_updates (cs : list call) : list (list image) :=
  omap (λ c, match c with
             | TrainOnBatch discriminator (Images x) _ _ => Some x
             | _ => None
             end) cs.

(** The updates ([train_on_batch] calls) among a list of calls, in order. *)
Definition updates (cs : list call) : list model :=
  omap (λ c, match c with
             | TrainOnBatch m _ _ _ => Some m
             | _ => None
             end) cs.

End vocabulary.

(** ** A small concrete instance of the interfaces

    Five training images (two melanoma, three others) and two test images
    of one pixel, a random state that reverses where it should shuffle, and
    a framework whose weights count the updates they received. *)

Module toy.

Definition disk : Disk := {|
  os_listdir path :=
    if String.eqb path "./images128/train/melanoma" then Some ["m1.png"; "m2.png"]%string
    else if String.eqb path "./images128/validation/melanoma" then Some ["m3.png"]%string
    else if String.eqb path "./images128/train/outros"
         then Some ["o1.png"; "o2.png"; "o3.png"]%string
    else if String.eqb path "./images128/validation/outros" then Some ["o4.png"]%string
    else None;
  Image_open fname :=
    match String.index 0 "melanoma" fname with
    | Some _ => Some [255%Z]
    | None => Some [0%Z]
    end;
|}.

Definition random : Random := {|
  rng := nat;
  random_permutation g n := (rev (seq 0 n), S g);
  random_uniform g rows cols := (replicate rows (replicate cols 0.5%Q), S g);
  random_randint g low high size := (replicate size low, S g);
|}.

Definition keras : Keras := {|
  session := nat * nat;
  weights := nat;
  get_weights s n := match n with G => s.1 | D => s.2 end;
  keras_generator_predict s latent image_class := (λ _, [0%Q]) <$> latent;
  keras_discriminator_predict s x :=
    ((λ _, 0.5%Q) <$> x, (λ _, [0.25%Q; 0.75%Q]) <$> x);
  keras_train_on_batch m collected s x y sample_weight :=
    ((if bool_decide (G ∈ collected) then S s.1 else s.1,
      if bool_decide (D ∈ collected) then S s.2 else s.2),
     (3, 1, 2)%Q);
  keras_evaluate m s x y := (3, 1, 2)%Q;
|}.

Definition kernels : arch.Kernels := {|
  arch.pre_activation i l t := t;
  arch.embedding_row label := λ _, 1%R;
|}.

(** weights with which every layer computes 16 before its activation (zero
    kernels, biases of 16) *)
Definition saturating : arch.Kernels := {|
  arch.pre_activation i l t := λ _, 16%R;
  arch.embedding_row label := λ _, 1%R;
|}.

Definition small : hyper :=
  {| max_runs := 1; epochs := 1; batch_size := 2; latent_size := 1 |}.

(** the state after the set-up lines of [__main__], with the run directory
    of the first run in place *)
Definition ready : @world random keras :=
  set_dirs {[ "./r1"%string ]} (build_models (fresh (0 : @rng random) ((0, 0) : @session keras))).

Definition x_train : list image := [[1%Q]; [1%Q]; [-1%Q]; [-1%Q]; [-1%Q]].
Definition y_train : list Q := [1; 1; 0; 0; 0]%Q.
Definition x_test : list image := [[1%Q]; [-1%Q]].
Definition y_test : list Q := [1; 0]%Q.

Definition latent : arch.tensor :=
  {| arch.shape := [110%N]; arch.entry := λ _, 1%R |}.

End toy.

(** ** Vocabulary of the statements on runs *)

(** ['./r{}'.format(nrun)] under the working directory: the directory of
    run [nrun] *)
Definition run_dir (nrun : nat) : string := os_path_join "." ("r" +:+ pretty nrun).

(** The four paths a checkpoint writes, in the order it writes them. *)
Definition checkpoint_files (run_path : string) (epoch : nat) : list string :=
  [ os_path_join run_path ("params_generator_epoch_" +:+ format_0d 6 epoch +:+ ".hdf5");
    os_path_join run_path ("params_discriminator_epoch_" +:+ format_0d 6 epoch +:+ ".hdf5");
    os_path_join run_path "acgan-history.pkl";
    os_path_join run_path ("plot_epoch_" +:+ format_0d 3 epoch +:+ "_generated.png") ].

(** The epochs among [1 .. E] that end with a checkpoint. *)
Definition checkpoint_epochs (E : nat) : list nat :=
  filter (λ epoch, epoch mod 50 = 0) (seq 1 E).

(** A directory of the data set: it can be listed and every file decodes. *)
Definition directory_loads `{Disk} (path : string) (names : list string) : Prop :=
  os_listdir path = Some names ∧
  Forall (λ f, is_Some (Image_open (os_path_join path f))) names.

(** a string of digits without its leading zeros *)
Fixpoint strip_zeros (s : string) : string :=
  match s with
  | String c s' => if decide (c = "0"%char) then strip_zeros s' else s
  | EmptyString => s
  end.

(** epoch number [n] of the first run, from [toy.ready] and empty histories *)
Abbreviation toy_epoch n :=
  (@train_epoch toy.random toy.keras toy.small toy.x_train toy.y_train toy.x_test
     toy.y_test "./r1" n (∅, ∅, toy.ready)).

(** the first [E] epochs of the first run *)
Abbreviation toy_run E :=
  (@run_epochs toy.random toy.keras toy.small toy.x_train toy.y_train toy.x_test
     toy.y_test "./r1" E toy.ready).

(** the script with the constants [p], in a fresh process *)
Abbreviation toy_main p :=
  (@main toy.random toy.keras toy.disk p
     (fresh (0 : @rng toy.random) ((0, 0) : @session toy.keras))).

(** * Properties *)

#[local] Arguments Nat.mul : simpl never.
#[local] Arguments Nat.div : simpl never.
#[local] Arguments Nat.modulo : simpl never.
#[local] Arguments np.scale : simpl never.
#[local] Arguments np.ones : simpl never.
#[local] Arguments np.zeros : simpl never.
#[local] Arguments np.slice : simpl never.
#[local] Arguments train_batch : simpl never.
#[local] Arguments train_epoch : simpl never.
#[local] Arguments checkpoint : simpl never.

Example os_path_join_train :
  os_path_join_all "." [images_dir; "train"; "melanoma"]%string = "./images128/train/melanoma"%string.
Proof. reflexivity. Qed.


(** ** NumPy helpers *)

Lemma Qmult_1_l_eq (c : Q) : (1 * c)%Q = c.
Proof. destruct c as [[|a|a] b]; reflexivity. Qed.

Lemma scale_ones (n : nat) (c : Q) : np.scale (np.ones n) c = replicate n c.
Proof.
  unfold np.scale, np.ones. rewrite fmap_replicate. by rewrite Qmult_1_l_eq.
Qed.

Lemma Forall_replicate_eq {A} (n : nat) (c : A) : Forall (eq c) (replicate n c).
Proof. apply Forall_replicate. reflexivity. Qed.

Lemma take_indices_length {A} (a : list A) indices a' :
  np.take_indices a indices = Some a' → length a' = length indices.
Proof. intros Ha. symmetry. by eapply length_mapM. Qed.

Lemma take_indices_zip {A B} (a : list A) (b : list B) indices a' b' :
  np.take_indices a indices = Some a' →
  np.take_indices b indices = Some b' →
  np.take_indices (zip a b) indices = Some (zip a' b').
Proof.
  unfold np.take_indices. rewrite !mapM_Some.
  intros Ha. revert b'. induction Ha as [|i x indices a' Hi _ IH]; intros b' Hb.
  - inversion Hb; subst. constructor.
  - inversion Hb as [|? y ? b'' Hj Hb']; subst. simpl. constructor; [|by apply IH].
    by apply lookup_zip_Some.
Qed.

Lemma take_indices_seq {A} (a : list A) :
  np.take_indices a (seq 0 (length a)) = Some a.
Proof.
  unfold np.take_indices. apply mapM_Some.
  apply Forall2_same_length_lookup_2.
  - by rewrite length_seq.
  - intros i j x Hj Hx. apply lookup_seq in Hj as [-> _]. done.
Qed.

Lemma mapM_Permutation {A B} (f : A → option B) (l l' : list A) (k : list B) :
  l ≡ₚ l' → mapM f l = Some k → ∃ k', mapM f l' = Some k' ∧ k ≡ₚ k'.
Proof.
  intros Hp. revert k.
  induction Hp as [|x l l' _ IH|x y l|l l' l'' _ IH1 _ IH2]; intros k Hk.
  - exists k. done.
  - simpl in *. destruct (f x) as [z|]; [|done]. simpl in *.
    destruct (mapM f l) as [k0|] eqn:E; [|done]. injection Hk as <-.
    destruct (IH k0 eq_refl) as (k' & -> & Hk'). exists (z :: k'). simpl.
    split; [done|]. by apply perm_skip.
  - simpl in *. destruct (f y) as [zy|]; [|done]. destruct (f x) as [zx|]; [|done].
    simpl in *. destruct (mapM f l) as [k0|]; [|done]. injection Hk as <-.
    exists (zx :: zy :: k0). split; [done|]. apply perm_swap.
  - destruct (IH1 k Hk) as (k1 & Hk1 & Hp1).
    destruct (IH2 k1 Hk1) as (k2 & Hk2 & Hp2).
    exists k2. split; [done|]. by etrans.
Qed.

(** Indexing by a permutation of all the indices permutes the array. *)
Lemma take_indices_perm {A} (a : list A) indices a' :
  indices ≡ₚ seq 0 (length a) →
  np.take_indices a indices = Some a' → a' ≡ₚ a.
Proof.
  intros Hp Ha. unfold np.take_indices in *.
  destruct (mapM_Permutation _ _ _ _ Hp Ha) as (k' & Hk' & Hpk).
  pose proof (take_indices_seq a) as Hs. unfold np.take_indices in Hs.
  rewrite Hs in Hk'. by simplify_eq.
Qed.

Lemma sum_app (a b : list Q) : (np.sum (a ++ b) == np.sum a + np.sum b)%Q.
Proof.
  induction a as [|v a IH]; simpl.
  - ring.
  - rewrite IH. ring.
Qed.

Lemma sum_replicate (n : nat) (c : Q) :
  (np.sum (replicate n c) == inject_Z (Z.of_nat n) * c)%Q.
Proof.
  induction n as [|n IH].
  - simpl. ring.
  - cbn [replicate np.sum foldr]. fold (np.sum (replicate n c)).
    rewrite IH, Nat2Z.inj_succ, <- Z.add_1_r, inject_Z_plus. ring.
Qed.

Lemma concatenate_nd_Some {A} (a b c : list A) :
  np.concatenate_nd a b = Some c → c = a ++ b.
Proof. destruct a, b; simpl; congruence. Qed.

Lemma concatenate_nd_total {A} (a b : list A) :
  a ≠ [] → b ≠ [] → np.concatenate_nd a b = Some (a ++ b).
Proof. by destruct a, b. Qed.

Lemma take_indices_total {A} (a : list A) indices :
  indices ≡ₚ seq 0 (length a) → is_Some (np.take_indices a indices).
Proof.
  intros Hp. symmetry in Hp.
  destruct (mapM_Permutation _ _ _ _ Hp (take_indices_seq a)) as (k & Hk & _).
  unfold np.take_indices. rewrite Hk. eauto.
Qed.

(** ** The data loader *)

Lemma shuffle_Some `{Random} {A B} (a : list A) (b : list B) g a' b' g' :
  shuffle a b g = Some (a', b', g') →
  length a = length b ∧
  np.take_indices a (random_permutation g (length a)).1 = Some a' ∧
  np.take_indices b (random_permutation g (length a)).1 = Some b' ∧
  g' = (random_permutation g (length a)).2.
Proof.
  unfold shuffle. case_decide as Hlen; [|done].
  destruct (random_permutation g (length a)) as [indices g1]. simpl.
  destruct (np.take_indices a indices) as [a1|]; [|done]. simpl.
  destruct (np.take_indices b indices) as [b1|]; [|done]. simpl.
  intros [= <- <- <-]. done.
Qed.

Lemma get_dir_data_Some `{Disk} path clz x y :
  get_dir_data path clz = Some (x, y) →
  ∃ names, os_listdir path = Some names ∧
    Forall2 (λ f img, Image_open (os_path_join path f) = Some img) names x ∧
    y = replicate (length x) clz.
Proof.
  unfold get_dir_data. destruct (os_listdir path) as [names|]; [|done]. simpl.
  destruct (mapM Image_open _) as [x0|] eqn:E; [|done]. simpl.
  intros [= <- <-]. exists names. split; [done|].
  split; [|apply scale_ones].
  apply mapM_Some in E. by apply Forall2_fmap_l in E.
Qed.

Lemma get_dir_data_total `{Disk} path clz names :
  os_listdir path = Some names →
  Forall (λ f, is_Some (Image_open (os_path_join path f))) names →
  ∃ x, get_dir_data path clz = Some (x, replicate (length x) clz) ∧
       Forall2 (λ f img, Image_open (os_path_join path f) = Some img) names x.
Proof.
  intros Hls Hopen. unfold get_dir_data. rewrite Hls. simpl.
  assert (is_Some (mapM Image_open ((λ f, os_path_join path f) <$> names))) as [x Hx].
  { apply mapM_is_Some. by apply Forall_fmap. }
  rewrite Hx. simpl. exists x. rewrite scale_ones. split; [done|].
  apply mapM_Some in Hx. by apply Forall2_fmap_l in Hx.
Qed.

(** What [get_data] computes, step by step. *)
Lemma get_data_Some `{Disk} `{Random} g x_train y_train x_test y_test g' :
  get_data g = Some (x_train, y_train, x_test, y_test, g') →
  ∃ xm ym xmt ymt xo yo xot yot ytrain g1,
    get_dir_data "./images128/train/melanoma" 1 = Some (xm, ym) ∧
    get_dir_data "./images128/validation/melanoma" 1 = Some (xmt, ymt) ∧
    get_dir_data "./images128/train/outros" 0 = Some (xo, yo) ∧
    get_dir_data "./images128/validation/outros" 0 = Some (xot, yot) ∧
    shuffle (xm ++ xo) (ym ++ yo) g = Some (x_train, ytrain, g1) ∧
    y_train = ym ++ yo ∧
    shuffle (xmt ++ xot) (ymt ++ yot) g1 = Some (x_test, y_test, g').
Proof.
  unfold get_data.
  change (os_path_join_all "." [images_dir; "train"; "melanoma"]%string)
    with "./images128/train/melanoma"%string.
  change (os_path_join_all "." [images_dir; "validation"; "melanoma"]%string)
    with "./images128/validation/melanoma"%string.
  change (os_path_join_all "." [images_dir; "train"; "outros"]%string)
    with "./images128/train/outros"%string.
  change (os_path_join_all "." [images_dir; "validation"; "outros"]%string)
    with "./images128/validation/outros"%string.
  destruct (get_dir_data "./images128/train/melanoma" 1) as [[xm ym]|]; [|done].
  destruct (get_dir_data "./images128/validation/melanoma" 1) as [[xmt ymt]|]; [|done].
  destruct (get_dir_data "./images128/train/outros" 0) as [[xo yo]|]; [|done].
  destruct (get_dir_data "./images128/validation/outros" 0) as [[xot yot]|]; [|done].
  simpl.
  destruct (np.concatenate_nd xm xo) as [xtr|] eqn:Ec1; [|done].
  apply concatenate_nd_Some in Ec1 as ->. simpl.
  destruct (np.concatenate_nd xmt xot) as [xte|] eqn:Ec2; [|done].
  apply concatenate_nd_Some in Ec2 as ->. simpl. unfold np.concatenate.
  destruct (shuffle (xm ++ xo) (ym ++ yo) g) as [[[x1 y1] g1]|] eqn:E1; [|done]. simpl.
  destruct (shuffle (xmt ++ xot) (ymt ++ yot) g1) as [[[x2 y2] g2]|] eqn:E2; [|done].
  simpl. intros [= <- <- <- <- <-].
  exists xm, ym, xmt, ymt, xo, yo, xot, yot, y1, g1. done.
Qed.

Lemma take_indices_Forall {A} (P : A → Prop) (a : list A) indices a' :
  Forall P a → np.take_indices a indices = Some a' → Forall P a'.
Proof.
  intros HP Ha. unfold np.take_indices in Ha. apply mapM_Some in Ha.
  induction Ha as [|i x indices a' Hi _ IH]; [constructor|].
  constructor; [|done]. exact (proj1 (Forall_lookup P a) HP i x Hi).
Qed.

Lemma zip_replicate_r {A B} (l : list A) (c : B) :
  zip l (replicate (length l) c) = (λ x, (x, c)) <$> l.
Proof. induction l as [|x l IH]; simpl; [done|]. by rewrite IH. Qed.

Lemma zip_labelled {A B} (l1 l2 : list A) (c1 c2 : B) :
  zip (l1 ++ l2) (replicate (length l1) c1 ++ replicate (length l2) c2)
  = ((λ x, (x, c1)) <$> l1) ++ ((λ x, (x, c2)) <$> l2).
Proof.
  rewrite zip_with_app by (by rewrite length_replicate).
  by rewrite !zip_replicate_r.
Qed.

(** A shuffle with a well-behaved random state permutes the pairs. *)
Lemma shuffle_perm `{Random} `{!RandomOk} {A B} (a : list A) (b : list B) g a' b' g' :
  shuffle a b g = Some (a', b', g') →
  a' ≡ₚ a ∧ zip a' b' ≡ₚ zip a b.
Proof.
  intros (Hlen & Ha & Hb & _)%shuffle_Some.
  pose proof (random_permutation_perm g (length a)) as Hp.
  split; [by eapply take_indices_perm|].
  eapply take_indices_perm; [|by apply take_indices_zip].
  by rewrite length_zip_with, <- Hlen, Nat.min_id.
Qed.

Lemma shuffle_total `{Random} `{!RandomOk} {A B} (a : list A) (b : list B) g :
  length a = length b → is_Some (shuffle a b g).
Proof.
  intros Hlen. unfold shuffle. rewrite decide_True by done.
  pose proof (random_permutation_perm g (length a)) as Hp.
  destruct (random_permutation g (length a)) as [indices g1]. simpl in Hp.
  destruct (take_indices_total a indices Hp) as [a' ->].
  rewrite Hlen in Hp. destruct (take_indices_total b indices Hp) as [b' ->].
  simpl. eauto.
Qed.

Lemma toy_random_ok : @RandomOk toy.random.
Proof.
  split; simpl; intros.
  - symmetry. apply Permutation_rev.
  - apply length_replicate.
  - apply length_replicate.
Qed.

(** C6. When [get_dir_data(path, clz)] returns, it returns arrays [x] and
    [y] of equal length with one entry per file that [os.listdir(path)]
    lists (the image opened from that file, in listing order) and every
    entry of [y] equal to [clz]. [get_data] calls it with class 1 on
    [train/melanoma] and [validation/melanoma] and with class 0 on
    [train/outros] and [validation/outros]: the labels it returns are the
    melanoma ones followed by the zeros for training, the returned test
    pairs are exactly the images of the two validation directories with the
    label of their directory, and every label is 0 or 1, below
    [num_classes = 2]. *)
Theorem get_dir_data_labels `{Disk} `{Random} `{!RandomOk} :
  (∀ path clz x y,
     get_dir_data path clz = Some (x, y) →
     ∃ names,
       os_listdir path = Some names ∧
       length x = length y ∧ length x = length names ∧
       Forall2 (λ f img, Image_open (os_path_join path f) = Some img) names x ∧
       Forall (eq clz) y) ∧
  (∀ g x_train y_train x_test y_test g',
     get_data g = Some (x_train, y_train, x_test, y_test, g') →
     ∃ xm xmt xo xot,
       get_dir_data "./images128/train/melanoma" 1
         = Some (xm, replicate (length xm) 1%Q) ∧
       get_dir_data "./images128/validation/melanoma" 1
         = Some (xmt, replicate (length xmt) 1%Q) ∧
       get_dir_data "./images128/train/outros" 0
         = Some (xo, replicate (length xo) 0%Q) ∧
       get_dir_data "./images128/validation/outros" 0
         = Some (xot, replicate (length xot) 0%Q) ∧
       x_train ≡ₚ xm ++ xo ∧
       y_train = replicate (length xm) 1%Q ++ replicate (length xo) 0%Q ∧
       zip x_test y_test ≡ₚ ((λ img, (img, 1%Q)) <$> xmt) ++ ((λ img, (img, 0%Q)) <$> xot) ∧
       Forall (λ v, ∃ c : nat, c < num_classes ∧ v = inject_Z (Z.of_nat c))
              (y_train ++ y_test)).
Proof.
  split.
  - intros path clz x y (names & Hls & Hf & ->)%get_dir_data_Some.
    exists names. split; [done|].
    split; [by rewrite length_replicate|].
    split; [symmetry; by eapply Forall2_length|].
    split; [done|apply Forall_replicate_eq].
  - intros g x_train y_train x_test y_test g' Hg.
    apply get_data_Some in Hg
      as (xm & ym & xmt & ymt & xo & yo & xot & yot & ytrain & g1
          & Hm & Hmt & Ho & Hot & Hs1 & -> & Hs2).
    pose proof Hm as (_ & _ & _ & ->)%get_dir_data_Some.
    pose proof Hmt as (_ & _ & _ & ->)%get_dir_data_Some.
    pose proof Ho as (_ & _ & _ & ->)%get_dir_data_Some.
    pose proof Hot as (_ & _ & _ & ->)%get_dir_data_Some.
    exists xm, xmt, xo, xot. repeat (split; [done|]).
    destruct (shuffle_perm _ _ _ _ _ _ Hs1) as [Hx _].
    destruct (shuffle_perm _ _ _ _ _ _ Hs2) as [_ Hz].
    split; [done|]. split; [done|].
    split; [by rewrite Hz, zip_labelled|].
    assert (∀ n m, Forall (λ v : Q, ∃ c : nat, c < num_classes ∧ v = inject_Z (Z.of_nat c))
                     (replicate n 1%Q ++ replicate m 0%Q)) as Hlab.
    { intros n m. apply Forall_app. split; apply Forall_replicate.
      - exists 1. split; [unfold num_classes; lia|done].
      - exists 0. split; [unfold num_classes; lia|done]. }
    apply Forall_app. split; [apply Hlab|].
    apply shuffle_Some in Hs2 as (_ & _ & Hy & _).
    eapply take_indices_Forall; [apply Hlab|done].
Qed.

Lemma get_dir_data_labels_witness :
  (∃ names,
     @os_listdir toy.disk "./images128/train/outros" = Some names ∧ length names = 3) ∧
  (∃ x_train x_test y_test g',
     @get_data toy.disk toy.random 0 = Some (x_train, [1; 1; 0; 0; 0]%Q, x_test, y_test, g') ∧
     zip x_test y_test ≡ₚ [([255%Z], 1%Q); ([0%Z], 0%Q)]).
Proof.
  split.
  - destruct (proj1 (@get_dir_data_labels toy.disk toy.random toy_random_ok)
                "./images128/train/outros"%string 0%Q [[0]; [0]; [0]]%Z [0; 0; 0]%Q eq_refl)
      as (names & Hls & _ & Hn & _).
    exists names. split; [exact Hls|]. symmetry. exact Hn.
  - destruct (proj2 (@get_dir_data_labels toy.disk toy.random toy_random_ok)
                (0 : @rng toy.random)
                [[0]; [0]; [0]; [255]; [255]]%Z [1; 1; 0; 0; 0]%Q [[0]; [255]]%Z [0; 1]%Q
                (2 : @rng toy.random) eq_refl)
      as (xm & xmt & xo & xot & _ & Hmt & _ & Hot & _ & _ & Hz & _).
    injection Hmt as <-. injection Hot as <-.
    eexists _, _, _, _. split; [reflexivity|exact Hz].
Defined.

(** C2. When [get_data] returns, its [y_train] is the melanoma training
    labels followed by the [outros] training labels, whatever permutation
    the shuffle draws: the shuffled labels are bound to [ytrain] and
    dropped, while [x_train] is the concatenated images indexed by the drawn
    permutation. The test pair is indexed by one and the same permutation,
    so its (image, label) pairs are those of the loaded samples. There is a
    data set and a permutation for which some [x_train[i]], [y_train[i]] is
    the image and label of no loaded sample. *)
Theorem get_data_y_train_not_shuffled :
  (∀ (disk : Disk) (random : Random) g x_train y_train x_test y_test g',
     get_data g = Some (x_train, y_train, x_test, y_test, g') →
     ∃ xm ym xmt ymt xo yo xot yot g1,
       get_dir_data "./images128/train/melanoma" 1 = Some (xm, ym) ∧
       get_dir_data "./images128/validation/melanoma" 1 = Some (xmt, ymt) ∧
       get_dir_data "./images128/train/outros" 0 = Some (xo, yo) ∧
       get_dir_data "./images128/validation/outros" 0 = Some (xot, yot) ∧
       y_train = ym ++ yo ∧
       np.take_indices (xm ++ xo) (random_permutation g (length (xm ++ xo))).1
         = Some x_train ∧
       np.take_indices (zip (xmt ++ xot) (ymt ++ yot))
                       (random_permutation g1 (length (xmt ++ xot))).1
         = Some (zip x_test y_test) ∧
       (RandomOk → x_train ≡ₚ xm ++ xo ∧
                   zip x_test y_test ≡ₚ zip (xmt ++ xot) (ymt ++ yot))) ∧
  (∃ (disk : Disk) (random : Random) (_ : RandomOk) g
     x_train y_train x_test y_test g' xm ym xo yo i img label,
     get_data g = Some (x_train, y_train, x_test, y_test, g') ∧
     get_dir_data "./images128/train/melanoma" 1 = Some (xm, ym) ∧
     get_dir_data "./images128/train/outros" 0 = Some (xo, yo) ∧
     x_train !! i = Some img ∧ y_train !! i = Some label ∧
     (img, label) ∉ zip (xm ++ xo) (ym ++ yo)).
Proof.
  split.
  - intros disk random g x_train y_train x_test y_test g' Hg.
    apply get_data_Some in Hg
      as (xm & ym & xmt & ymt & xo & yo & xot & yot & ytrain & g1
          & Hm & Hmt & Ho & Hot & Hs1 & -> & Hs2).
    exists xm, ym, xmt, ymt, xo, yo, xot, yot, g1.
    pose proof Hs1 as (_ & Hx & _ & _)%shuffle_Some.
    pose proof Hs2 as (_ & Hxt & Hyt & _)%shuffle_Some.
    split_and!; try done.
    + by apply take_indices_zip.
    + intros Hok.
      destruct (shuffle_perm _ _ _ _ _ _ Hs1) as [Hp _].
      destruct (shuffle_perm _ _ _ _ _ _ Hs2) as [_ Hz]. done.
  - exists toy.disk, toy.random, toy_random_ok, (0 : @rng toy.random).
    exists [[0]; [0]; [0]; [255]; [255]]%Z, [1; 1; 0; 0; 0]%Q.
    exists [[0]; [255]]%Z, [0; 1]%Q, (2 : @rng toy.random).
    exists [[255]; [255]]%Z, [1; 1]%Q, [[0]; [0]; [0]]%Z, [0; 0; 0]%Q.
    exists 0, [0%Z], 1%Q.
    repeat (split; [reflexivity|]).
    simpl. intros Hin.
    repeat (apply elem_of_cons in Hin as [[=]|Hin]).
    by apply elem_of_nil in Hin.
Qed.

Lemma get_data_y_train_not_shuffled_witness :
  ∃ x_train x_test y_test g',
    @get_data toy.disk toy.random 0
    = Some (x_train, [1; 1; 0; 0; 0]%Q, x_test, y_test, g').
Proof.
  destruct (proj1 get_data_y_train_not_shuffled toy.disk toy.random (0 : @rng toy.random)
              [[0]; [0]; [0]; [255]; [255]]%Z [1; 1; 0; 0; 0]%Q [[0]; [255]]%Z [0; 1]%Q
              (2 : @rng toy.random) eq_refl)
    as (xm & ym & xmt & ymt & xo & yo & xot & yot & g1 & _).
  by eexists _, _, _, _.
Defined.

(** ** The training loop *)

Section loop.
Context `{Random} `{Keras}.
#[local] Arguments mapM : simpl never.

Lemma train_batch_Some p x_train y_train index gl dl w gl' dl' w' :
  train_batch p x_train y_train index (gl, dl, w) = Some (gl', dl', w') →
  ∃ cd cc cs s1 l1 l2,
    w_collected w discriminator = Some cd ∧
    w_collected w combined = Some cc ∧
    batch_calls p x_train y_train index cs ∧
    w_calls w' = w_calls w ++ cs ∧
    (∃ x y sw, (s1, l1) = keras_train_on_batch discriminator cd (w_session w) x y sw) ∧
    (∃ x y sw, (w_session w', l2) = keras_train_on_batch combined cc s1 x y sw) ∧
    gl' = gl ++ [l2] ∧ dl' = dl ++ [l1] ∧
    same_models w w' ∧ same_disk w w'.
Proof.
  unfold train_batch, np_random_uniform, np_random_randint, generator_predict,
    model_train_on_batch.
  destruct (random_uniform (w_rng w) _ _) as [noise g1] eqn:E1. simpl.
  destruct (random_randint g1 _ _ _) as [labels g2] eqn:E2. simpl.
  destruct (w_collected w discriminator) as [cd|] eqn:Ecd; [|done]. simpl.
  destruct (keras_train_on_batch discriminator cd _ _ _ _) as [s1 l1] eqn:E3. simpl.
  destruct (random_uniform g2 _ _) as [noise2 g3] eqn:E4. simpl.
  destruct (random_randint g3 _ _ _) as [labels2 g4] eqn:E5. simpl.
  destruct (w_collected w combined) as [cc|] eqn:Ecc; [|done]. simpl.
  destruct (keras_train_on_batch combined cc _ _ _ _) as [s2 l2] eqn:E6. simpl.
  intros [= <- <- <-].
  eexists cd, cc, _, s1, l1, l2. split_and!; try done.
  - exists (w_rng w), g1, g2, g3, (w_session w).
    rewrite E1, E2, E4, E5. simpl. reflexivity.
  - simpl. unfold np.concatenate. rewrite scale_ones, <- !app_assoc. reflexivity.
  - eexists _, _, _. symmetry. exact E3.
  - eexists _, _, _. simpl. symmetry. exact E6.
Qed.

Lemma same_models_refl (w : world) : same_models w w.
Proof. done. Qed.

Lemma same_models_trans (w1 w2 w3 : world) :
  same_models w1 w2 → same_models w2 w3 → same_models w1 w3.
Proof. unfold same_models. intros [-> ->] [-> ->]. done. Qed.

Lemma same_disk_trans (w1 w2 w3 : world) :
  same_disk w1 w2 → same_disk w2 w3 → same_disk w1 w3.
Proof. unfold same_disk. intros (-> & -> & ->) (-> & -> & ->). done. Qed.

(** The batch loop, from iteration [k] on. *)
Lemma batch_loop_Some p x_train y_train n :
  ∀ k gl dl w gl' dl' w',
    for_each (seq k n) (train_batch p x_train y_train) (gl, dl, w) = Some (gl', dl', w') →
    ∃ batches,
      length batches = n ∧
      (∀ i cs, batches !! i = Some cs → batch_calls p x_train y_train (k + i) cs) ∧
      w_calls w' = w_calls w ++ mjoin batches ∧
      length gl' = length gl + n ∧ length dl' = length dl + n ∧
      same_models w w' ∧ same_disk w w'.
Proof.
  induction n as [|n IH]; intros k gl dl w gl' dl' w' Hloop.
  - injection Hloop as <- <- <-. exists [].
    split_and!; try done; try lia.
    symmetry. apply app_nil_r.
  - simpl in Hloop.
    destruct (train_batch p x_train y_train k (gl, dl, w)) as [[[gl1 dl1] w1]|] eqn:E;
      [|done].
    simpl in Hloop.
    apply train_batch_Some in E
      as (cd & cc & cs & s1 & l1 & l2 & _ & _ & Hcs & Hcalls & _ & _ & -> & -> & Hm & Hd).
    apply IH in Hloop as (batches & Hlen & Hb & Hcalls' & Hgl & Hdl & Hm' & Hd').
    exists (cs :: batches). split_and!.
    + simpl. by rewrite Hlen.
    + intros [|i] cs' Hi; simpl in Hi.
      * injection Hi as <-. by rewrite Nat.add_0_r.
      * rewrite Nat.add_succ_r. by apply (Hb i).
    + rewrite Hcalls', Hcalls. simpl. by rewrite <- app_assoc.
    + rewrite Hgl, length_app. simpl. lia.
    + rewrite Hdl, length_app. simpl. lia.
    + by eapply same_models_trans.
    + by eapply same_disk_trans.
Qed.

Lemma history_get_append key v (h : history) :
  history_get key (history_append key v h) = history_get key h ++ [v].
Proof. unfold history_append. unfold history_get at 1. by rewrite lookup_insert_eq. Qed.

Lemma history_get_append_ne key key' v (h : history) :
  key ≠ key' → history_get key (history_append key' v h) = history_get key h.
Proof.
  intros Hne. unfold history_append. unfold history_get at 1 3.
  by rewrite lookup_insert_ne.
Qed.

Lemma history_last_append key v (h : history) :
  history_last key (history_append key v h) = Some v.
Proof. unfold history_last. rewrite history_get_append. apply last_snoc. Qed.

Lemma history_last_append_ne key key' v (h : history) :
  key ≠ key' → history_last key (history_append key' v h) = history_last key h.
Proof. intros Hne. unfold history_last. by rewrite history_get_append_ne. Qed.

Lemma ROW_FMT_format_Some name v u :
  ROW_FMT_format name v = Some u → ∃ l, v = vec3 l.
Proof. destruct v; [eauto|done|done]. Qed.

(** One epoch, seen from outside. *)
Lemma train_epoch_Some p x_train y_train x_test y_test run_path epoch
    (th teh : history) w (th' teh' : history) w' :
  train_epoch p x_train y_train x_test y_test run_path epoch (th, teh, w)
    = Some (th', teh', w') →
  ∃ num_batches gl dl w1 w2 tcs gtl dtl acc,
    int_div (length x_train) (batch_size p) = Some num_batches ∧
    for_each (seq 0 num_batches) (train_batch p x_train y_train) ([], [], w)
      = Some (gl, dl, w1) ∧
    test_calls p x_test y_test tcs ∧
    w_calls w2 = w_calls w1 ++ tcs ∧
    w_session w2 = w_session w1 ∧ same_models w1 w2 ∧ same_disk w1 w2 ∧
    th' = history_append "discriminator" (mean_axis0 dl)
            (history_append "generator" (mean_axis0 gl) th) ∧
    teh' = history_append "accuracy" acc
             (history_append "discriminator" (vec3 dtl)
                (history_append "generator" (vec3 gtl) teh)) ∧
    (∃ v, mean_axis0 gl = vec3 v) ∧ (∃ v, mean_axis0 dl = vec3 v) ∧
    (if epoch mod 50 =? 0
     then checkpoint p run_path epoch th' teh' w2 = Some w'
     else w' = w2).
Proof.
  unfold train_epoch.
  destruct (int_div (length x_train) (batch_size p)) as [num_batches|]; [|done]. simpl.
  destruct (for_each (seq 0 num_batches) _ _) as [[[gl dl] w1]|] eqn:Eloop; [|done]. simpl.
  unfold np_random_uniform, np_random_randint, generator_predict, model_evaluate,
    discriminator_predict.
  destruct (random_uniform (w_rng w1) _ _) as [noise g1] eqn:E1. simpl.
  destruct (random_randint g1 _ _ _) as [labels g2] eqn:E2. simpl.
  destruct (w_collected w1 discriminator) as [cd|] eqn:Ecd; [|done]. simpl.
  destruct (random_uniform g2 _ _) as [noise2 g3] eqn:E3. simpl.
  destruct (random_randint g3 _ _ _) as [labels2 g4] eqn:E4. simpl.
  destruct (w_collected w1 combined) as [cc|] eqn:Ecc; [|done]. simpl.
  destruct (mapM argmax _) as [y_pred|]; [|done]. simpl.
  destruct (accuracy_score y_test y_pred) as [acc|]; [|done]. simpl.
  rewrite history_last_append_ne, !history_last_append by done. simpl.
  rewrite history_last_append_ne, history_last_append_ne, history_last_append by done.
  rewrite history_last_append_ne, history_last_append by done. simpl.
  destruct (ROW_FMT_format "generator (train)" (mean_axis0 gl)) as [[]|] eqn:Eg; [|done].
  destruct (ROW_FMT_format "discriminator (train)" (mean_axis0 dl)) as [[]|] eqn:Ed; [|done].
  simpl. intros Hrest.
  apply ROW_FMT_format_Some in Eg, Ed.
  eexists num_batches, gl, dl, w1, _, _, _, _, acc.
  split; [done|]. split; [done|].
  split.
  { exists (w_rng w1), g1, g2, g3, (w_session w1).
    cbv zeta. rewrite E1, E2, E3, E4. simpl. reflexivity. }
  destruct (epoch mod 50 =? 0) eqn:Emod; simpl in Hrest.
  - destruct (checkpoint _ _ _ _ _ _) as [w3|] eqn:Eck; [|done].
    injection Hrest as <- <- <-.
    split_and!; [| | | |reflexivity|reflexivity|done|done|exact Eck];
      [simpl; unfold np.concatenate, np.ones; rewrite <- !app_assoc; reflexivity|done..].
  - injection Hrest as <- <- <-.
    split_and!; [| | | |reflexivity|reflexivity|done|done|reflexivity];
      [simpl; unfold np.concatenate, np.ones; rewrite <- !app_assoc; reflexivity|done..].
Qed.

(** The lines after [if epoch % 50 != 0: continue], seen from outside. *)
Lemma checkpoint_Some p run_path epoch (th teh : history) w w' :
  checkpoint p run_path epoch th teh w = Some w' →
  let gen_file :=
    os_path_join run_path ("params_generator_epoch_" +:+ format_0d 6 epoch +:+ ".hdf5") in
  let disc_file :=
    os_path_join run_path
      ("params_discriminator_epoch_" +:+ format_0d 6 epoch +:+ ".hdf5") in
  let history_file := os_path_join run_path "acgan-history.pkl" in
  let plot_file :=
    os_path_join run_path ("plot_epoch_" +:+ format_0d 3 epoch +:+ "_generated.png") in
  run_path ∈ w_dirs w ∧
  ∃ shown noise labels,
    length shown = 30 ∧
    w_files w' =
      <[plot_file := png shown]>
        (<[history_file := pickle {[ "train"%string := th; "test"%string := teh ]}]>
           (<[disc_file := hdf5 [get_weights (w_session w) D]]>
              (<[gen_file := hdf5 [get_weights (w_session w) G]]> (w_files w)))) ∧
    w_written w' = w_written w ++ [gen_file; disc_file; history_file; plot_file] ∧
    w_dirs w' = w_dirs w ∧
    w_session w' = w_session w ∧ same_models w w' ∧
    w_calls w' = w_calls w ++ [ SaveWeights generator gen_file;
                                SaveWeights discriminator disc_file;
                                Predict generator (LatentClass noise labels) ].
Proof.
  unfold checkpoint, model_save_weights, write_file, np_random_uniform, generator_predict.
  destruct (decide (run_path ∈ w_dirs w)) as [Hdir|]; [|done]. simpl.
  destruct (decide (run_path ∈ w_dirs w)) as [_|]; [|done]. simpl.
  destruct (decide (run_path ∈ w_dirs w)) as [_|]; [|done]. simpl.
  destruct (random_uniform (w_rng w) _ _) as [noise g1] eqn:E1. simpl.
  destruct (mapM _ _) as [shown|] eqn:Eshown; [|done]. simpl.
  destruct (decide (run_path ∈ w_dirs w)) as [_|]; [|done].
  intros [= <-]. split; [done|].
  eexists shown, noise, _. split.
  { apply length_mapM in Eshown. rewrite <- Eshown. done. }
  simpl. rewrite <- !app_assoc. done.
Qed.

Lemma batch_calls_methods p x_train y_train index cs :
  batch_calls p x_train y_train index cs →
  call_method <$> cs
    = [(generator, predict); (discriminator, train_on_batch); (combined, train_on_batch)] ∧
  updates cs = [discriminator; combined].
Proof. intros (g & g' & g2 & g2' & s & ->). done. Qed.

Lemma test_calls_methods p x_test y_test cs :
  test_calls p x_test y_test cs →
  call_method <$> cs
    = [(generator, predict); (discriminator, evaluate); (combined, evaluate);
       (discriminator, predict)] ∧
  updates cs = [] ∧ discriminator_updates cs = [].
Proof. intros (g & g' & g2 & g2' & s & ->). done. Qed.

Lemma updates_app cs1 cs2 : updates (cs1 ++ cs2) = updates cs1 ++ updates cs2.
Proof. apply omap_app. Qed.

Lemma discriminator_updates_app cs1 cs2 :
  discriminator_updates (cs1 ++ cs2)
  = discriminator_updates cs1 ++ discriminator_updates cs2.
Proof. apply omap_app. Qed.

(** The calls of the iterations [k], [k+1], ... of the batch loop. *)
Lemma batches_calls p x_train y_train (batches : list (list call)) :
  ∀ k,
    (∀ i cs, batches !! i = Some cs → batch_calls p x_train y_train (k + i) cs) →
    call_method <$> mjoin batches
      = mjoin (replicate (length batches)
                 [(generator, predict); (discriminator, train_on_batch);
                  (combined, train_on_batch)]) ∧
    updates (mjoin batches) = mjoin (replicate (length batches) [discriminator; combined]) ∧
    ∃ fakes,
      length fakes = length batches ∧
      discriminator_updates (mjoin batches)
        = zip_with app
            ((λ i, np.slice x_train (i * batch_size p) ((i + 1) * batch_size p))
               <$> seq k (length batches))
            fakes.
Proof.
  induction batches as [|cs batches IH]; intros k Hb.
  - split; [done|]. split; [done|]. by exists [].
  - destruct (IH (S k)) as (Hm & Hu & fakes & Hlen & Hd).
    { intros i cs' Hi. rewrite Nat.add_succ_comm. by apply (Hb (S i)). }
    pose proof (Hb 0 cs eq_refl) as Hcs. rewrite Nat.add_0_r in Hcs.
    destruct (batch_calls_methods _ _ _ _ _ Hcs) as [Hm0 Hu0].
    simpl. rewrite fmap_app, updates_app, discriminator_updates_app, Hm, Hu, Hm0, Hu0.
    split; [done|]. split; [done|].
    destruct Hcs as (g & g' & g2 & g2' & s & ->).
    eexists (_ :: fakes). split; [simpl; by rewrite Hlen|].
    rewrite Hd. reflexivity.
Qed.

(** The calls of one epoch. *)
Lemma train_epoch_calls p x_train y_train x_test y_test run_path epoch
    (th teh : history) w (th' teh' : history) w' :
  train_epoch p x_train y_train x_test y_test run_path epoch (th, teh, w)
    = Some (th', teh', w') →
  ∃ num_batches batches tcs ccs,
    int_div (length x_train) (batch_size p) = Some num_batches ∧
    w_calls w' = w_calls w ++ mjoin batches ++ tcs ++ ccs ∧
    length batches = num_batches ∧
    (∀ index cs, batches !! index = Some cs → batch_calls p x_train y_train index cs) ∧
    test_calls p x_test y_test tcs ∧
    (if epoch mod 50 =? 0
     then ∃ gen_file disc_file noise labels,
            ccs = [ SaveWeights generator gen_file; SaveWeights discriminator disc_file;
                    Predict generator (LatentClass noise labels) ]
     else ccs = []).
Proof.
  intros (nb & gl & dl & w1 & w2 & tcs & gtl & dtl & acc & Hnb & Hloop & Htcs & Hc2
          & _ & _ & _ & _ & _ & _ & _ & Hck)%train_epoch_Some.
  apply batch_loop_Some in Hloop as (batches & Hlen & Hb & Hc1 & _).
  destruct (epoch mod 50 =? 0).
  - apply checkpoint_Some in Hck as (_ & shown & noise & labels & _ & _ & _ & _ & _ & _ & Hc3).
    eexists nb, batches, tcs, _. split_and!; [done| |done|done|done|by eexists _, _, _, _].
    rewrite Hc3, Hc2, Hc1, <- !app_assoc. done.
  - subst w'. exists nb, batches, tcs, []. split_and!; try done.
    rewrite Hc2, Hc1, app_nil_r, <- !app_assoc. done.
Qed.

(** C1. An epoch that completes issued, in this order: for each of the
    [num_batches] iterations of the batch loop the fixed sequence
    [generator.predict], [discriminator.train_on_batch] (on the real batch
    followed by the images that predict returned), [combined.train_on_batch];
    then, once, [generator.predict], [discriminator.evaluate] on the test
    images followed by generated ones, [combined.evaluate] on
    [2 * num_test] fresh latent/label pairs, and [discriminator.predict] on
    the test images; then the calls of the checkpoint on epochs that are
    multiples of 50. The updates of the epoch are therefore
    discriminator, generator (combined), discriminator, generator, ...: one
    of each per batch. *)
Theorem training_step_sequence p x_train y_train x_test y_test run_path epoch
    (th teh : history) w (th' teh' : history) w' :
  train_epoch p x_train y_train x_test y_test run_path epoch (th, teh, w)
    = Some (th', teh', w') →
  ∃ num_batches batches tcs ccs,
    int_div (length x_train) (batch_size p) = Some num_batches ∧
    w_calls w' = w_calls w ++ mjoin batches ++ tcs ++ ccs ∧
    length batches = num_batches ∧
    (∀ index cs, batches !! index = Some cs → batch_calls p x_train y_train index cs) ∧
    call_method <$> mjoin batches
      = mjoin (replicate num_batches
                 [(generator, predict); (discriminator, train_on_batch);
                  (combined, train_on_batch)]) ∧
    test_calls p x_test y_test tcs ∧
    call_method <$> tcs
      = [(generator, predict); (discriminator, evaluate); (combined, evaluate);
         (discriminator, predict)] ∧
    call_method <$> ccs
      = (if epoch mod 50 =? 0
         then [(generator, save_weights); (discriminator, save_weights);
               (generator, predict)]
         else []) ∧
    updates (mjoin batches ++ tcs ++ ccs)
      = mjoin (replicate num_batches [discriminator; combined]).
Proof.
  intros (nb & batches & tcs & ccs & Hnb & Hcalls & Hlen & Hb & Htcs & Hccs)%train_epoch_calls.
  exists nb, batches, tcs, ccs.
  destruct (batches_calls p x_train y_train batches 0 Hb) as (Hm & Hu & _).
  destruct (test_calls_methods _ _ _ _ Htcs) as (Hmt & Hut & _).
  rewrite Hlen in Hm, Hu.
  assert (call_method <$> ccs
          = (if epoch mod 50 =? 0
             then [(generator, save_weights); (discriminator, save_weights);
                   (generator, predict)]
             else []) ∧ updates ccs = []) as [Hmc Huc].
  { destruct (epoch mod 50 =? 0).
    - destruct Hccs as (? & ? & ? & ? & ->). done.
    - by subst ccs. }
  split_and!; try done.
  rewrite !updates_app, Hu, Hut, Huc, !app_nil_r. done.
Qed.

(** *** Batches of the training set *)

Lemma int_div_Some a b n : int_div a b = Some n → b ≠ 0 ∧ n = a / b ∧ n * b ≤ a.
Proof.
  unfold int_div. case_decide as Hb; [done|]. intros [= <-].
  split; [done|]. split; [done|]. rewrite Nat.mul_comm. apply Nat.Div0.mul_div_le.
Qed.

Lemma slice_length {A} (a : list A) (index size n : nat) :
  n * size ≤ length a → index < n →
  length (np.slice a (index * size) ((index + 1) * size)) = size.
Proof.
  intros Hn Hi. unfold np.slice. rewrite length_take, length_drop. nia.
Qed.

Lemma slices_join {A} (a : list A) (size n : nat) :
  mjoin ((λ i, np.slice a (i * size) ((i + 1) * size)) <$> seq 0 n) = take (n * size) a.
Proof.
  induction n as [|n IH]; [done|].
  rewrite seq_S, fmap_app, join_app, IH. simpl. rewrite app_nil_r.
  unfold np.slice. rewrite take_take_drop. f_equal; lia.
Qed.

Lemma slice_lookup {A} (a : list A) (lo n k : nat) :
  k < n → np.slice a lo (lo + n) !! k = a !! (lo + k).
Proof.
  intros Hk. unfold np.slice.
  replace (lo + n - lo) with n by lia.
  by rewrite lookup_take_lt, lookup_drop.
Qed.

Lemma zip_labelled_n {A B} (l1 l2 : list A) (c1 c2 : B) (n m : nat) :
  length l1 = n → length l2 = m →
  zip (l1 ++ l2) (replicate n c1 ++ replicate m c2)
  = ((λ x, (x, c1)) <$> l1) ++ ((λ x, (x, c2)) <$> l2).
Proof. intros <- <-. apply zip_labelled. Qed.

Lemma discriminator_updates_join (batches : list (list call)) :
  discriminator_updates (mjoin batches) = mjoin (discriminator_updates <$> batches).
Proof.
  induction batches as [|cs batches IH]; [done|].
  change (discriminator_updates (cs ++ mjoin batches)
          = discriminator_updates cs ++ mjoin (discriminator_updates <$> batches)).
  by rewrite discriminator_updates_app, IH.
Qed.

Lemma disc_sample_weight_eq p :
  disc_sample_weight p
  = (replicate (2 * batch_size p) 1%Q,
     replicate (batch_size p) 2%Q ++ replicate (batch_size p) 0%Q).
Proof.
  unfold disc_sample_weight, np.concatenate. by rewrite scale_ones.
Qed.

Lemma for_each_app {A S} (xs ys : list A) (body : A → S → option S) (s : S) :
  for_each (xs ++ ys) body s = for_each xs body s ≫= for_each ys body.
Proof.
  revert s. induction xs as [|x xs IH]; intros s; simpl; [done|].
  destruct (body x s) as [s'|]; simpl; [apply IH|done].
Qed.

Lemma mean_axis0_vec3 (a : list losses) v :
  mean_axis0 a = vec3 v →
  0 < length a ∧
  ∃ l g c, sum_axis0 a = (l, g, c) ∧
    v = (l / inject_Z (Z.of_nat (length a)),
         g / inject_Z (Z.of_nat (length a)),
         c / inject_Z (Z.of_nat (length a)))%Q.
Proof.
  destruct a as [|x a]; [done|]. unfold mean_axis0.
  destruct (sum_axis0 (x :: a)) as [[l g] c]. intros [= <-].
  split; [simpl; lia|]. by exists l, g, c.
Qed.

(** *** The iterations of the batch loop, state by state *)

(** What one iteration does, in terms of the state it starts in. *)
Lemma train_batch_trace p x_train y_train index gl dl w gl' dl' w' :
  train_batch p x_train y_train index (gl, dl, w) = Some (gl', dl', w') →
  let noise := (random_uniform (w_rng w) (batch_size p) (latent_size p)).1 in
  let g1 := (random_uniform (w_rng w) (batch_size p) (latent_size p)).2 in
  let sampled_labels := (random_randint g1 0 (Z.of_nat num_classes) (batch_size p)).1 in
  let g2 := (random_randint g1 0 (Z.of_nat num_classes) (batch_size p)).2 in
  let generated_images :=
    keras_generator_predict (w_session w) noise (reshape_col sampled_labels) in
  let image_batch := np.slice x_train (index * batch_size p) ((index + 1) * batch_size p) in
  let label_batch := np.slice y_train (index * batch_size p) ((index + 1) * batch_size p) in
  let x := Images (image_batch ++ generated_images) in
  let y := (replicate (batch_size p) soft_one ++ replicate (batch_size p) soft_zero,
            label_batch ++ as_float sampled_labels) in
  let noise2 := (random_uniform g2 (2 * batch_size p) (latent_size p)).1 in
  let g3 := (random_uniform g2 (2 * batch_size p) (latent_size p)).2 in
  let sampled_labels2 :=
    (random_randint g3 0 (Z.of_nat num_classes) (2 * batch_size p)).1 in
  let x2 := LatentClass noise2 (reshape_col sampled_labels2) in
  let y2 := (replicate (2 * batch_size p) soft_one, as_float sampled_labels2) in
  ∃ cd cc,
    w_collected w discriminator = Some cd ∧
    w_collected w combined = Some cc ∧
    let d := keras_train_on_batch discriminator cd (w_session w) x y
               (Some (disc_sample_weight p)) in
    let c := keras_train_on_batch combined cc d.1 x2 y2 None in
    w_calls w'
    = w_calls w ++ [ Predict generator (LatentClass noise (reshape_col sampled_labels));
                     TrainOnBatch discriminator x y (Some (disc_sample_weight p));
                     TrainOnBatch combined x2 y2 None ] ∧
    dl' = dl ++ [d.2] ∧ gl' = gl ++ [c.2] ∧ w_session w' = c.1.
Proof.
  unfold train_batch, np_random_uniform, np_random_randint, generator_predict,
    model_train_on_batch.
  destruct (random_uniform (w_rng w) _ _) as [noise g1] eqn:E1. simpl.
  destruct (random_randint g1 _ _ _) as [labels g2] eqn:E2. simpl.
  destruct (w_collected w discriminator) as [cd|] eqn:Ecd; [|done]. simpl.
  destruct (keras_train_on_batch discriminator cd _ _ _ _) as [s1 l1] eqn:E3. simpl.
  destruct (random_uniform g2 _ _) as [noise2 g3] eqn:E4. simpl.
  destruct (random_randint g3 _ _ _) as [labels2 g4] eqn:E5. simpl.
  destruct (w_collected w combined) as [cc|] eqn:Ecc; [|done]. simpl.
  destruct (keras_train_on_batch combined cc _ _ _ _) as [s2 l2] eqn:E6. simpl.
  intros [= <- <- <-]. exists cd, cc. split; [done|]. split; [done|].
  unfold np.concatenate in *. rewrite scale_ones in E6.
  rewrite E3. simpl. rewrite E6. simpl. rewrite <- !app_assoc, scale_ones. done.
Qed.

Lemma for_each_seq_S {S} (body : nat → S → option S) (n : nat) (s : S) :
  for_each (seq 0 (Datatypes.S n)) body s = for_each (seq 0 n) body s ≫= body n.
Proof.
  rewrite seq_S, for_each_app. simpl.
  destruct (for_each (seq 0 n) body s) as [s'|]; simpl; [|done].
  by destruct (body n s').
Qed.

(** The batch loop, iteration by iteration: the state each iteration starts
    in, what it appends to the log and to the two lists of losses. *)
Lemma batch_loop_trace p x_train y_train w n :
  ∀ gl dl w',
    for_each (seq 0 n) (train_batch p x_train y_train) ([], [], w) = Some (gl, dl, w') →
    length gl = n ∧ length dl = n ∧
    ∃ batches, length batches = n ∧ w_calls w' = w_calls w ++ mjoin batches ∧
      ∀ index cs, batches !! index = Some cs →
        ∃ gl_i dl_i w_i gl_j dl_j w_j l_d l_g,
          for_each (seq 0 index) (train_batch p x_train y_train) ([], [], w)
            = Some (gl_i, dl_i, w_i) ∧
          train_batch p x_train y_train index (gl_i, dl_i, w_i) = Some (gl_j, dl_j, w_j) ∧
          w_calls w_j = w_calls w_i ++ cs ∧
          dl_j = dl_i ++ [l_d] ∧ gl_j = gl_i ++ [l_g] ∧
          dl !! index = Some l_d ∧ gl !! index = Some l_g.
Proof.
  induction n as [|n IH]; intros gl dl w' Hloop.
  - injection Hloop as <- <- <-. split; [done|]. split; [done|].
    exists []. split; [done|]. split; [by rewrite app_nil_r|]. done.
  - rewrite for_each_seq_S in Hloop.
    destruct (for_each (seq 0 n) _ _) as [[[gl0 dl0] w0]|] eqn:Hprefix; [|done].
    simpl in Hloop.
    destruct (IH _ _ _ eq_refl) as (Hgl & Hdl & batches & Hlen & Hcalls & Hall).
    pose proof (train_batch_trace _ _ _ _ _ _ _ _ _ _ Hloop) as Ht. cbv zeta in Ht.
    destruct Ht as (cd & cc & _ & _ & Hc & -> & -> & _).
    split; [rewrite length_app, Hgl; simpl; lia|].
    split; [rewrite length_app, Hdl; simpl; lia|].
    eexists (batches ++ [_]). split; [rewrite length_app, Hlen; simpl; lia|].
    split.
    { rewrite Hc, Hcalls, join_app, <- app_assoc. simpl. by rewrite app_nil_r. }
    intros index cs [Hi|[Hi Hcs]]%lookup_app_Some.
    + destruct (Hall _ _ Hi)
        as (gl_i & dl_i & w_i & gl_j & dl_j & w_j & l_d & l_g
            & Hp & Hb & Hcj & Hdj & Hgj & Hd & Hg).
      exists gl_i, dl_i, w_i, gl_j, dl_j, w_j, l_d, l_g.
      split_and!; try done.
      * by apply lookup_app_l_Some.
      * by apply lookup_app_l_Some.
    + rewrite Hlen in Hi, Hcs.
      assert (index = n) as ->.
      { apply lookup_lt_Some in Hcs. simpl in Hcs. lia. }
      rewrite Nat.sub_diag in Hcs. injection Hcs as <-.
      eexists gl0, dl0, w0, _, _, w', _, _.
      split; [exact Hprefix|]. split; [exact Hloop|].
      split; [exact Hc|]. split; [done|]. split; [done|].
      split.
      * rewrite lookup_app_r by lia. by rewrite Hdl, Nat.sub_diag.
      * rewrite lookup_app_r by lia. by rewrite Hgl, Nat.sub_diag.
Qed.

(** A completed epoch: its batch loop, then calls that update nothing. *)
Lemma train_epoch_trace p x_train y_train x_test y_test run_path epoch
    (th teh : history) w (th' teh' : history) w' :
  train_epoch p x_train y_train x_test y_test run_path epoch (th, teh, w)
    = Some (th', teh', w') →
  ∃ gl dl w1 rest,
    batch_size p ≠ 0 ∧
    for_each (seq 0 (length x_train / batch_size p)) (train_batch p x_train y_train)
             ([], [], w) = Some (gl, dl, w1) ∧
    w_calls w' = w_calls w1 ++ rest ∧
    updates rest = [] ∧ discriminator_updates rest = [] ∧
    th' = history_append "discriminator" (mean_axis0 dl)
            (history_append "generator" (mean_axis0 gl) th) ∧
    0 < length x_train / batch_size p.
Proof.
  intros (nb & gl & dl & w1 & w2 & tcs & gtl & dtl & acc & Hnb & Hloop & Htcs & Hc2
          & _ & _ & _ & Hth & _ & [gm Hgm] & _ & Hck)%train_epoch_Some.
  apply int_div_Some in Hnb as (Hbs & -> & _).
  destruct (batch_loop_trace _ _ _ _ _ _ _ _ Hloop) as (Hgl & _).
  destruct (test_calls_methods _ _ _ _ Htcs) as (_ & Hut & Hdt).
  assert (∃ ccs, w_calls w' = w_calls w2 ++ ccs ∧ updates ccs = []
                 ∧ discriminator_updates ccs = []) as (ccs & Hc3 & Huc & Hdc).
  { destruct (epoch mod 50 =? 0).
    - apply checkpoint_Some in Hck
        as (_ & shown & noise & labels & _ & _ & _ & _ & _ & _ & Hc3).
      eexists. split; [exact Hc3|]. done.
    - subst w'. exists []. by rewrite app_nil_r. }
  exists gl, dl, w1, (tcs ++ ccs). split_and!; try done.
  - by rewrite Hc3, Hc2, <- !app_assoc.
  - by rewrite updates_app, Hut, Huc.
  - by rewrite discriminator_updates_app, Hdt, Hdc.
  - apply mean_axis0_vec3 in Hgm as [Hpos _]. lia.
Qed.

(** The iterations of a completed epoch, each with the state it starts in:
    its three calls and the two losses it records. *)
Lemma train_epoch_iterations p x_train y_train x_test y_test run_path epoch
    (th teh : history) w (th' teh' : history) w' :
  train_epoch p x_train y_train x_test y_test run_path epoch (th, teh, w)
    = Some (th', teh', w') →
  ∃ gl dl batches rest,
    batch_size p ≠ 0 ∧ 0 < length x_train / batch_size p ∧
    length batches = length x_train / batch_size p ∧
    length gl = length x_train / batch_size p ∧
    length dl = length x_train / batch_size p ∧
    w_calls w' = w_calls w ++ mjoin batches ++ rest ∧
    updates rest = [] ∧ discriminator_updates rest = [] ∧
    th' = history_append "discriminator" (mean_axis0 dl)
            (history_append "generator" (mean_axis0 gl) th) ∧
    ∀ index cs, batches !! index = Some cs →
      ∃ gl_i dl_i w_i cd cc,
        for_each (seq 0 index) (train_batch p x_train y_train) ([], [], w)
          = Some (gl_i, dl_i, w_i) ∧
        w_collected w_i discriminator = Some cd ∧
        w_collected w_i combined = Some cc ∧
        let noise := (random_uniform (w_rng w_i) (batch_size p) (latent_size p)).1 in
        let g1 := (random_uniform (w_rng w_i) (batch_size p) (latent_size p)).2 in
        let sampled_labels :=
          (random_randint g1 0 (Z.of_nat num_classes) (batch_size p)).1 in
        let g2 := (random_randint g1 0 (Z.of_nat num_classes) (batch_size p)).2 in
        let generated_images :=
          keras_generator_predict (w_session w_i) noise (reshape_col sampled_labels) in
        let image_batch :=
          np.slice x_train (index * batch_size p) ((index + 1) * batch_size p) in
        let label_batch :=
          np.slice y_train (index * batch_size p) ((index + 1) * batch_size p) in
        let x := Images (image_batch ++ generated_images) in
        let y := (replicate (batch_size p) soft_one ++ replicate (batch_size p) soft_zero,
                  label_batch ++ as_float sampled_labels) in
        let noise2 := (random_uniform g2 (2 * batch_size p) (latent_size p)).1 in
        let g3 := (random_uniform g2 (2 * batch_size p) (latent_size p)).2 in
        let sampled_labels2 :=
          (random_randint g3 0 (Z.of_nat num_classes) (2 * batch_size p)).1 in
        let x2 := LatentClass noise2 (reshape_col sampled_labels2) in
        let y2 := (replicate (2 * batch_size p) soft_one, as_float sampled_labels2) in
        let d := keras_train_on_batch discriminator cd (w_session w_i) x y
                   (Some (disc_sample_weight p)) in
        let c := keras_train_on_batch combined cc d.1 x2 y2 None in
        cs = [ Predict generator (LatentClass noise (reshape_col sampled_labels));
               TrainOnBatch discriminator x y (Some (disc_sample_weight p));
               TrainOnBatch combined x2 y2 None ] ∧
        dl !! index = Some d.2 ∧ gl !! index = Some c.2.
Proof.
  intros (gl & dl & w1 & rest & Hbs & Hloop & Hcalls & Hu & Hd & Hth
          & Hpos)%train_epoch_trace.
  destruct (batch_loop_trace _ _ _ _ _ _ _ _ Hloop)
    as (Hgl & Hdl & batches & Hlen & Hc1 & Hall).
  exists gl, dl, batches, rest. split_and!; try done.
  { by rewrite Hcalls, Hc1, <- app_assoc. }
  intros index cs Hcs.
  destruct (Hall _ _ Hcs)
    as (gl_i & dl_i & w_i & gl_j & dl_j & w_j & l_d & l_g
        & Hp & Hb & Hcj & -> & -> & Hdi & Hgi).
  pose proof (train_batch_trace _ _ _ _ _ _ _ _ _ _ Hb) as Ht. cbv zeta in Ht.
  destruct Ht as (cd & cc & Hcd & Hcc & Hc & Hdl' & Hgl' & _).
  exists gl_i, dl_i, w_i, cd, cc. split; [done|]. split; [done|]. split; [done|].
  cbv zeta. rewrite Hcj in Hc. apply app_inv_head in Hc.
  apply app_inj_tail in Hdl' as [_ <-]. apply app_inj_tail in Hgl' as [_ <-].
  done.
Qed.

(** C3. In a completed epoch, [batches] lists the calls of the iterations
    of the batch loop, in order, and no model is updated after them. In
    every iteration the discriminator update is given the [batch_size] real
    images [x_train[index * batch_size : (index + 1) * batch_size]] followed
    by the [batch_size] images that [generator.predict] returned in this
    iteration, and its generation target pairs each of these real images
    with 0.95 ([soft_one]) and each generated image with exactly 0
    ([soft_zero]: the fake side is not smoothed). The generator update
    (through the combined model) is given [2 * batch_size] latent rows and
    the generation target 0.95 for each of them. *)
Theorem one_sided_soft_labels `{!RandomOk} `{!KerasOk}
    p x_train y_train x_test y_test run_path epoch
    (th teh : history) w (th' teh' : history) w' :
  train_epoch p x_train y_train x_test y_test run_path epoch (th, teh, w)
    = Some (th', teh', w') →
  ∃ batches rest,
    w_calls w' = w_calls w ++ mjoin batches ++ rest ∧
    length batches = length x_train / batch_size p ∧
    updates rest = [] ∧
    ∀ index cs, batches !! index = Some cs →
      ∃ gl_i dl_i w_i sampled_labels aux_y sw noise2 image_class2 aux_y2,
        for_each (seq 0 index) (train_batch p x_train y_train) ([], [], w)
          = Some (gl_i, dl_i, w_i) ∧
        let noise := (random_uniform (w_rng w_i) (batch_size p) (latent_size p)).1 in
        let image_batch :=
          np.slice x_train (index * batch_size p) ((index + 1) * batch_size p) in
        let generated_images :=
          keras_generator_predict (w_session w_i) noise (reshape_col sampled_labels) in
        let y := replicate (batch_size p) 0.95%Q ++ replicate (batch_size p) 0%Q in
        cs = [ Predict generator (LatentClass noise (reshape_col sampled_labels));
               TrainOnBatch discriminator (Images (image_batch ++ generated_images))
                 (y, aux_y) sw;
               TrainOnBatch combined (LatentClass noise2 image_class2)
                 (replicate (2 * batch_size p) 0.95%Q, aux_y2) None ] ∧
        length image_batch = batch_size p ∧
        length generated_images = batch_size p ∧
        length noise2 = 2 * batch_size p ∧
        zip (image_batch ++ generated_images) y
        = ((λ img, (img, 0.95%Q)) <$> image_batch)
          ++ ((λ img, (img, 0%Q)) <$> generated_images).
Proof.
  intros (gl & dl & batches & rest & Hbs & Hpos & Hlen & _ & _ & Hcalls & Hu & _ & _
          & Hall)%train_epoch_iterations.
  exists batches, rest. split; [done|]. split; [done|]. split; [done|].
  intros index cs Hcs.
  pose proof (lookup_lt_Some _ _ _ Hcs) as Hlt. rewrite Hlen in Hlt.
  destruct (Hall _ _ Hcs) as (gl_i & dl_i & w_i & cd & cc & Hp & _ & _ & Hc).
  cbv zeta in Hc. destruct Hc as (-> & _ & _).
  eexists gl_i, dl_i, w_i, _, _, _, _, _, _. split; [exact Hp|]. cbv zeta.
  split; [reflexivity|].
  assert (length (np.slice x_train (index * batch_size p) ((index + 1) * batch_size p))
          = batch_size p) as Hr.
  { apply slice_length with (n := length x_train / batch_size p); [|done].
    rewrite Nat.mul_comm. apply Nat.Div0.mul_div_le. }
  assert (∀ s l, length (keras_generator_predict s
                   (random_uniform (w_rng w_i) (batch_size p) (latent_size p)).1 l)
                 = batch_size p) as Hf.
  { intros s l. by rewrite keras_generator_predict_length, random_uniform_length. }
  split; [done|]. split; [apply Hf|]. split; [apply random_uniform_length|].
  apply zip_labelled_n; [done|apply Hf].
Qed.

(** C4. In every iteration of the batch loop of a completed epoch the
    discriminator update is given, as sample weights, 1 for each of its
    [2 * batch_size] samples for the generation output and, for the
    auxiliary output, 2 for each of the [batch_size] real images
    [x_train[index * batch_size : (index + 1) * batch_size]] and 0 for each
    of the [batch_size] images that [generator.predict] returned in this
    iteration. The auxiliary weights of the update add up to
    [2 * batch_size], the number of its samples, as its generation weights
    do. *)
Theorem discriminator_sample_weights `{!RandomOk} `{!KerasOk}
    p x_train y_train x_test y_test run_path epoch
    (th teh : history) w (th' teh' : history) w' :
  train_epoch p x_train y_train x_test y_test run_path epoch (th, teh, w)
    = Some (th', teh', w') →
  ∃ batches rest,
    w_calls w' = w_calls w ++ mjoin batches ++ rest ∧
    length batches = length x_train / batch_size p ∧
    updates rest = [] ∧
    ∀ index cs, batches !! index = Some cs →
      ∃ gl_i dl_i w_i sampled_labels y x2 y2,
        for_each (seq 0 index) (train_batch p x_train y_train) ([], [], w)
          = Some (gl_i, dl_i, w_i) ∧
        let noise := (random_uniform (w_rng w_i) (batch_size p) (latent_size p)).1 in
        let image_batch :=
          np.slice x_train (index * batch_size p) ((index + 1) * batch_size p) in
        let generated_images :=
          keras_generator_predict (w_session w_i) noise (reshape_col sampled_labels) in
        let generation_weight := replicate (2 * batch_size p) 1%Q in
        let auxiliary_weight :=
          replicate (batch_size p) 2%Q ++ replicate (batch_size p) 0%Q in
        cs = [ Predict generator (LatentClass noise (reshape_col sampled_labels));
               TrainOnBatch discriminator (Images (image_batch ++ generated_images)) y
                 (Some (generation_weight, auxiliary_weight));
               TrainOnBatch combined x2 y2 None ] ∧
        disc_sample_weight p = (generation_weight, auxiliary_weight) ∧
        length image_batch = batch_size p ∧
        length generated_images = batch_size p ∧
        zip (image_batch ++ generated_images) generation_weight
        = (λ img, (img, 1%Q)) <$> (image_batch ++ generated_images) ∧
        zip (image_batch ++ generated_images) auxiliary_weight
        = ((λ img, (img, 2%Q)) <$> image_batch)
          ++ ((λ img, (img, 0%Q)) <$> generated_images) ∧
        (foldr Qplus 0 generation_weight == inject_Z (Z.of_nat (2 * batch_size p)))%Q ∧
        (foldr Qplus 0 auxiliary_weight == inject_Z (Z.of_nat (2 * batch_size p)))%Q.
Proof.
  intros (gl & dl & batches & rest & Hbs & Hpos & Hlen & _ & _ & Hcalls & Hu & _ & _
          & Hall)%train_epoch_iterations.
  exists batches, rest. split; [done|]. split; [done|]. split; [done|].
  intros index cs Hcs.
  pose proof (lookup_lt_Some _ _ _ Hcs) as Hlt. rewrite Hlen in Hlt.
  destruct (Hall _ _ Hcs) as (gl_i & dl_i & w_i & cd & cc & Hp & _ & _ & Hc).
  cbv zeta in Hc. destruct Hc as (-> & _ & _).
  eexists gl_i, dl_i, w_i, _, _, _, _. split; [exact Hp|]. cbv zeta.
  rewrite disc_sample_weight_eq. split; [reflexivity|]. split; [reflexivity|].
  assert (length (np.slice x_train (index * batch_size p) ((index + 1) * batch_size p))
          = batch_size p) as Hr.
  { apply slice_length with (n := length x_train / batch_size p); [|done].
    rewrite Nat.mul_comm. apply Nat.Div0.mul_div_le. }
  assert (∀ s l, length (keras_generator_predict s
                   (random_uniform (w_rng w_i) (batch_size p) (latent_size p)).1 l)
                 = batch_size p) as Hf.
  { intros s l. by rewrite keras_generator_predict_length, random_uniform_length. }
  split; [done|]. split; [apply Hf|]. split_and!.
  - rewrite <- (zip_replicate_r _ 1%Q). do 2 f_equal. rewrite length_app, Hr, Hf. lia.
  - apply zip_labelled_n; [done|apply Hf].
  - change (np.sum (replicate (2 * batch_size p) 1)
            == inject_Z (Z.of_nat (2 * batch_size p)))%Q.
    rewrite sum_replicate. ring.
  - change (np.sum (replicate (batch_size p) 2 ++ replicate (batch_size p) 0)
            == inject_Z (Z.of_nat (2 * batch_size p)))%Q.
    rewrite sum_app, !sum_replicate, Nat2Z.inj_mul, inject_Z_mult. simpl. ring.
Qed.

(** C10. A completed epoch runs [num_train / batch_size] (rounded down)
    iterations of the batch loop and updates the discriminator once in each
    and nowhere else. The update of iteration [index] is given exactly the
    [batch_size] training images at the positions [index * batch_size + k],
    [k < batch_size], followed by the images that [generator.predict]
    returned in this iteration, and nothing more. Put end to end the real
    parts are the first [num_batches * batch_size] images of [x_train]; the
    [num_train mod batch_size] positions after them are the position of no
    image given to an update. *)
Theorem batches_cover_prefix
    p x_train y_train x_test y_test run_path epoch
    (th teh : history) w (th' teh' : history) w' :
  train_epoch p x_train y_train x_test y_test run_path epoch (th, teh, w)
    = Some (th', teh', w') →
  ∃ num_batches batches rest,
    batch_size p ≠ 0 ∧
    num_batches = length x_train / batch_size p ∧
    w_calls w' = w_calls w ++ mjoin batches ++ rest ∧
    length batches = num_batches ∧
    discriminator_updates rest = [] ∧
    discriminator_updates (mjoin batches ++ rest)
    = mjoin (discriminator_updates <$> batches) ∧
    (∀ index cs, batches !! index = Some cs →
       ∃ gl_i dl_i w_i sampled_labels y sw x2 y2,
         for_each (seq 0 index) (train_batch p x_train y_train) ([], [], w)
           = Some (gl_i, dl_i, w_i) ∧
         let noise := (random_uniform (w_rng w_i) (batch_size p) (latent_size p)).1 in
         let image_batch :=
           np.slice x_train (index * batch_size p) ((index + 1) * batch_size p) in
         let generated_images :=
           keras_generator_predict (w_session w_i) noise (reshape_col sampled_labels) in
         cs = [ Predict generator (LatentClass noise (reshape_col sampled_labels));
                TrainOnBatch discriminator (Images (image_batch ++ generated_images)) y sw;
                TrainOnBatch combined x2 y2 None ] ∧
         discriminator_updates cs = [image_batch ++ generated_images] ∧
         length image_batch = batch_size p ∧
         ∀ k, k < batch_size p →
              image_batch !! k = x_train !! (index * batch_size p + k)) ∧
    let slices :=
      (λ index, np.slice x_train (index * batch_size p) ((index + 1) * batch_size p))
        <$> seq 0 num_batches in
    mjoin slices = take (num_batches * batch_size p) x_train ∧
    x_train = mjoin slices ++ drop (num_batches * batch_size p) x_train ∧
    length (drop (num_batches * batch_size p) x_train) = length x_train mod batch_size p ∧
    ∀ j, num_batches * batch_size p ≤ j →
         ∀ index k, index < num_batches → k < batch_size p →
                    index * batch_size p + k ≠ j.
Proof.
  intros (gl & dl & batches & rest & Hbs & Hpos & Hlen & _ & _ & Hcalls & _ & Hd & _
          & Hall)%train_epoch_iterations.
  exists (length x_train / batch_size p), batches, rest.
  split; [done|]. split; [done|]. split; [done|]. split; [done|]. split; [done|].
  split.
  { by rewrite discriminator_updates_app, Hd, app_nil_r, discriminator_updates_join. }
  split.
  { intros index cs Hcs.
    pose proof (lookup_lt_Some _ _ _ Hcs) as Hlt. rewrite Hlen in Hlt.
    destruct (Hall _ _ Hcs) as (gl_i & dl_i & w_i & cd & cc & Hp & _ & _ & Hc).
    cbv zeta in Hc. destruct Hc as (-> & _ & _).
    eexists gl_i, dl_i, w_i, _, _, _, _, _. split; [exact Hp|]. cbv zeta.
    split; [reflexivity|]. split; [reflexivity|].
    split.
    { apply slice_length with (n := length x_train / batch_size p); [|done].
      rewrite Nat.mul_comm. apply Nat.Div0.mul_div_le. }
    intros k Hk.
    replace ((index + 1) * batch_size p) with (index * batch_size p + batch_size p) by lia.
    by apply slice_lookup. }
  cbv zeta. rewrite slices_join. split; [done|]. split; [by rewrite take_drop|].
  split.
  { rewrite length_drop, Nat.Div0.mod_eq. lia. }
  intros j Hj index k Hi Hk. nia.
Qed.

(** *** Checkpoints *)

(** What an epoch that completes did to the disk. *)
Lemma train_epoch_disk p x_train y_train x_test y_test run_path epoch
    (th teh : history) w (th' teh' : history) w' :
  train_epoch p x_train y_train x_test y_test run_path epoch (th, teh, w)
    = Some (th', teh', w') →
  let gen_file :=
    os_path_join run_path ("params_generator_epoch_" +:+ format_0d 6 epoch +:+ ".hdf5") in
  let disc_file :=
    os_path_join run_path
      ("params_discriminator_epoch_" +:+ format_0d 6 epoch +:+ ".hdf5") in
  let history_file := os_path_join run_path "acgan-history.pkl" in
  let plot_file :=
    os_path_join run_path ("plot_epoch_" +:+ format_0d 3 epoch +:+ "_generated.png") in
  (epoch mod 50 ≠ 0 → same_disk w w') ∧
  (epoch mod 50 = 0 →
     run_path ∈ w_dirs w ∧
     w_dirs w' = w_dirs w ∧
     w_written w' = w_written w ++ [gen_file; disc_file; history_file; plot_file] ∧
     ∃ shown,
       length shown = 30 ∧
       w_files w' =
         <[plot_file := png shown]>
           (<[history_file :=
                pickle {[ "train"%string := th'; "test"%string := teh' ]}]>
              (<[disc_file := hdf5 [get_weights (w_session w') D]]>
                 (<[gen_file := hdf5 [get_weights (w_session w') G]]> (w_files w))))).
Proof.
  intros (nb & gl & dl & w1 & w2 & tcs & gtl & dtl & acc & _ & Hloop & _ & _
          & Hs2 & _ & Hd2 & _ & _ & _ & _ & Hck)%train_epoch_Some.
  apply batch_loop_Some in Hloop as (_ & _ & _ & _ & _ & _ & _ & Hd1).
  pose proof (same_disk_trans _ _ _ Hd1 Hd2) as (Hdirs & Hfiles & Hwritten).
  intros gen_file disc_file history_file plot_file. split.
  - intros Hmod. apply Nat.eqb_neq in Hmod. rewrite Hmod in Hck. by subst w'.
  - intros Hmod. apply Nat.eqb_eq in Hmod. rewrite Hmod in Hck.
    apply checkpoint_Some in Hck
      as (Hdir & shown & noise & labels & Hlen & Hf & Hw & Hdr & Hs & _ & _).
    rewrite Hdirs in Hdir, Hdr. rewrite Hfiles in Hf. rewrite Hwritten in Hw.
    split; [done|]. split; [done|]. split; [done|].
    exists shown. split; [done|]. by rewrite Hs.
Qed.

(** C5. An epoch of a run that completes wrote files if and only if its
    number is a multiple of 50. If it is not, the epoch wrote nothing: the
    directories, the files and the list of paths written are what they were
    before it. If it is, the epoch wrote, into the run directory and in this
    order, the generator's weights, the discriminator's weights, the pickled
    train and test histories (this epoch's entries included) and the plot of
    thirty generated images, and nothing else. *)
Theorem checkpoint_every_50_epochs
    p x_train y_train x_test y_test run_path epoch (th teh : history) w
    (th' teh' : history) w' :
  train_epoch p x_train y_train x_test y_test run_path epoch (th, teh, w)
    = Some (th', teh', w') →
  let gen_file :=
    os_path_join run_path
      ("params_generator_epoch_" +:+ format_0d 6 epoch +:+ ".hdf5") in
  let disc_file :=
    os_path_join run_path
      ("params_discriminator_epoch_" +:+ format_0d 6 epoch +:+ ".hdf5") in
  let history_file := os_path_join run_path "acgan-history.pkl" in
  let plot_file :=
    os_path_join run_path ("plot_epoch_" +:+ format_0d 3 epoch +:+ "_generated.png") in
  (epoch mod 50 ≠ 0 →
     w_dirs w' = w_dirs w ∧ w_files w' = w_files w ∧ w_written w' = w_written w) ∧
  (epoch mod 50 = 0 →
     run_path ∈ w_dirs w ∧
     w_dirs w' = w_dirs w ∧
     w_written w' = w_written w ++ [gen_file; disc_file; history_file; plot_file] ∧
     ∃ shown,
       length shown = 30 ∧
       w_files w' =
         <[plot_file := png shown]>
           (<[history_file :=
                pickle {[ "train"%string := th'; "test"%string := teh' ]}]>
              (<[disc_file := hdf5 [get_weights (w_session w') D]]>
                 (<[gen_file := hdf5 [get_weights (w_session w') G]]> (w_files w))))) ∧
  (w_written w' ≠ w_written w ↔ epoch mod 50 = 0).
Proof.
  intros He gen_file disc_file history_file plot_file.
  destruct (train_epoch_disk _ _ _ _ _ _ _ _ _ _ _ _ _ He) as [Hne Heq].
  split; [|split; [done|]].
  - intros Hmod. destruct (Hne Hmod) as (Hd & Hf & Hw). done.
  - split.
    + intros Hw. destruct (decide (epoch mod 50 = 0)) as [|Hmod]; [done|].
      destruct (Hne Hmod) as (_ & _ & Hs). done.
    + intros Hmod. destruct (Heq Hmod) as (_ & _ & -> & _).
      intros Heq'. apply (f_equal length) in Heq'. rewrite length_app in Heq'.
      simpl in Heq'. lia.
Qed.

(** *** Histories *)

Lemma run_epochs_S p x_train y_train x_test y_test run_path E w :
  run_epochs p x_train y_train x_test y_test run_path (S E) w
  = run_epochs p x_train y_train x_test y_test run_path E w
    ≫= train_epoch p x_train y_train x_test y_test run_path (S E).
Proof.
  unfold run_epochs. rewrite seq_S, for_each_app. simpl.
  destruct (for_each (seq 1 E) _ _) as [st|]; simpl; [|done].
  by destruct (train_epoch _ _ _ _ _ _ _ st).
Qed.

(** What one epoch appends to the histories. *)
Lemma train_epoch_histories p x_train y_train x_test y_test run_path epoch
    (th teh : history) w (th' teh' : history) w' :
  train_epoch p x_train y_train x_test y_test run_path epoch (th, teh, w)
    = Some (th', teh', w') →
  ∃ num_batches gl dl w1 gm dm gtl dtl acc,
    int_div (length x_train) (batch_size p) = Some num_batches ∧
    for_each (seq 0 num_batches) (train_batch p x_train y_train) ([], [], w)
      = Some (gl, dl, w1) ∧
    length gl = num_batches ∧ length dl = num_batches ∧
    mean_axis0 gl = vec3 gm ∧ mean_axis0 dl = vec3 dm ∧
    history_get "generator" th' = history_get "generator" th ++ [vec3 gm] ∧
    history_get "discriminator" th' = history_get "discriminator" th ++ [vec3 dm] ∧
    history_get "generator" teh' = history_get "generator" teh ++ [vec3 gtl] ∧
    history_get "discriminator" teh' = history_get "discriminator" teh ++ [vec3 dtl] ∧
    history_get "accuracy" teh' = history_get "accuracy" teh ++ [acc].
Proof.
  intros (nb & gl & dl & w1 & w2 & tcs & gtl & dtl & acc & Hnb & Hloop & _ & _
          & _ & _ & _ & -> & -> & [gm Hgm] & [dm Hdm] & _)%train_epoch_Some.
  pose proof Hloop as (_ & _ & _ & _ & Hgl & Hdl & _)%batch_loop_Some.
  exists nb, gl, dl, w1, gm, dm, gtl, dtl, acc. rewrite Hgm, Hdm.
  split_and!; try done.
  - by rewrite history_get_append_ne, history_get_append.
  - by rewrite history_get_append, history_get_append_ne.
  - by rewrite 2!history_get_append_ne, history_get_append.
  - by rewrite history_get_append_ne, history_get_append, history_get_append_ne.
  - by rewrite history_get_append, 2!history_get_append_ne.
Qed.

Lemma run_epochs_lengths p x_train y_train x_test y_test run_path E :
  ∀ w (th teh : history) w',
    run_epochs p x_train y_train x_test y_test run_path E w = Some (th, teh, w') →
    length (history_get "generator" th) = E ∧
    length (history_get "discriminator" th) = E ∧
    length (history_get "generator" teh) = E ∧
    length (history_get "discriminator" teh) = E ∧
    length (history_get "accuracy" teh) = E.
Proof.
  induction E as [|E IH]; intros w th teh w' Hrun.
  - injection Hrun as <- <- <-. done.
  - rewrite run_epochs_S in Hrun.
    destruct (run_epochs _ _ _ _ _ _ E w) as [[[th0 teh0] w0]|] eqn:E0; [|done].
    simpl in Hrun. destruct (IH _ _ _ _ E0) as (H1 & H2 & H3 & H4 & H5).
    apply train_epoch_histories in Hrun
      as (nb & gl & dl & w1 & gm & dm & gtl & dtl & acc & _ & _ & _ & _ & _ & _
          & -> & -> & -> & -> & ->).
    rewrite !length_app, H1, H2, H3, H4, H5. simpl. lia.
Qed.

(** *** Which weights an update may change *)

Lemma D_not_in_G : D ∉ [G].
Proof. by intros [=]%list_elem_of_singleton. Qed.

Lemma G_not_in_D : G ∉ [D].
Proof. by intros [=]%list_elem_of_singleton. Qed.

Lemma build_models_collected (w0 : world) :
  w_collected (build_models w0) discriminator = Some [D] ∧
  w_collected (build_models w0) combined = Some [G] ∧
  w_trainable (build_models w0) discriminator = false.
Proof. done. Qed.

Lemma model_train_on_batch_Some m x y sw w l w' :
  model_train_on_batch m x y sw w = Some (l, w') →
  ∃ collected,
    w_collected w m = Some collected ∧
    (w_session w', l) = keras_train_on_batch m collected (w_session w) x y sw ∧
    same_models w w'.
Proof.
  unfold model_train_on_batch. destruct (w_collected w m) as [c|]; [|done]. simpl.
  destruct (keras_train_on_batch m c _ _ _ _) as [s l0] eqn:E. intros [= <- <-].
  exists c. done.
Qed.

Lemma train_epoch_same_models p x_train y_train x_test y_test run_path epoch
    (th teh : history) w (th' teh' : history) w' :
  train_epoch p x_train y_train x_test y_test run_path epoch (th, teh, w)
    = Some (th', teh', w') →
  same_models w w'.
Proof.
  intros (nb & gl & dl & w1 & w2 & tcs & gtl & dtl & acc & _ & Hloop & _ & _
          & _ & Hm2 & _ & _ & _ & _ & _ & Hck)%train_epoch_Some.
  apply batch_loop_Some in Hloop as (_ & _ & _ & _ & _ & _ & Hm1 & _).
  pose proof (same_models_trans _ _ _ Hm1 Hm2) as Hm.
  destruct (epoch mod 50 =? 0); [|by subst w'].
  apply checkpoint_Some in Hck as (_ & _ & _ & _ & _ & _ & _ & _ & _ & Hm3 & _).
  by eapply same_models_trans.
Qed.

(** C9. The script compiles the discriminator while it is trainable, then
    sets [discriminator.trainable = False], then builds and compiles the
    combined model: the discriminator has collected its own weights, the
    combined model only the generator's. In every state of the training
    loop (the models' attributes are those of the set-up) a
    [combined.train_on_batch] leaves the discriminator's weights unchanged,
    a [discriminator.train_on_batch] leaves the generator's unchanged, and
    so do the two updates of every iteration of the batch loop; the loop
    never changes the models' attributes. *)
Theorem generator_update_leaves_discriminator `{!KerasOk} (w0 w : world) :
  same_models (build_models w0) w →
  (w_collected w discriminator = Some [D] ∧ w_collected w combined = Some [G]) ∧
  (∀ x y sw l w',
     model_train_on_batch combined x y sw w = Some (l, w') →
     get_weights (w_session w') D = get_weights (w_session w) D ∧
     same_models (build_models w0) w') ∧
  (∀ x y sw l w',
     model_train_on_batch discriminator x y sw w = Some (l, w') →
     get_weights (w_session w') G = get_weights (w_session w) G ∧
     same_models (build_models w0) w') ∧
  (∀ p x_train y_train index gl dl gl' dl' w',
     train_batch p x_train y_train index (gl, dl, w) = Some (gl', dl', w') →
     ∃ s1 l1 l2 x y sw x' y' sw',
       (s1, l1) = keras_train_on_batch discriminator [D] (w_session w) x y sw ∧
       (w_session w', l2) = keras_train_on_batch combined [G] s1 x' y' sw' ∧
       get_weights s1 G = get_weights (w_session w) G ∧
       get_weights (w_session w') D = get_weights s1 D ∧
       same_models (build_models w0) w') ∧
  (∀ p x_train y_train x_test y_test run_path epoch (th teh th' teh' : history) w',
     train_epoch p x_train y_train x_test y_test run_path epoch (th, teh, w)
       = Some (th', teh', w') →
     same_models (build_models w0) w').
Proof.
  intros Hm.
  destruct (build_models_collected w0) as (HcD & HcC & _).
  pose proof Hm as [_ Hc]. rewrite <- Hc in HcD, HcC.
  split; [done|]. split_and!.
  - intros x y sw l w' (c & Hcw & Hk & Hm')%model_train_on_batch_Some.
    rewrite HcC in Hcw. assert (c = [G]) as -> by congruence.
    split; [|by eapply same_models_trans].
    replace (w_session w') with (keras_train_on_batch combined [G] (w_session w) x y sw).1
      by (by rewrite <- Hk).
    apply keras_train_frame, D_not_in_G.
  - intros x y sw l w' (c & Hcw & Hk & Hm')%model_train_on_batch_Some.
    rewrite HcD in Hcw. assert (c = [D]) as -> by congruence.
    split; [|by eapply same_models_trans].
    replace (w_session w')
      with (keras_train_on_batch discriminator [D] (w_session w) x y sw).1
      by (by rewrite <- Hk).
    apply keras_train_frame, G_not_in_D.
  - intros p x_train y_train index gl dl gl' dl' w' Hb.
    apply train_batch_Some in Hb
      as (cd & cc & cs & s1 & l1 & l2 & Hcd & Hcc & _ & _
          & (x & y & sw & Hk1) & (x' & y' & sw' & Hk2) & _ & _ & Hm' & _).
    rewrite HcD in Hcd. rewrite HcC in Hcc.
    assert (cd = [D]) as -> by congruence. assert (cc = [G]) as -> by congruence.
    exists s1, l1, l2, x, y, sw, x', y', sw'. split; [done|]. split; [done|].
    split_and!.
    + replace s1 with (keras_train_on_batch discriminator [D] (w_session w) x y sw).1
        by (by rewrite <- Hk1).
      apply keras_train_frame, G_not_in_D.
    + replace (w_session w') with (keras_train_on_batch combined [G] s1 x' y' sw').1
        by (by rewrite <- Hk2).
      apply keras_train_frame, D_not_in_G.
    + by eapply same_models_trans.
  - intros p x_train y_train x_test y_test run_path epoch th teh th' teh' w' He.
    apply train_epoch_same_models in He. by eapply same_models_trans.
Qed.

End loop.

(** ** The generator's architecture *)

Lemma Rle_div_r (a b c : R) : (0 < c)%R → (a * c <= b)%R → (a <= b / c)%R.
Proof.
  intros Hc H. apply Rmult_le_reg_r with (r := c); [done|].
  unfold Rdiv. rewrite Rmult_assoc, Rinv_l by lra. lra.
Qed.

Lemma Rle_div_l (a b c : R) : (0 < c)%R → (a <= b * c)%R → (a / c <= b)%R.
Proof.
  intros Hc H. apply Rmult_le_reg_r with (r := c); [done|].
  unfold Rdiv. rewrite Rmult_assoc, Rinv_l by lra. lra.
Qed.

Lemma Rlt_div_r (a b c : R) : (0 < c)%R → (a * c < b)%R → (a < b / c)%R.
Proof.
  intros Hc H. apply Rmult_lt_reg_r with (r := c); [done|].
  unfold Rdiv. rewrite Rmult_assoc, Rinv_l by lra. lra.
Qed.

Lemma tanh_range (x : R) : (-1 < Rtrigo_def.tanh x < 1)%R.
Proof.
  unfold Rtrigo_def.tanh, sinh, cosh.
  pose proof (exp_pos x) as Hp. pose proof (exp_pos (- x)) as Hn.
  replace ((exp x - exp (- x)) / 2 / ((exp x + exp (- x)) / 2))%R
    with ((exp x - exp (- x)) / (exp x + exp (- x)))%R by (field; lra).
  split.
  - apply Rmult_lt_reg_r with (r := (exp x + exp (- x))%R); [lra|].
    unfold Rdiv. rewrite Rmult_assoc, Rinv_l by lra. lra.
  - apply Rmult_lt_reg_r with (r := (exp x + exp (- x))%R); [lra|].
    unfold Rdiv. rewrite Rmult_assoc, Rinv_l by lra. lra.
Qed.

Lemma Znearest_between (x : R) (a b : Z) :
  (IZR a <= x <= IZR b)%R → (a ≤ arch.Znearest x ≤ b)%Z.
Proof.
  intros [Ha Hb]. unfold arch.Znearest.
  destruct (base_Int_part x) as [Hf Hf'].
  assert (a ≤ Int_part x)%Z as Hlo.
  { apply Z.lt_succ_r, lt_IZR. rewrite succ_IZR. lra. }
  assert (Int_part x ≤ b)%Z as Hhi.
  { apply le_IZR. lra. }
  assert ((1 / 2 <= x - IZR (Int_part x))%R → (Int_part x + 1 ≤ b)%Z) as Hup.
  { intros Hd. apply Z.le_succ_l, lt_IZR. lra. }
  destruct (Rlt_dec _ _) as [|Hd1]; [lia|].
  destruct (Rlt_dec _ _) as [Hd2|Hd2].
  - split; [lia|]. apply Hup. lra.
  - destruct (Z.even _); [lia|]. split; [lia|]. apply Hup. lra.
Qed.

Lemma ln_abs_le_0 (x : R) : (-1 <= x <= 1)%R → (ln (Rabs x) <= 0)%R.
Proof.
  intros Hx. assert (Rabs x <= 1)%R as Ha by (apply Rabs_le; lra).
  destruct (Rlt_dec 0 (Rabs x)) as [Hpos|Hzero].
  - destruct (Rle_lt_or_eq_dec _ _ Ha) as [Hlt|Heq].
    + rewrite <- ln_1. left. by apply ln_increasing.
    + rewrite Heq, ln_1. lra.
  - unfold ln. destruct (Rlt_dec 0 (Rabs x)); [done|lra].
Qed.

Lemma ln_2_pos : (0 < ln 2)%R.
Proof. pose proof ln_lt_2. lra. Qed.

Lemma powerRZ_2_neg (e : Z) : (e ≤ 0)%Z → powerRZ 2 (- e) = IZR (2 ^ (- e)).
Proof.
  intros He. destruct e as [|e|e]; [done|lia|].
  change (- Z.neg e)%Z with (Z.pos e). change (2 ^ Z.pos e)%Z with (Z.pow_pos 2 e).
  by rewrite Zpower_pos_powerRZ.
Qed.

(** Rounding keeps [[-1, 1]]. *)
Lemma round_f32_range (x : R) : (-1 <= x <= 1)%R → (-1 <= arch.round_f32 x <= 1)%R.
Proof.
  intros Hx. unfold arch.round_f32. cbv zeta.
  set (e := Z.max (arch.mag x - 24) (-149)).
  assert (e ≤ 0)%Z as He.
  { assert (arch.mag x ≤ 1)%Z; [|lia]. unfold arch.mag.
    assert (Int_part (ln (Rabs x) / ln 2) ≤ 0)%Z; [|lia].
    apply le_IZR. destruct (base_Int_part (ln (Rabs x) / ln 2)) as [Hf _].
    pose proof (ln_abs_le_0 x Hx). pose proof ln_2_pos.
    assert (ln (Rabs x) / ln 2 <= 0)%R; [|lra].
    apply Rle_div_l; lra. }
  assert (0 < 2 ^ (- e))%Z as Hpos by (apply Z.pow_pos_nonneg; lia).
  pose proof (IZR_lt _ _ Hpos) as HposR.
  assert (powerRZ 2 e = / IZR (2 ^ (- e)))%R as Hinv.
  { rewrite <- powerRZ_2_neg by done.
    replace e with (- - e)%Z at 1 by lia. rewrite powerRZ_neg'. done. }
  destruct (Znearest_between (x * powerRZ 2 (- e)) (- 2 ^ (- e)) (2 ^ (- e))) as [Hlo Hhi].
  { rewrite powerRZ_2_neg, opp_IZR by done. nra. }
  apply IZR_le in Hlo, Hhi. rewrite opp_IZR in Hlo. rewrite Hinv.
  split.
  - apply Rle_div_r; [done|]. lra.
  - apply Rle_div_l; [done|]. lra.
Qed.

Lemma exp_16 : (65536 < exp 16)%R.
Proof.
  pose proof (exp_ineq1 1 ltac:(lra)) as H1.
  assert (4 < exp 2)%R as H2.
  { replace 2%R with (1 + 1)%R by lra. rewrite exp_plus. nra. }
  assert (16 < exp 4)%R as H4.
  { replace 4%R with (2 + 2)%R by lra. rewrite exp_plus. nra. }
  assert (256 < exp 8)%R as H8.
  { replace 8%R with (4 + 4)%R by lra. rewrite exp_plus. nra. }
  replace 16%R with (8 + 8)%R by lra. rewrite exp_plus. nra.
Qed.

Lemma tanh_16 : (1 - / 1073741824 < Rtrigo_def.tanh 16 < 1)%R.
Proof.
  split; [|apply tanh_range].
  unfold Rtrigo_def.tanh, sinh, cosh. rewrite exp_Ropp.
  pose proof exp_16 as He. set (a := exp 16) in *. clearbody a.
  assert (0 < / a)%R as Hb by (apply Rinv_0_lt_compat; lra).
  assert (4294967296 < a * a)%R as Haa by nra.
  assert (a = / a * (a * a))%R as Ha by (field; lra).
  assert (/ a * 4294967296 < / a * (a * a))%R as Hlt
    by (apply Rmult_lt_compat_l; lra).
  apply Rlt_div_r; [lra|]. lra.
Qed.

(** The float32 [tanh] of 16 is exactly 1. *)
Lemma round_f32_tanh_16 : arch.round_f32 (Rtrigo_def.tanh 16) = 1%R.
Proof.
  destruct tanh_16 as [Hlo Hhi]. set (x := Rtrigo_def.tanh 16) in *.
  assert (arch.mag x = 0%Z) as Hmag.
  { unfold arch.mag. rewrite Rabs_pos_eq by lra.
    assert (Int_part (ln x / ln 2) = (-1)%Z) as ->; [|done].
    symmetry. apply Int_part_spec. pose proof ln_2_pos as H2.
    assert (ln x < 0)%R as Hneg by (rewrite <- ln_1; apply ln_increasing; lra).
    assert (- ln 2 < ln x)%R as Hge.
    { rewrite <- ln_Rinv by lra. apply ln_increasing; lra. }
    split.
    - apply (Rmult_lt_reg_r (ln 2)); [done|]. field_simplify; lra.
    - apply Rle_div_r; [done|]. lra. }
  unfold arch.round_f32. cbv zeta. rewrite Hmag.
  change (Z.max (0 - 24) (-149)) with (-24)%Z. change (- -24)%Z with 24%Z.
  assert (powerRZ 2 24 = 16777216)%R as Hp by (simpl; lra).
  assert (powerRZ 2 (-24) = / 16777216)%R as Hn by (simpl; f_equal; lra).
  rewrite Hp, Hn.
  assert (arch.Znearest (x * 16777216) = 16777216%Z) as ->; [|lra].
  unfold arch.Znearest.
  assert (Int_part (x * 16777216) = 16777215%Z) as ->.
  { symmetry. apply Int_part_spec. lra. }
  destruct (Rlt_dec _ _) as [Hd|_]; [lra|].
  destruct (Rlt_dec _ _) as [_|Hd]; [done|lra].
Qed.

Lemma call_layer_Some `{arch.Kernels} i l t out_shape :
  arch.compute_output_shape l (arch.shape t) = Some out_shape →
  arch.call_layer i l t
  = Some {| arch.shape := out_shape;
            arch.entry := λ ix,
              arch.activate (arch.activation_of l)
                (arch.pre_activation i l (arch.entry t) ix) |}.
Proof. intros Hs. unfold arch.call_layer. by rewrite Hs. Qed.

(** C7. The model [build_generator(latent_size)] returns maps a latent
    vector of length [latent_size] and a class label in
    [0 .. num_classes - 1] to an image: the label's row of the embedding is
    multiplied entry by entry with the latent vector, the product goes
    through the stack, whose layers produce the shapes (12, 12, 768),
    (16, 16, 384), (32, 32, 192), (64, 64, 96) and (128, 128, 3), and the
    result has shape (128, 128, 3) with every entry between -1 and 1, both
    included, being a float32 [tanh]. *)
Theorem generator_output `{arch.Kernels} (latent_size : N) (latent : arch.tensor)
    (image_class : Z) :
  arch.shape latent = [latent_size] →
  (0 ≤ image_class < Z.of_nat num_classes)%Z →
  arch.output_shapes (arch.cnn (arch.build_generator latent_size)) [latent_size]
  = Some [ [110592]; [12; 12; 768]; [16; 16; 384]; [16; 16; 384]; [32; 32; 192];
           [32; 32; 192]; [64; 64; 96]; [64; 64; 96]; [128; 128; 3] ]%N ∧
  ∃ cls h img,
    arch.embed (arch.build_generator latent_size) image_class = Some cls ∧
    arch.entry cls = arch.embedding_row (Z.to_N image_class) ∧
    arch.multiply latent cls = Some h ∧
    (∀ ix, arch.entry h ix = (arch.entry latent ix * arch.entry cls ix)%R) ∧
    arch.call_sequential 0 (arch.cnn (arch.build_generator latent_size)) h = Some img ∧
    arch.call_generator (arch.build_generator latent_size) latent image_class = Some img ∧
    arch.shape img = [128; 128; 3]%N ∧
    ∀ ix, (-1 <= arch.entry img ix <= 1)%R.
Proof.
  intros Hshape Hclass.
  assert (∀ act, arch.compute_output_shape
                   (arch.Dense 110592 (Some latent_size) act) [latent_size]
                 = Some [110592%N]) as Hdense.
  { intros act. simpl. by rewrite decide_True. }
  split.
  { simpl arch.cnn. cbn [arch.output_shapes]. rewrite Hdense. reflexivity. }
  set (cls := {| arch.shape := [latent_size];
                 arch.entry := arch.embedding_row (Z.to_N image_class) |}).
  set (h := {| arch.shape := arch.shape latent;
               arch.entry := λ ix, (arch.entry latent ix * arch.entry cls ix)%R |}).
  assert (arch.embed (arch.build_generator latent_size) image_class = Some cls) as Hcls.
  { unfold arch.embed. simpl. rewrite decide_True by (unfold num_classes in *; lia). done. }
  assert (arch.multiply latent cls = Some h) as Hh.
  { unfold arch.multiply. by rewrite decide_True. }
  assert (∃ img, arch.call_sequential 0 (arch.cnn (arch.build_generator latent_size)) h
                 = Some img ∧
                 arch.shape img = [128; 128; 3]%N ∧
                 ∀ ix, (-1 <= arch.entry img ix <= 1)%R) as (img & Himg & Hs & Hr).
  { simpl arch.cnn. cbn [arch.call_sequential].
    rewrite (call_layer_Some 0 _ _ [110592%N])
      by (simpl arch.shape; rewrite Hshape; exact (Hdense arch.relu)).
    simpl. eexists. split; [reflexivity|]. split; [reflexivity|].
    intros ix. cbn [arch.entry arch.activation_of arch.activate].
    apply round_f32_range.
    match goal with |- (-1 <= Rtrigo_def.tanh ?v <= 1)%R => pose proof (tanh_range v) end.
    lra. }
  exists cls, h, img. split_and!; try done.
  unfold arch.call_generator. simpl arch.latent_shape.
  rewrite decide_True by done. rewrite Hcls. simpl. rewrite Hh. simpl. exact Himg.
Qed.

(** ** The statements on the small instance *)

Lemma toy_keras_ok : @KerasOk toy.keras.
Proof.
  split.
  - intros m collected s x y sw n Hn. destruct n; simpl.
    + by rewrite bool_decide_eq_false_2.
    + by rewrite bool_decide_eq_false_2.
  - intros s latent image_class. simpl. apply length_fmap.
  - intros s x. simpl. apply length_fmap.
  - intros s x. simpl. apply Forall_fmap, Forall_true. done.
Qed.

Example discriminator_shapes :
  arch.image_shape arch.build_discriminator = [128; 128; 3]%N ∧
  last <$> arch.output_shapes (arch.features arch.build_discriminator)
             (arch.image_shape arch.build_discriminator)
  = Some (Some [131072%N]).
Proof. split; reflexivity. Qed.

(** Run a computation of the small instance: it returns a result. *)
Ltac run_toy t E :=
  let Hs := fresh "Hs" in
  assert (from_option (λ _, true) false t = true) as Hs by (vm_compute; reflexivity);
  destruct t as [[[? ?] ?]|] eqn:E; [clear Hs|discriminate Hs].

Lemma training_step_sequence_witness :
  ∃ th' teh' w',
    toy_epoch 50 = Some (th', teh', w') ∧
    ∃ batches tcs ccs,
      w_calls w' = w_calls toy.ready ++ mjoin batches ++ tcs ++ ccs ∧
      length batches = 2 ∧
      updates (mjoin batches ++ tcs ++ ccs)
        = [discriminator; combined; discriminator; combined].
Proof.
  run_toy (toy_epoch 50) E. eexists _, _, _. split; [reflexivity|].
  destruct (training_step_sequence _ _ _ _ _ _ _ _ _ _ _ _ _ E)
    as (nb & batches & tcs & ccs & Hnb & Hc & Hlen & _ & _ & _ & _ & _ & Hu).
  apply int_div_Some in Hnb as (_ & -> & _).
  exists batches, tcs, ccs. split; [exact Hc|]. split; [exact Hlen|exact Hu].
Defined.

Lemma one_sided_soft_labels_witness :
  ∃ th' teh' w',
    toy_epoch 1 = Some (th', teh', w') ∧
    ∃ batches rest,
      w_calls w' = w_calls toy.ready ++ mjoin batches ++ rest ∧
      length batches = 2 ∧ updates rest = [].
Proof.
  run_toy (toy_epoch 1) E. eexists _, _, _. split; [reflexivity|].
  destruct (@one_sided_soft_labels _ _ toy_random_ok toy_keras_ok _ _ _ _ _ _ _ _ _ _ _ _ _ E)
    as (batches & rest & Hc & Hl & Hu & _).
  exists batches, rest. split; [exact Hc|]. split; [exact Hl|exact Hu].
Defined.

Lemma discriminator_sample_weights_witness :
  ∃ th' teh' w',
    toy_epoch 1 = Some (th', teh', w') ∧
    ∃ batches rest,
      w_calls w' = w_calls toy.ready ++ mjoin batches ++ rest ∧
      length batches = 2 ∧ updates rest = [].
Proof.
  run_toy (toy_epoch 1) E. eexists _, _, _. split; [reflexivity|].
  destruct (@discriminator_sample_weights _ _ toy_random_ok toy_keras_ok
              _ _ _ _ _ _ _ _ _ _ _ _ _ E) as (batches & rest & Hc & Hl & Hu & _).
  exists batches, rest. split; [exact Hc|]. split; [exact Hl|exact Hu].
Defined.

Lemma batches_cover_prefix_witness :
  ∃ th' teh' w',
    toy_epoch 1 = Some (th', teh', w') ∧
    ∃ batches rest,
      w_calls w' = w_calls toy.ready ++ mjoin batches ++ rest ∧
      length batches = 2 ∧
      discriminator_updates rest = [] ∧
      length (drop 4 toy.x_train) = 1.
Proof.
  run_toy (toy_epoch 1) E. eexists _, _, _. split; [reflexivity|].
  destruct (batches_cover_prefix _ _ _ _ _ _ _ _ _ _ _ _ _ E)
    as (nb & batches & rest & _ & -> & Hc & Hl & Hd & _ & _ & _ & _ & Hm & _).
  exists batches, rest. split; [exact Hc|]. split; [exact Hl|]. split; [exact Hd|exact Hm].
Defined.

Lemma checkpoint_every_50_epochs_witness :
  (∃ th' teh' w',
     toy_epoch 50 = Some (th', teh', w') ∧
     w_written w'
     = [ "./r1/params_generator_epoch_000050.hdf5";
         "./r1/params_discriminator_epoch_000050.hdf5";
         "./r1/acgan-history.pkl";
         "./r1/plot_epoch_050_generated.png" ]%string) ∧
  (∃ th' teh' w',
     toy_epoch 49 = Some (th', teh', w') ∧
     w_files w' = w_files toy.ready ∧ w_written w' = w_written toy.ready).
Proof.
  split.
  - run_toy (toy_epoch 50) E. eexists _, _, _. split; [reflexivity|].
    destruct (checkpoint_every_50_epochs _ _ _ _ _ _ _ _ _ _ _ _ _ E) as (_ & Hw & _).
    destruct (Hw eq_refl) as (_ & _ & Hwritten & _). exact Hwritten.
  - run_toy (toy_epoch 49) E. eexists _, _, _. split; [reflexivity|].
    destruct (checkpoint_every_50_epochs _ _ _ _ _ _ _ _ _ _ _ _ _ E) as (Hne & _).
    destruct Hne as (_ & Hf & Hw); [vm_compute; discriminate|].
    split; [exact Hf|exact Hw].
Defined.

Lemma generator_update_leaves_discriminator_witness :
  (w_collected toy.ready discriminator = Some [D] ∧
   w_collected toy.ready combined = Some [G]) ∧
  ∃ l w',
    @model_train_on_batch toy.random toy.keras combined (LatentClass [] []) ([], []) None
      toy.ready = Some (l, w') ∧
    get_weights (w_session w') G = 1 ∧
    get_weights (w_session w') D = get_weights (w_session toy.ready) D.
Proof.
  pose proof (@generator_update_leaves_discriminator _ _ toy_keras_ok
                (fresh (0 : @rng toy.random) ((0, 0) : @session toy.keras)) toy.ready
                (conj eq_refl eq_refl)) as (Hc & Hcomb & _).
  split; [exact Hc|].
  eexists _, _. split; [reflexivity|].
  destruct (Hcomb (LatentClass [] []) ([], []) None _ _ eq_refl) as [Hd _].
  split; [reflexivity|exact Hd].
Defined.

(** The open interval of the claim is left: with weights that give the last
    layer a pre-activation of 16, every entry of the image is exactly 1. *)
Lemma generator_output_reaches_one :
  ∃ img,
    @arch.call_generator toy.saturating (arch.build_generator 110) toy.latent 1 = Some img ∧
    arch.shape img = [128; 128; 3]%N ∧
    ∀ ix, arch.entry img ix = 1%R ∧ ¬ (-1 < arch.entry img ix < 1)%R.
Proof.
  eexists. split; [reflexivity|]. split; [reflexivity|].
  intros ix. cbn [arch.entry arch.activation_of arch.activate arch.pre_activation
                  toy.saturating].
  rewrite round_f32_tanh_16. split; [done|]. lra.
Qed.

Lemma generator_output_witness :
  ∃ img,
    @arch.call_generator toy.kernels (arch.build_generator 110) toy.latent 1 = Some img ∧
    arch.shape img = [128; 128; 3]%N.
Proof.
  destruct (@generator_output toy.kernels 110 toy.latent 1 eq_refl)
    as (_ & cls & h & img & _ & _ & _ & _ & _ & Hg & Hs & _).
  - unfold num_classes. lia.
  - exists img. split; [exact Hg|exact Hs].
Defined.

(** * Further properties of the training loop *)

Section runs.
Context `{Random} `{Keras}.
#[local] Arguments mapM : simpl never.

(** ** When an epoch completes *)

(** An epoch that has no full batch, or a batch size of zero, raises. *)
Lemma train_epoch_needs_batch p x_train y_train x_test y_test run_path epoch
    (th teh : history) w :
  is_Some (train_epoch p x_train y_train x_test y_test run_path epoch (th, teh, w)) →
  batch_size p ≠ 0 ∧ batch_size p ≤ length x_train.
Proof.
  intros [[[th' teh'] w'] He].
  apply train_epoch_Some in He
    as (nb & gl & dl & w1 & w2 & tcs & gtl & dtl & acc & Hnb & Hloop & _ & _
        & _ & _ & _ & _ & _ & [gm Hgm] & _).
  apply int_div_Some in Hnb as (Hbs & -> & _). split; [done|].
  apply batch_loop_Some in Hloop as (_ & _ & _ & _ & Hgl & _).
  apply mean_axis0_vec3 in Hgm as [Hpos _]. simpl in Hgl.
  destruct (decide (batch_size p ≤ length x_train)) as [|Hlt]; [done|].
  rewrite Nat.div_small in Hgl by lia. lia.
Qed.

(** X1. An epoch completes only if the batch size is not zero and the
    training set holds at least one full batch: with [batch_size = 0] the
    division raises, and with fewer training images than [batch_size] the
    per-epoch mean is the [nan] scalar and the report raises. *)
Theorem epoch_needs_full_batch
    p x_train y_train x_test y_test run_path epoch (th teh : history) w :
  (is_Some (train_epoch p x_train y_train x_test y_test run_path epoch (th, teh, w)) →
   batch_size p ≠ 0 ∧ batch_size p ≤ length x_train) ∧
  (batch_size p = 0 →
   train_epoch p x_train y_train x_test y_test run_path epoch (th, teh, w) = None) ∧
  (length x_train < batch_size p →
   train_epoch p x_train y_train x_test y_test run_path epoch (th, teh, w) = None).
Proof.
  pose proof (train_epoch_needs_batch p x_train y_train x_test y_test run_path epoch
                th teh w) as Hn.
  split; [done|]. split.
  - intros Hz.
    destruct (train_epoch _ _ _ _ _ _ _ _) as [st|]; [|done].
    destruct Hn as [Hn _]; [by eexists|]. done.
  - intros Hlt.
    destruct (train_epoch _ _ _ _ _ _ _ _) as [st|]; [|done].
    destruct Hn as [_ Hn]; [by eexists|]. lia.
Qed.

(** ** The updates of a run *)

Lemma train_epoch_update_list p x_train y_train x_test y_test run_path epoch
    (th teh : history) w (th' teh' : history) w' :
  train_epoch p x_train y_train x_test y_test run_path epoch (th, teh, w)
    = Some (th', teh', w') →
  ∃ new, w_calls w' = w_calls w ++ new ∧
    updates new
    = mjoin (replicate (length x_train / batch_size p) [discriminator; combined]).
Proof.
  intros (nb & batches & tcs & ccs & Hnb & Hcalls & Hlen & Hb & Htcs & Hccs)%train_epoch_calls.
  apply int_div_Some in Hnb as (_ & -> & _).
  destruct (batches_calls p x_train y_train batches 0 Hb) as (_ & Hu & _).
  destruct (test_calls_methods _ _ _ _ Htcs) as (_ & Hut & _).
  assert (updates ccs = []) as Huc.
  { destruct (epoch mod 50 =? 0).
    - destruct Hccs as (? & ? & ? & ? & ->). done.
    - by subst ccs. }
  exists (mjoin batches ++ tcs ++ ccs). split; [done|].
  by rewrite !updates_app, Hu, Hut, Huc, !app_nil_r, Hlen.
Qed.

Lemma run_epochs_S_Some p x_train y_train x_test y_test run_path E
    w (th teh : history) w' :
  run_epochs p x_train y_train x_test y_test run_path (S E) w = Some (th, teh, w') →
  ∃ (th0 teh0 : history) w0,
    run_epochs p x_train y_train x_test y_test run_path E w = Some (th0, teh0, w0) ∧
    train_epoch p x_train y_train x_test y_test run_path (S E) (th0, teh0, w0)
      = Some (th, teh, w').
Proof.
  rewrite run_epochs_S.
  destruct (run_epochs _ _ _ _ _ _ E w) as [[[th0 teh0] w0]|]; [|done].
  simpl. intros He. by exists th0, teh0, w0.
Qed.

Lemma alternating_count n :
  length (filter (eq discriminator) (mjoin (replicate n [discriminator; combined]))) = n ∧
  length (filter (eq combined) (mjoin (replicate n [discriminator; combined]))) = n.
Proof.
  induction n as [|n [IH1 IH2]]; [done|].
  cbn [replicate mjoin list_join app]. rewrite !filter_cons.
  repeat case_decide; try done. split; cbn [length]; by f_equal.
Qed.

Lemma run_epochs_updates p x_train y_train x_test y_test run_path E :
  ∀ w (th teh : history) w',
    run_epochs p x_train y_train x_test y_test run_path E w = Some (th, teh, w') →
    ∃ new, w_calls w' = w_calls w ++ new ∧
      updates new
      = mjoin (replicate (E * (length x_train / batch_size p)) [discriminator; combined]).
Proof.
  induction E as [|E IH]; intros w th teh w' Hrun.
  - injection Hrun as <- <- <-. exists []. split; [by rewrite app_nil_r|]. done.
  - apply run_epochs_S_Some in Hrun as (th0 & teh0 & w0 & Hrun & He).
    destruct (IH _ _ _ _ Hrun) as (new0 & Hc0 & Hu0).
    apply train_epoch_update_list in He as (new1 & Hc1 & Hu1).
    exists (new0 ++ new1). split; [by rewrite Hc1, Hc0, app_assoc|].
    rewrite updates_app, Hu0, Hu1.
    replace (S E * (length x_train / batch_size p))
      with (E * (length x_train / batch_size p) + length x_train / batch_size p) by lia.
    by rewrite replicate_add, join_app.
Qed.

(** X2. A run of [E] completed epochs performed [E * (num_train /
    batch_size)] discriminator updates and as many generator updates
    (through the combined model), strictly alternating, the discriminator
    first; no other call of the run updates weights. *)
Theorem run_update_count p x_train y_train x_test y_test run_path E
    w (th teh : history) w' :
  run_epochs p x_train y_train x_test y_test run_path E w = Some (th, teh, w') →
  ∃ new, w_calls w' = w_calls w ++ new ∧
    updates new
    = mjoin (replicate (E * (length x_train / batch_size p)) [discriminator; combined]) ∧
    length (filter (eq discriminator) (updates new))
    = E * (length x_train / batch_size p) ∧
    length (filter (eq combined) (updates new))
    = E * (length x_train / batch_size p).
Proof.
  intros (new & Hc & Hu)%run_epochs_updates. exists new.
  split; [done|]. split; [done|]. rewrite Hu. apply alternating_count.
Qed.

(** ** The files of a run *)

Lemma train_epoch_written p x_train y_train x_test y_test run_path epoch
    (th teh : history) w (th' teh' : history) w' :
  train_epoch p x_train y_train x_test y_test run_path epoch (th, teh, w)
    = Some (th', teh', w') →
  w_dirs w' = w_dirs w ∧
  w_written w'
  = w_written w ++ (if decide (epoch mod 50 = 0)
                    then checkpoint_files run_path epoch else []).
Proof.
  intros He. destruct (train_epoch_disk _ _ _ _ _ _ _ _ _ _ _ _ _ He) as [Hne Heq].
  case_decide as Hmod.
  - destruct (Heq Hmod) as (_ & Hd & Hw & _). done.
  - destruct (Hne Hmod) as (Hd & _ & Hw). by rewrite app_nil_r.
Qed.

Lemma checkpoint_epochs_S E :
  checkpoint_epochs (S E)
  = checkpoint_epochs E ++ (if decide (S E mod 50 = 0) then [S E] else []).
Proof.
  unfold checkpoint_epochs. rewrite seq_S, filter_app. simpl.
  rewrite filter_cons, filter_nil. by case_decide.
Qed.

Lemma checkpoint_epochs_multiples E :
  checkpoint_epochs E = (λ k, 50 * k) <$> seq 1 (E / 50).
Proof.
  induction E as [|E IH]; [done|].
  rewrite checkpoint_epochs_S, IH.
  pose proof (Nat.div_mod_eq (S E) 50) as Hdm.
  pose proof (Nat.div_mod_eq E 50) as Hdm'.
  pose proof (Nat.mod_upper_bound (S E) 50) as Hb.
  pose proof (Nat.mod_upper_bound E 50) as Hb'.
  case_decide as Hmod.
  - assert (S E / 50 = S (E / 50)) as -> by nia.
    rewrite seq_S, fmap_app. simpl. do 3 f_equal. nia.
  - assert (S E / 50 = E / 50) as -> by nia. by rewrite app_nil_r.
Qed.

Lemma checkpoint_files_count run_path (l : list nat) :
  length (mjoin (checkpoint_files run_path <$> l)) = 4 * length l.
Proof.
  induction l as [|e l IHl]; [done|].
  change (length (checkpoint_files run_path e
                  ++ mjoin (checkpoint_files run_path <$> l)) = 4 * S (length l)).
  rewrite length_app, IHl. cbn [length checkpoint_files]. lia.
Qed.

Lemma run_epochs_written p x_train y_train x_test y_test run_path E :
  ∀ w (th teh : history) w',
    run_epochs p x_train y_train x_test y_test run_path E w = Some (th, teh, w') →
    w_dirs w' = w_dirs w ∧
    w_written w'
    = w_written w ++ mjoin (checkpoint_files run_path <$> checkpoint_epochs E).
Proof.
  induction E as [|E IH]; intros w th teh w' Hrun.
  - injection Hrun as <- <- <-. split; [done|]. by rewrite app_nil_r.
  - apply run_epochs_S_Some in Hrun as (th0 & teh0 & w0 & Hrun & He).
    destruct (IH _ _ _ _ Hrun) as (Hd0 & Hw0).
    apply train_epoch_written in He as [Hd1 Hw1].
    split; [by rewrite Hd1|].
    rewrite Hw1, Hw0, checkpoint_epochs_S, fmap_app, join_app, <- app_assoc.
    case_decide; simpl; by rewrite ?app_nil_r.
Qed.

(** X3. A run of [E] completed epochs wrote exactly the four checkpoint
    files of the epochs 50, 100, ... up to [E], in that order, and nothing
    else: [4 * (E / 50)] writes in all. It created no directory. The history
    file has the same path at every checkpoint, so each checkpoint replaces
    it. *)
Theorem run_writes p x_train y_train x_test y_test run_path E
    w (th teh : history) w' :
  run_epochs p x_train y_train x_test y_test run_path E w = Some (th, teh, w') →
  w_dirs w' = w_dirs w ∧
  w_written w'
  = w_written w ++ mjoin (checkpoint_files run_path <$> checkpoint_epochs E) ∧
  checkpoint_epochs E = (λ k, 50 * k) <$> seq 1 (E / 50) ∧
  length (mjoin (checkpoint_files run_path <$> checkpoint_epochs E)) = 4 * (E / 50) ∧
  (∀ epoch epoch',
     checkpoint_files run_path epoch !! 2 = checkpoint_files run_path epoch' !! 2).
Proof.
  intros [Hd Hw]%run_epochs_written. split; [done|]. split; [done|].
  split; [apply checkpoint_epochs_multiples|]. split; [|done].
  by rewrite checkpoint_files_count, checkpoint_epochs_multiples, length_fmap, length_seq.
Qed.

(** ** What the framework is handed *)

Lemma batch_calls_sizes `{!RandomOk} `{!KerasOk} p x_train y_train n index cs :
  n * batch_size p ≤ length x_train → length y_train = length x_train → index < n →
  batch_calls p x_train y_train index cs →
  ∀ m x y aux_y sw, TrainOnBatch m x (y, aux_y) sw ∈ cs →
    (m = discriminator ∧
     ∃ images generation_weight auxiliary_weight,
       x = Images images ∧ sw = Some (generation_weight, auxiliary_weight) ∧
       length images = 2 * batch_size p ∧ length y = 2 * batch_size p ∧
       length aux_y = 2 * batch_size p ∧
       length generation_weight = 2 * batch_size p ∧
       length auxiliary_weight = 2 * batch_size p) ∨
    (m = combined ∧
     ∃ noise image_class,
       x = LatentClass noise image_class ∧ sw = None ∧
       length noise = 2 * batch_size p ∧ length image_class = 2 * batch_size p ∧
       length y = 2 * batch_size p ∧ length aux_y = 2 * batch_size p).
Proof.
  intros Hle Hy Hi (g & g' & g2 & g2' & s & ->) m x y aux_y sw Hin.
  apply elem_of_cons in Hin as [[=]|Hin].
  apply elem_of_cons in Hin as [[= -> -> -> -> ->]|Hin].
  { left. split; [done|]. rewrite disc_sample_weight_eq. eexists _, _, _.
    split; [done|]. split; [done|].
    rewrite !length_app, !length_replicate.
    rewrite (slice_length x_train index (batch_size p) n) by done.
    rewrite (slice_length y_train index (batch_size p) n) by (by rewrite ?Hy).
    unfold as_float. rewrite length_fmap, keras_generator_predict_length.
    rewrite random_uniform_length, random_randint_length. split_and!; lia. }
  apply elem_of_cons in Hin as [[= -> -> -> -> ->]|Hin].
  { right. split; [done|]. eexists _, _. split; [done|]. split; [done|].
    unfold as_float, reshape_col.
    rewrite !length_fmap, length_replicate, random_uniform_length, random_randint_length.
    done. }
  by apply elem_of_nil in Hin.
Qed.

(** X4. With one training label per training image, every array handed to
    an update of an epoch has [2 * batch_size] entries: for the
    discriminator the images, the two target arrays and the two sample
    weight arrays; for the combined model the latent vectors, the labels and
    the two target arrays (and no sample weights). The framework is never
    given arrays of inconsistent length. *)
Theorem update_arrays_aligned `{!RandomOk} `{!KerasOk}
    p x_train y_train x_test y_test run_path epoch
    (th teh : history) w (th' teh' : history) w' :
  length y_train = length x_train →
  train_epoch p x_train y_train x_test y_test run_path epoch (th, teh, w)
    = Some (th', teh', w') →
  ∃ new, w_calls w' = w_calls w ++ new ∧
    ∀ m x y aux_y sw, TrainOnBatch m x (y, aux_y) sw ∈ new →
      (m = discriminator ∧
       ∃ images generation_weight auxiliary_weight,
         x = Images images ∧ sw = Some (generation_weight, auxiliary_weight) ∧
         length images = 2 * batch_size p ∧ length y = 2 * batch_size p ∧
         length aux_y = 2 * batch_size p ∧
         length generation_weight = 2 * batch_size p ∧
         length auxiliary_weight = 2 * batch_size p) ∨
      (m = combined ∧
       ∃ noise image_class,
         x = LatentClass noise image_class ∧ sw = None ∧
         length noise = 2 * batch_size p ∧ length image_class = 2 * batch_size p ∧
         length y = 2 * batch_size p ∧ length aux_y = 2 * batch_size p).
Proof.
  intros Hy (nb & batches & tcs & ccs & Hnb & Hcalls & Hlen & Hb & Htcs & Hccs)%train_epoch_calls.
  apply int_div_Some in Hnb as (Hbs & _ & Hle).
  exists (mjoin batches ++ tcs ++ ccs). split; [done|].
  intros m x y aux_y sw [Hin|[Hin|Hin]%elem_of_app]%elem_of_app.
  - apply list_elem_of_join in Hin as (cs & Hin & Hcs).
    apply list_elem_of_lookup in Hcs as [index Hcs].
    pose proof (lookup_lt_Some _ _ _ Hcs) as Hlt. rewrite Hlen in Hlt.
    eapply batch_calls_sizes; eauto.
  - destruct Htcs as (g & g' & g2 & g2' & s & ->).
    repeat (apply elem_of_cons in Hin as [[=]|Hin]). by apply elem_of_nil in Hin.
  - destruct (epoch mod 50 =? 0).
    + destruct Hccs as (? & ? & ? & ? & ->).
      repeat (apply elem_of_cons in Hin as [[=]|Hin]). by apply elem_of_nil in Hin.
    + subst ccs. by apply elem_of_nil in Hin.
Qed.

(** X5. The test losses of an epoch are computed with hard labels: the
    discriminator is evaluated once, on the test images followed by as many
    generated images, with generation target 1 for every test image and 0
    for every generated one and with the test labels as auxiliary targets
    of the test images; the combined model is evaluated once, on
    [2 * num_test] latent vectors with generation target 1 (not 0.95). No
    other call of the epoch is an evaluation. *)
Theorem evaluation_uses_hard_labels `{!RandomOk} `{!KerasOk}
    p x_train y_train x_test y_test run_path epoch
    (th teh : history) w (th' teh' : history) w' :
  train_epoch p x_train y_train x_test y_test run_path epoch (th, teh, w)
    = Some (th', teh', w') →
  ∃ new generated_images sampled_labels noise image_class sampled_labels2,
    w_calls w' = w_calls w ++ new ∧
    omap (λ c, match c with Evaluate m x y => Some (m, x, y) | _ => None end) new
    = [ (discriminator, Images (x_test ++ generated_images),
         (replicate (length x_test) 1%Q ++ replicate (length x_test) 0%Q,
          y_test ++ sampled_labels));
        (combined, LatentClass noise image_class,
         (replicate (2 * length x_test) 1%Q, sampled_labels2)) ] ∧
    length generated_images = length x_test ∧
    length sampled_labels = length x_test ∧
    zip (x_test ++ generated_images)
        (replicate (length x_test) 1%Q ++ replicate (length x_test) 0%Q)
    = ((λ img, (img, 1%Q)) <$> x_test) ++ ((λ img, (img, 0%Q)) <$> generated_images) ∧
    length noise = 2 * length x_test ∧ length image_class = 2 * length x_test ∧
    length sampled_labels2 = 2 * length x_test.
Proof.
  intros (nb & batches & tcs & ccs & Hnb & Hcalls & Hlen & Hb & Htcs & Hccs)%train_epoch_calls.
  set (ev := λ c, match c with Evaluate m x y => Some (m, x, y) | _ => None end).
  assert (omap ev (mjoin batches) = []) as Hev.
  { assert (Forall (λ cs, ∃ index, batch_calls p x_train y_train index cs) batches) as Hall.
    { apply Forall_lookup. intros i cs Hi. exists i. by apply Hb. }
    clear Hb Hlen Hcalls. induction Hall as [|cs batches [i Hcs] _ IH]; [done|].
    change (omap ev (cs ++ mjoin batches) = []). rewrite omap_app, IH, app_nil_r.
    destruct Hcs as (? & ? & ? & ? & ? & ->). done. }
  assert (omap ev ccs = []) as Hevc.
  { destruct (epoch mod 50 =? 0).
    - destruct Hccs as (? & ? & ? & ? & ->). done.
    - by subst ccs. }
  destruct Htcs as (g & g' & g2 & g2' & s & ->).
  eexists _, _, _, _, _, _. split; [exact Hcalls|].
  rewrite !omap_app, Hev, Hevc, app_nil_r. simpl.
  split; [reflexivity|].
  assert (length (keras_generator_predict s
                    (random_uniform g (length x_test) (latent_size p)).1
                    (reshape_col (random_randint g' 0 (Z.of_nat num_classes)
                                                 (length x_test)).1))
          = length x_test) as Hgen
    by (by rewrite keras_generator_predict_length, random_uniform_length).
  unfold as_float, reshape_col.
  rewrite !length_fmap, !random_randint_length, random_uniform_length.
  split_and!; try done.
  revert Hgen. unfold reshape_col. generalize (keras_generator_predict s
    (random_uniform g (length x_test) (latent_size p)).1
    ((λ l : Z, [l]) <$> (random_randint g' 0 (Z.of_nat num_classes) (length x_test)).1)).
  intros gen Hgen. rewrite zip_with_app by (by rewrite length_replicate).
  rewrite zip_replicate_r, <- Hgen, zip_replicate_r. done.
Qed.

(** ** The labels of the training batches *)

Lemma slice_two_blocks {A} (a b : A) (m o lo hi : nat) :
  np.slice (replicate m a ++ replicate o b) lo hi
  = replicate ((hi - lo) `min` (m - lo)) a
    ++ replicate ((hi - lo - (m - lo)) `min` (o - (lo - m))) b.
Proof.
  unfold np.slice.
  rewrite drop_app, take_app, !length_replicate, !drop_replicate, !take_replicate,
    length_replicate.
  done.
Qed.

End runs.

Section script.
Context `{Disk} `{Random} `{Keras}.
#[local] Arguments mapM : simpl never.

(** ** Loading the data *)

Lemma concatenate_nd_is_Some {A} (a b : list A) :
  is_Some (np.concatenate_nd a b) ↔ (a = [] ↔ b = []).
Proof.
  destruct a, b; simpl; split; try (by eauto); try (by intros [? [=]]);
    intros [Hab Hba]; try (by specialize (Hab eq_refl)); by specialize (Hba eq_refl).
Qed.

Lemma opened_all path names (x : list (list Z)) :
  Forall2 (λ f img, Image_open (os_path_join path f) = Some img) names x →
  Forall (λ f, is_Some (Image_open (os_path_join path f))) names.
Proof. induction 1; constructor; eauto. Qed.

Lemma get_dir_data_loads path clz x y :
  get_dir_data path clz = Some (x, y) →
  ∃ names, directory_loads path names ∧ length x = length names ∧
           y = replicate (length names) clz.
Proof.
  intros (names & Hls & Hf & ->)%get_dir_data_Some. exists names.
  pose proof (Forall2_length _ _ _ Hf) as Hlen.
  split; [split; [done|by eapply opened_all]|]. by rewrite Hlen.
Qed.

Lemma directory_loads_get path clz names :
  directory_loads path names →
  ∃ x, get_dir_data path clz = Some (x, replicate (length x) clz) ∧
       length x = length names.
Proof.
  intros [Hls Hopen].
  destruct (get_dir_data_total path clz names Hls Hopen) as (x & Hx & Hf).
  exists x. split; [done|]. symmetry. by eapply Forall2_length.
Qed.

Lemma get_data_unfold g :
  get_data g
  = '(x_melanoma_train, y_melanoma_train) ← get_dir_data "./images128/train/melanoma" 1;
    '(x_melanoma_test, y_melanoma_test) ← get_dir_data "./images128/validation/melanoma" 1;
    '(x_other_train, y_other_train) ← get_dir_data "./images128/train/outros" 0;
    '(x_other_test, y_other_test) ← get_dir_data "./images128/validation/outros" 0;
    x_train ← np.concatenate_nd x_melanoma_train x_other_train;
    x_test ← np.concatenate_nd x_melanoma_test x_other_test;
    '(x_train, ytrain, g) ← shuffle x_train (y_melanoma_train ++ y_other_train) g;
    '(x_test, y_test, g) ← shuffle x_test (y_melanoma_test ++ y_other_test) g;
    Some (x_train, y_melanoma_train ++ y_other_train, x_test, y_test, g).
Proof. reflexivity. Qed.

Lemma length_nil_iff {A B} (a : list A) (b : list B) :
  length a = length b → (a = [] ↔ b = []).
Proof. destruct a, b; simpl; intros; split; congruence. Qed.

(** What a returning [get_data] has read, and the sizes of what it
    returns. *)
Lemma get_data_loaded `{!RandomOk} g x_train y_train x_test y_test g' :
  get_data g = Some (x_train, y_train, x_test, y_test, g') →
  ∃ melanoma_train melanoma_test other_train other_test,
    directory_loads "./images128/train/melanoma" melanoma_train ∧
    directory_loads "./images128/validation/melanoma" melanoma_test ∧
    directory_loads "./images128/train/outros" other_train ∧
    directory_loads "./images128/validation/outros" other_test ∧
    (melanoma_train = [] ↔ other_train = []) ∧
    (melanoma_test = [] ↔ other_test = []) ∧
    y_train = replicate (length melanoma_train) 1%Q
              ++ replicate (length other_train) 0%Q ∧
    length x_train = length melanoma_train + length other_train ∧
    length x_test = length melanoma_test + length other_test ∧
    length y_test = length x_test.
Proof.
  rewrite get_data_unfold.
  destruct (get_dir_data "./images128/train/melanoma" 1) as [[xm ym]|] eqn:Em; [|done].
  destruct (get_dir_data "./images128/validation/melanoma" 1) as [[xmt ymt]|] eqn:Emt;
    [|done].
  destruct (get_dir_data "./images128/train/outros" 0) as [[xo yo]|] eqn:Eo; [|done].
  destruct (get_dir_data "./images128/validation/outros" 0) as [[xot yot]|] eqn:Eot;
    [|done].
  simpl.
  destruct (np.concatenate_nd xm xo) as [xtr|] eqn:Ec1; [|done].
  pose proof (proj1 (concatenate_nd_is_Some xm xo) (mk_is_Some _ _ Ec1)) as Hn1.
  apply concatenate_nd_Some in Ec1 as ->. simpl.
  destruct (np.concatenate_nd xmt xot) as [xte|] eqn:Ec2; [|done].
  pose proof (proj1 (concatenate_nd_is_Some xmt xot) (mk_is_Some _ _ Ec2)) as Hn2.
  apply concatenate_nd_Some in Ec2 as ->. simpl.
  destruct (shuffle (xm ++ xo) (ym ++ yo) g) as [[[x1 y1] g1]|] eqn:E1; [|done]. simpl.
  destruct (shuffle (xmt ++ xot) (ymt ++ yot) g1) as [[[x2 y2] g2]|] eqn:E2; [|done].
  simpl. intros [= <- <- <- <- <-].
  apply get_dir_data_loads in Em as (nm & Hm & Hlm & ->).
  apply get_dir_data_loads in Emt as (nmt & Hmt & Hlmt & ->).
  apply get_dir_data_loads in Eo as (no & Ho & Hlo & ->).
  apply get_dir_data_loads in Eot as (not' & Hot & Hlot & ->).
  exists nm, nmt, no, not'. split_and!; try done.
  - by rewrite <- (length_nil_iff _ _ Hlm), <- (length_nil_iff _ _ Hlo).
  - by rewrite <- (length_nil_iff _ _ Hlmt), <- (length_nil_iff _ _ Hlot).
  - apply shuffle_perm in E1 as [Hp _].
    by rewrite (Permutation_length Hp), length_app, Hlm, Hlo.
  - apply shuffle_perm in E2 as [Hp _].
    by rewrite (Permutation_length Hp), length_app, Hlmt, Hlot.
  - pose proof (shuffle_perm _ _ _ _ _ _ E2) as [Hp _].
    apply Permutation_length in Hp.
    apply shuffle_Some in E2 as (Hl & _ & Hy & _).
    unfold np.take_indices in Hy. apply mapM_Some, Forall2_length in Hy.
    pose proof (random_permutation_perm g1 (length (xmt ++ xot))) as Hperm.
    apply Permutation_length in Hperm. rewrite length_seq in Hperm. congruence.
Qed.

Lemma get_data_runs `{!RandomOk} g melanoma_train melanoma_test other_train other_test :
  directory_loads "./images128/train/melanoma" melanoma_train →
  directory_loads "./images128/validation/melanoma" melanoma_test →
  directory_loads "./images128/train/outros" other_train →
  directory_loads "./images128/validation/outros" other_test →
  (melanoma_train = [] ↔ other_train = []) →
  (melanoma_test = [] ↔ other_test = []) →
  is_Some (get_data g).
Proof.
  intros Hm Hmt Ho Hot Hn1 Hn2. rewrite get_data_unfold.
  destruct (directory_loads_get _ 1%Q _ Hm) as (xm & -> & Hlm).
  destruct (directory_loads_get _ 1%Q _ Hmt) as (xmt & -> & Hlmt).
  destruct (directory_loads_get _ 0%Q _ Ho) as (xo & -> & Hlo).
  destruct (directory_loads_get _ 0%Q _ Hot) as (xot & -> & Hlot).
  simpl.
  destruct (proj2 (concatenate_nd_is_Some xm xo)) as [xtr Ec1].
  { by rewrite (length_nil_iff _ _ Hlm), (length_nil_iff _ _ Hlo). }
  rewrite Ec1. apply concatenate_nd_Some in Ec1 as ->. simpl.
  destruct (proj2 (concatenate_nd_is_Some xmt xot)) as [xte Ec2].
  { by rewrite (length_nil_iff _ _ Hlmt), (length_nil_iff _ _ Hlot). }
  rewrite Ec2. apply concatenate_nd_Some in Ec2 as ->. simpl.
  destruct (shuffle_total (xm ++ xo) (replicate (length xm) 1%Q ++ replicate (length xo) 0%Q) g)
    as [[[x1 y1] g1] ->].
  { by rewrite !length_app, !length_replicate. }
  simpl.
  destruct (shuffle_total (xmt ++ xot)
              (replicate (length xmt) 1%Q ++ replicate (length xot) 0%Q) g1)
    as [[[x2 y2] g2] ->].
  { by rewrite !length_app, !length_replicate. }
  simpl. eauto.
Qed.

(** X6. [get_data] returns exactly when each of the four class directories
    can be listed and every file listed in them decodes, and, for the
    training pair and for the validation pair of directories, either both
    are empty or neither is: a missing directory, an unreadable file, or one
    class without images beside one with images makes it raise. *)
Theorem get_data_completes_iff `{!RandomOk} g :
  is_Some (get_data g) ↔
  ∃ melanoma_train melanoma_test other_train other_test,
    directory_loads "./images128/train/melanoma" melanoma_train ∧
    directory_loads "./images128/validation/melanoma" melanoma_test ∧
    directory_loads "./images128/train/outros" other_train ∧
    directory_loads "./images128/validation/outros" other_test ∧
    (melanoma_train = [] ↔ other_train = []) ∧
    (melanoma_test = [] ↔ other_test = []).
Proof.
  split.
  - intros [[[[[x_train y_train] x_test] y_test] g'] Hget].
    apply get_data_loaded in Hget
      as (nm & nmt & no & not' & Hm & Hmt & Ho & Hot & Hn1 & Hn2 & _).
    by exists nm, nmt, no, not'.
  - intros (nm & nmt & no & not' & Hm & Hmt & Ho & Hot & Hn1 & Hn2).
    by eapply get_data_runs.
Qed.

(** X7. The training labels that [get_data] returns are sorted by class, so
    the label batches of an epoch are too: a batch that ends within the
    first [n] positions, [n] the number of melanoma training files, holds
    only label 1, a batch that starts after them only label 0, and every
    batch is some ones followed by some zeros, whatever the shuffle drew. *)
Theorem label_batches_single_class `{!RandomOk} g x_train y_train x_test y_test g' :
  get_data g = Some (x_train, y_train, x_test, y_test, g') →
  ∃ melanoma_train other_train,
    os_listdir "./images128/train/melanoma" = Some melanoma_train ∧
    os_listdir "./images128/train/outros" = Some other_train ∧
    length y_train = length x_train ∧
    length x_train = length melanoma_train + length other_train ∧
    ∀ batch_size index,
      let label_batch :=
        np.slice y_train (index * batch_size) ((index + 1) * batch_size) in
      ((index + 1) * batch_size ≤ length melanoma_train →
       label_batch = replicate batch_size 1%Q) ∧
      (length melanoma_train ≤ index * batch_size →
       (index + 1) * batch_size ≤ length x_train →
       label_batch = replicate batch_size 0%Q) ∧
      ∃ ones zeros, label_batch = replicate ones 1%Q ++ replicate zeros 0%Q.
Proof.
  intros (nm & nmt & no & not' & [Hm _] & _ & [Ho _] & _ & _ & _ & -> & Hlx & _)%get_data_loaded.
  exists nm, no. split_and!; try done.
  { by rewrite length_app, !length_replicate. }
  intros bs index. cbv zeta. rewrite slice_two_blocks. split_and!.
  - intros Hle.
    replace (((index + 1) * bs - index * bs) `min` (length nm - index * bs)) with bs by lia.
    replace ((index + 1) * bs - index * bs - (length nm - index * bs)) with 0 by lia.
    simpl. by rewrite app_nil_r.
  - intros Hle Hhi.
    replace (length nm - index * bs) with 0 by lia.
    rewrite Nat.min_0_r. simpl. f_equal. lia.
  - by eexists _, _.
Qed.

(** ** The runs of the script *)

Lemma run_dir_eq nrun : run_dir nrun = ("./r" +:+ pretty nrun)%string.
Proof. reflexivity. Qed.

Lemma run_dir_inj nrun nrun' : run_dir nrun = run_dir nrun' → nrun = nrun'.
Proof.
  rewrite !run_dir_eq. intros Heq. apply (inj (String.app "./r")) in Heq.
  by apply (inj pretty) in Heq.
Qed.

Lemma run_epochs_frame p x_train y_train x_test y_test run_path E :
  ∀ w (th teh : history) w',
    run_epochs p x_train y_train x_test y_test run_path E w = Some (th, teh, w') →
    w_dirs w' = w_dirs w ∧ same_models w w'.
Proof.
  induction E as [|E IH]; intros w th teh w' Hrun.
  - injection Hrun as <- <- <-. done.
  - apply run_epochs_S_Some in Hrun as (th0 & teh0 & w0 & Hrun & Hepoch).
    destruct (IH _ _ _ _ Hrun) as [Hd Hm].
    pose proof (train_epoch_same_models _ _ _ _ _ _ _ _ _ _ _ _ _ Hepoch) as Hm'.
    apply train_epoch_written in Hepoch as [Hd' _].
    split; [congruence|by eapply same_models_trans].
Qed.

Lemma train_run_Some p x_train y_train x_test y_test nrun w w' :
  train_run p x_train y_train x_test y_test nrun w = Some w' →
  (run_dir nrun ∉ w_dirs w) ∧ w_dirs w' = {[run_dir nrun]} ∪ w_dirs w ∧ same_models w w'.
Proof.
  unfold train_run, os_mkdir. cbv zeta.
  change (os_path_join "." ("r" +:+ pretty nrun)) with (run_dir nrun).
  case_decide as Hin; [done|]. simpl.
  destruct (run_epochs _ _ _ _ _ _ _ _) as [[[th teh] w1]|] eqn:Hrun; [|done].
  simpl. intros [= <-]. apply run_epochs_frame in Hrun as [Hd Hm]. done.
Qed.

(** The loop over the runs, started at run [k]. *)
Lemma runs_Some p x_train y_train x_test y_test n :
  ∀ k w w',
    for_each (seq k n) (train_run p x_train y_train x_test y_test) w = Some w' →
    w_dirs w' = list_to_set (run_dir <$> seq k n) ∪ w_dirs w ∧
    Forall (λ d, d ∉ w_dirs w) (run_dir <$> seq k n) ∧
    same_models w w'.
Proof.
  induction n as [|n IH]; intros k w w' Hrun.
  - injection Hrun as <-. split_and!; [|constructor|done].
    simpl. by rewrite (left_id_L ∅ (∪)).
  - simpl in Hrun.
    destruct (train_run _ _ _ _ _ k w) as [w1|] eqn:Hk; [|done].
    apply train_run_Some in Hk as (Hnew & Hd1 & Hm1).
    apply IH in Hrun as (Hd & Hall & Hm).
    split_and!.
    + rewrite Hd, Hd1. simpl.
      by rewrite (assoc_L (∪)), (comm_L (∪) (list_to_set _)).
    + simpl. constructor; [done|].
      eapply Forall_impl; [exact Hall|]. intros d Hnotin Hin. apply Hnotin.
      rewrite Hd1. by apply elem_of_union_r.
    + by eapply same_models_trans.
Qed.

Lemma train_run_effects p x_train y_train x_test y_test nrun w w' :
  train_run p x_train y_train x_test y_test nrun w = Some w' →
  (∃ new, w_calls w' = w_calls w ++ new ∧
     updates new
     = mjoin (replicate (epochs p * (length x_train / batch_size p))
                [discriminator; combined])) ∧
  w_written w'
  = w_written w ++ mjoin (checkpoint_files (run_dir nrun) <$> checkpoint_epochs (epochs p)).
Proof.
  unfold train_run, os_mkdir. cbv zeta.
  change (os_path_join "." ("r" +:+ pretty nrun)) with (run_dir nrun).
  case_decide as Hin; [done|]. simpl.
  destruct (run_epochs _ _ _ _ _ _ _ _) as [[[th teh] w1]|] eqn:Hrun; [|done].
  simpl. intros [= <-].
  pose proof (run_epochs_updates _ _ _ _ _ _ _ _ _ _ _ Hrun) as Hu.
  apply run_epochs_written in Hrun as [_ Hw]. done.
Qed.

Lemma runs_effects p x_train y_train x_test y_test n :
  ∀ k w w',
    for_each (seq k n) (train_run p x_train y_train x_test y_test) w = Some w' →
    (∃ new, w_calls w' = w_calls w ++ new ∧
       updates new
       = mjoin (replicate (n * (epochs p * (length x_train / batch_size p)))
                  [discriminator; combined])) ∧
    w_written w'
    = w_written w
      ++ mjoin ((λ nrun, mjoin (checkpoint_files (run_dir nrun)
                                  <$> checkpoint_epochs (epochs p))) <$> seq k n).
Proof.
  induction n as [|n IH]; intros k w w' Hrun.
  - injection Hrun as <-. split; [exists []|]; by rewrite app_nil_r.
  - simpl in Hrun.
    destruct (train_run _ _ _ _ _ k w) as [w1|] eqn:Hk; [|done].
    apply train_run_effects in Hk as [(new1 & Hc1 & Hu1) Hw1].
    apply IH in Hrun as [(new & Hc & Hu) Hw]. split.
    + exists (new1 ++ new). split; [by rewrite Hc, Hc1, app_assoc|].
      rewrite updates_app, Hu, Hu1, <- join_app, <- replicate_add. done.
    + rewrite Hw, Hw1, <- app_assoc. done.
Qed.

Lemma main_Some p w w' :
  main p w = Some w' →
  ∃ x_train y_train x_test y_test g,
    get_data (w_rng w) = Some (x_train, y_train, x_test, y_test, g) ∧
    for_each (seq 1 (max_runs p))
      (train_run p (normalize x_train) y_train (normalize x_test) y_test)
      (set_rng g (build_models w)) = Some w'.
Proof.
  unfold main. cbv zeta.
  change (w_rng (build_models w)) with (w_rng w).
  destruct (get_data (w_rng w)) as [[[[[x_train y_train] x_test] y_test] g]|]; [|done].
  simpl. intros Hruns. by exists x_train, y_train, x_test, y_test, g.
Qed.

(** X8. When the script completes, the directories it created are exactly
    [./r1] ... [./r<max_runs>], pairwise distinct, and none of them existed
    before. So the script raises if one of them is already there: a second
    execution in the same working directory does not complete. *)
Theorem main_run_directories p w w' :
  main p w = Some w' →
  w_dirs w' = list_to_set (run_dir <$> seq 1 (max_runs p)) ∪ w_dirs w ∧
  NoDup (run_dir <$> seq 1 (max_runs p)) ∧
  (∀ nrun, 1 ≤ nrun ≤ max_runs p → (run_dir nrun ∉ w_dirs w) ∧ run_dir nrun ∈ w_dirs w') ∧
  (∀ w2, w_dirs w' ⊆ w_dirs w2 → max_runs p ≠ 0 → main p w2 = None).
Proof.
  assert (∀ v v', main p v = Some v' →
            w_dirs v' = list_to_set (run_dir <$> seq 1 (max_runs p)) ∪ w_dirs v ∧
            ∀ nrun, 1 ≤ nrun ≤ max_runs p →
                    (run_dir nrun ∉ w_dirs v) ∧ run_dir nrun ∈ w_dirs v') as Hmain.
  { intros v v' (x_train & y_train & x_test & y_test & g & _ & Hruns)%main_Some.
    apply runs_Some in Hruns as (Hd & Hall & _).
    change (w_dirs (set_rng g (build_models v))) with (w_dirs v) in Hd.
    split; [done|]. intros nrun Hn.
    assert (run_dir nrun ∈ run_dir <$> seq 1 (max_runs p)) as Hin.
    { apply list_elem_of_fmap. exists nrun. split; [done|]. apply elem_of_seq. lia. }
    split.
    - exact (proj1 (Forall_forall _ _) Hall _ Hin).
    - rewrite Hd. by apply elem_of_union_l, elem_of_list_to_set. }
  intros Hrun. destruct (Hmain _ _ Hrun) as [Hd Hn]. split; [done|].
  split.
  { apply NoDup_fmap_2; [|apply NoDup_seq]. intros a b. apply run_dir_inj. }
  split; [done|]. intros w2 Hsub Hmax.
  destruct (main p w2) as [w3|] eqn:Hagain; [|done].
  destruct (Hmain _ _ Hagain) as [_ Hn2].
  destruct (Hn2 1) as [Hfree _]; [lia|].
  destruct (Hn 1) as [_ Hthere]; [lia|].
  exfalso. apply Hfree, Hsub, Hthere.
Qed.

(** X9. When the script completes, it has performed [max_runs * epochs *
    (num_train / batch_size)] updates of the discriminator and as many of
    the generator, alternating, where [num_train] is the number of files in
    the two training directories; and the files it wrote are, run after run,
    the four checkpoint files of every 50th epoch of that run. *)
Theorem script_totals `{!RandomOk} p w w' :
  main p w = Some w' →
  ∃ melanoma_train other_train new,
    os_listdir "./images128/train/melanoma" = Some melanoma_train ∧
    os_listdir "./images128/train/outros" = Some other_train ∧
    let num_batches := (length melanoma_train + length other_train) / batch_size p in
    w_calls w' = w_calls w ++ new ∧
    updates new
    = mjoin (replicate (max_runs p * (epochs p * num_batches)) [discriminator; combined]) ∧
    w_written w'
    = w_written w
      ++ mjoin ((λ nrun, mjoin (checkpoint_files (run_dir nrun)
                                  <$> checkpoint_epochs (epochs p)))
                <$> seq 1 (max_runs p)) ∧
    length (w_written w') = length (w_written w) + max_runs p * (4 * (epochs p / 50)).
Proof.
  intros (x_train & y_train & x_test & y_test & g & Hget & Hruns)%main_Some.
  apply get_data_loaded in Hget
    as (nm & nmt & no & not' & [Hm _] & _ & [Ho _] & _ & _ & _ & _ & Hlx & _).
  apply runs_effects in Hruns as [(new & Hc & Hu) Hw].
  change (w_written (set_rng g (build_models w))) with (w_written w) in Hw.
  change (w_calls (set_rng g (build_models w))) with (w_calls w) in Hc.
  unfold normalize in Hu. rewrite length_fmap, Hlx in Hu.
  assert (∀ n k,
            length (mjoin ((λ nrun, mjoin (checkpoint_files (run_dir nrun)
                                             <$> checkpoint_epochs (epochs p)))
                           <$> seq k n))
            = n * (4 * (epochs p / 50))) as Hcount.
  { induction n as [|n IH]; intros k; [done|].
    cbn [seq fmap list_fmap mjoin list_join].
    rewrite length_app, IH, checkpoint_files_count, checkpoint_epochs_multiples,
      length_fmap, length_seq. lia. }
  exists nm, no, new. cbv zeta. split_and!; try done.
  by rewrite Hw, length_app, Hcount.
Qed.

End script.

(** ** The accuracy of the discriminator *)

Lemma argmax_from_first_max (row : list Q) :
  ∀ (pre : list Q) best best_i,
    pre !! best_i = Some best →
    (∀ j u, pre !! j = Some u → (u <= best)%Q ∧ (j < best_i → (u < best)%Q)) →
    ∃ v, (pre ++ row) !! argmax_from best best_i (length pre) row = Some v ∧
      ∀ j u, (pre ++ row) !! j = Some u →
             (u <= v)%Q ∧ (j < argmax_from best best_i (length pre) row → (u < v)%Q).
Proof.
  induction row as [|v row IH]; intros pre best best_i Hbest Hmax.
  - simpl. rewrite app_nil_r. by exists best.
  - simpl. pose proof (lookup_lt_Some _ _ _ Hbest) as Hlt.
    assert (length (pre ++ [v]) = S (length pre)) as Hlen
      by (rewrite length_app; simpl; lia).
    assert (pre ++ v :: row = (pre ++ [v]) ++ row) as -> by (by rewrite <- app_assoc).
    rewrite <- Hlen.
    destruct (Qle_bool v best) eqn:Hle.
    + apply Qle_bool_iff in Hle.
      destruct (IH (pre ++ [v]) best best_i) as (m & Hm & Hspec).
      * by apply lookup_app_l_Some.
      * intros j u [Hj|[Hj Hu]]%lookup_app_Some; [by apply Hmax|].
        destruct (j - length pre) as [|?] eqn:Hjk; [|done]. injection Hu as <-.
        split; [done|]. lia.
      * by exists m.
    + assert (best < v)%Q as Hgt.
      { apply Qnot_le_lt. intros Hc%Qle_bool_iff. congruence. }
      destruct (IH (pre ++ [v]) v (length pre)) as (m & Hm & Hspec).
      * rewrite lookup_app_r by lia. by rewrite Nat.sub_diag.
      * intros j u [Hj|[Hj Hu]]%lookup_app_Some.
        -- destruct (Hmax j u Hj) as [Hu _]. split.
           ++ apply Qlt_le_weak. by eapply Qle_lt_trans.
           ++ intros _. by eapply Qle_lt_trans.
        -- destruct (j - length pre) as [|?] eqn:Hjk; [|done]. injection Hu as <-.
           split; [apply Qle_refl|]. lia.
      * by exists m.
Qed.

Lemma argmax_Some (row : list Q) i :
  argmax row = Some i →
  ∃ v, row !! i = Some v ∧
    ∀ j u, row !! j = Some u → (u <= v)%Q ∧ (j < i → (u < v)%Q).
Proof.
  destruct row as [|v0 row]; [done|]. intros [= <-].
  apply (argmax_from_first_max row [v0] v0 0); [done|].
  intros [|j] u Hj; [|done]. injection Hj as <-. split; [apply Qle_refl|lia].
Qed.

(** [np.argmax] returns [i] exactly when entry [i] is a maximum of the row
    and every entry before it is strictly smaller; it raises exactly on the
    empty row. *)
Lemma argmax_first_maximum (row : list Q) :
  (argmax row = None ↔ row = []) ∧
  ∀ i, argmax row = Some i ↔
       ∃ v, row !! i = Some v ∧
         (∀ j u, row !! j = Some u → (u <= v)%Q) ∧
         (∀ j u, j < i → row !! j = Some u → (u < v)%Q).
Proof.
  split; [by destruct row|]. intros i. split.
  - intros (v & Hv & Hspec)%argmax_Some. exists v. split; [done|].
    split; intros j u; [intros Hj|intros Hlt Hj]; by destruct (Hspec j u Hj) as [? ?]; auto.
  - intros (v & Hv & Hmax & Hfirst).
    destruct (argmax row) as [i'|] eqn:Hi'; [|by destruct row].
    f_equal. apply argmax_Some in Hi' as (v' & Hv' & Hspec).
    destruct (Nat.lt_trichotomy i' i) as [Hlt|[->|Hlt]]; [|done|].
    + exfalso. pose proof (Hfirst _ _ Hlt Hv') as Hc. destruct (Hspec _ _ Hv) as [Hle _].
      by apply Qlt_not_le in Hc.
    + exfalso. destruct (Hspec _ _ Hv) as [_ Hc]. specialize (Hc Hlt).
      pose proof (Hmax _ _ Hv') as Hle. by apply Qlt_not_le in Hc.
Qed.

Lemma hits_all (y_true : list Q) :
  ∀ y_pred : list nat,
    length y_true = length y_pred →
    length (List.filter (λ '(t, p), Qeq_bool t (inject_Z (Z.of_nat p))) (zip y_true y_pred))
    ≤ length y_true ∧
    (length (List.filter (λ '(t, p), Qeq_bool t (inject_Z (Z.of_nat p)))
                         (zip y_true y_pred)) = length y_true
     ↔ Forall2 (λ t c, (t == inject_Z (Z.of_nat c))%Q) y_true y_pred).
Proof.
  induction y_true as [|t y_true IH]; intros [|c y_pred] Hlen; try done.
  injection Hlen as Hlen. destruct (IH y_pred Hlen) as [Hle Hiff]. simpl.
  destruct (Qeq_bool t (inject_Z (Z.of_nat c))) eqn:Hq; simpl.
  - apply Qeq_bool_iff in Hq. split; [lia|]. split.
    + intros [= Hall]. constructor; [done|]. by apply Hiff.
    + intros (_ & Hall)%Forall2_cons. f_equal. by apply Hiff.
  - split; [lia|]. split; [lia|].
    intros (Hc%Qeq_bool_iff & _)%Forall2_cons. congruence.
Qed.

Lemma accuracy_score_Some (y_true : list Q) (y_pred : list nat) acc :
  accuracy_score y_true y_pred = Some acc → y_true ≠ [] →
  length y_true = length y_pred ∧
  ∃ a hits, acc = scalar a ∧
    hits ≤ length y_true ∧
    (a * inject_Z (Z.of_nat (length y_true)) == inject_Z (Z.of_nat hits))%Q ∧
    (0 <= a)%Q ∧ (a <= 1)%Q ∧
    ((a == 1)%Q ↔ Forall2 (λ t c, (t == inject_Z (Z.of_nat c))%Q) y_true y_pred).
Proof.
  intros Hacc Hne. unfold accuracy_score in Hacc. case_decide as Hlen; [|done].
  split; [done|].
  destruct (hits_all y_true y_pred Hlen) as [Hle Hiff].
  destruct y_true as [|t ys]; [done|]. injection Hacc as <-.
  set (hits := length (List.filter _ _)) in *.
  change (length (t :: ys)) with (S (length ys)) in *.
  set (n := S (length ys)) in *.
  assert (0 < n) as Hpos by (subst n; lia).
  clearbody n hits.
  assert (0 < inject_Z (Z.of_nat n))%Q as Hn.
  { change 0%Q with (inject_Z 0). rewrite <- Zlt_Qlt. lia. }
  assert (¬ (inject_Z (Z.of_nat n) == 0)%Q) as Hn0.
  { intros Hc. rewrite Hc in Hn. by apply Qlt_irrefl in Hn. }
  eexists _, hits. split; [reflexivity|]. split; [done|].
  split; [|split; [|split]].
  - rewrite Qmult_comm. by apply Qmult_div_r.
  - apply Qle_shift_div_l; [done|]. rewrite Qmult_0_l.
    change 0%Q with (inject_Z 0). rewrite <- Zle_Qle. lia.
  - apply Qle_shift_div_r; [done|]. rewrite Qmult_1_l. rewrite <- Zle_Qle. lia.
  - rewrite <- Hiff. split.
    + intros Ha.
      assert (inject_Z (Z.of_nat hits) == inject_Z (Z.of_nat n))%Q as Hh.
      { rewrite <- (Qmult_div_r (inject_Z (Z.of_nat hits)) (inject_Z (Z.of_nat n)) Hn0).
        rewrite Ha. apply Qmult_1_r. }
      pose proof (proj1 (inject_Z_injective _ _) Hh). lia.
    + intros ->. by apply Qmult_inv_r.
Qed.

Section accuracy.
Context `{Random} `{Keras}.
#[local] Arguments mapM : simpl never.

(** The accuracy entry an epoch appends. *)
Lemma train_epoch_prediction p x_train y_train x_test y_test run_path epoch
    (th teh : history) w (th' teh' : history) w' :
  train_epoch p x_train y_train x_test y_test run_path epoch (th, teh, w)
    = Some (th', teh', w') →
  ∃ y_pred acc,
    mapM argmax (keras_discriminator_predict (w_session w') x_test).2 = Some y_pred ∧
    accuracy_score y_test y_pred = Some acc ∧
    Predict discriminator (Images x_test) ∈ w_calls w' ∧
    history_get "accuracy" teh' = history_get "accuracy" teh ++ [acc].
Proof.
  unfold train_epoch.
  destruct (int_div (length x_train) (batch_size p)) as [num_batches|]; [|done]. simpl.
  destruct (for_each (seq 0 num_batches) _ _) as [[[gl dl] w1]|] eqn:Eloop; [|done]. simpl.
  unfold np_random_uniform, np_random_randint, generator_predict, model_evaluate,
    discriminator_predict.
  destruct (random_uniform (w_rng w1) _ _) as [noise g1] eqn:E1. simpl.
  destruct (random_randint g1 _ _ _) as [labels g2] eqn:E2. simpl.
  destruct (w_collected w1 discriminator) as [cd|] eqn:Ecd; [|done]. simpl.
  destruct (random_uniform g2 _ _) as [noise2 g3] eqn:E3. simpl.
  destruct (random_randint g3 _ _ _) as [labels2 g4] eqn:E4. simpl.
  destruct (w_collected w1 combined) as [cc|] eqn:Ecc; [|done]. simpl.
  destruct (mapM argmax _) as [y_pred|] eqn:Epred; [|done]. simpl.
  destruct (accuracy_score y_test y_pred) as [acc|] eqn:Eacc; [|done]. simpl.
  rewrite history_last_append_ne, !history_last_append by done. simpl.
  rewrite history_last_append_ne, history_last_append_ne, history_last_append by done.
  rewrite history_last_append_ne, history_last_append by done. simpl.
  destruct (ROW_FMT_format "generator (train)" (mean_axis0 gl)) as [[]|]; [|done].
  destruct (ROW_FMT_format "discriminator (train)" (mean_axis0 dl)) as [[]|]; [|done].
  simpl. intros Hrest. exists y_pred, acc.
  destruct (epoch mod 50 =? 0); simpl in Hrest.
  - destruct (checkpoint _ _ _ _ _ _) as [w3|] eqn:Eck; [|done].
    injection Hrest as <- <- <-.
    apply checkpoint_Some in Eck
      as (_ & shown & noise' & labels' & _ & _ & _ & _ & Hs & _ & Hc).
    simpl in Hs. rewrite Hs, Hc. split; [done|]. split; [done|]. split.
    + simpl. rewrite !elem_of_app. left. right. apply list_elem_of_singleton. done.
    + by rewrite history_get_append, !history_get_append_ne.
  - injection Hrest as <- <- <-. split; [done|]. split; [done|]. split.
    + simpl. rewrite !elem_of_app. right. apply list_elem_of_singleton. done.
    + by rewrite history_get_append, !history_get_append_ne.
Qed.

(** X11. The accuracy an epoch records is the fraction of the test images
    whose predicted class equals their label. The predictions are those of
    [discriminator.predict(x_test)] with the weights the epoch ends with;
    the predicted class of a test image is the index of the first maximum
    of its row of class probabilities (among equal maxima the lowest class
    wins). With a non-empty test set the entry appended to
    [test_history['accuracy']] is [hits / num_test], where [hits] counts the
    positions at which the label equals the predicted class; it lies
    between 0 and 1, and it is 1 exactly when every predicted class equals
    the test label. *)
Theorem accuracy_entry `{!KerasOk} p x_train y_train x_test y_test run_path epoch
    (th teh : history) w (th' teh' : history) w' :
  x_test ≠ [] →
  train_epoch p x_train y_train x_test y_test run_path epoch (th, teh, w)
    = Some (th', teh', w') →
  ∃ y_pred a,
    history_get "accuracy" teh' = history_get "accuracy" teh ++ [scalar a] ∧
    Predict discriminator (Images x_test) ∈ w_calls w' ∧
    Forall2 (λ (row : list Q) c,
               ∃ v, row !! c = Some v ∧
                 ∀ j u, row !! j = Some u → (u <= v)%Q ∧ (j < c → (u < v)%Q))
            (keras_discriminator_predict (w_session w') x_test).2 y_pred ∧
    length y_test = length x_test ∧ length y_pred = length x_test ∧
    let hits :=
      length (List.filter (λ '(t, c), Qeq_bool t (inject_Z (Z.of_nat c)))
                          (zip y_test y_pred)) in
    a = (inject_Z (Z.of_nat hits) / inject_Z (Z.of_nat (length x_test)))%Q ∧
    hits ≤ length x_test ∧
    (0 <= a)%Q ∧ (a <= 1)%Q ∧
    ((a == 1)%Q ↔ Forall2 (λ t c, (t == inject_Z (Z.of_nat c))%Q) y_test y_pred).
Proof.
  intros Hne (y_pred & acc & Hpred & Hacc & Hcall & Hget)%train_epoch_prediction.
  apply mapM_Some in Hpred. pose proof (Forall2_length _ _ _ Hpred) as Hlp.
  rewrite keras_discriminator_predict_length in Hlp.
  assert (length y_test = length x_test) as Hly.
  { unfold accuracy_score in Hacc. case_decide; [|done]. congruence. }
  assert (y_test ≠ []) as Hney.
  { intros ->. by destruct x_test. }
  pose proof Hacc as Hacc'.
  apply accuracy_score_Some in Hacc
    as (_ & a & hits & -> & Hle & Hfrac & Hlo & Hhi & Hall); [|done].
  unfold accuracy_score in Hacc'. rewrite decide_True in Hacc' by congruence.
  destruct y_test as [|t ys] eqn:Ey; [done|]. injection Hacc' as Ha.
  rewrite <- Ey in *. 
  exists y_pred, a. cbv zeta. split_and!; try done.
  - eapply Forall2_impl; [exact Hpred|]. intros row c. apply argmax_Some.
  - rewrite <- Hly. subst y_test. done.
  - rewrite <- Hly. apply hits_all. congruence.
Qed.

End accuracy.

(** ** The declared architectures *)

Lemma last_cons_default {A} (x : A) (l : list A) :
  last (x :: l) = Some (default x (last l)).
Proof. revert x. induction l as [|y l IH]; intros x; [done|]. by rewrite last_cons_cons, IH. Qed.

(** The forward pass of a stack succeeds exactly when shape inference does,
    and returns a tensor of the inferred shape. *)
Lemma call_sequential_shapes `{arch.Kernels} (layers : list arch.layer) :
  ∀ i t,
    match arch.call_sequential i layers t, arch.output_shapes layers (arch.shape t) with
    | Some t', Some shapes =>
        arch.shape t' = default (arch.shape t) (last shapes) ∧
        length shapes = length layers
    | None, None => True
    | _, _ => False
    end.
Proof.
  induction layers as [|l layers IH]; intros i t; [done|].
  cbn [arch.call_sequential arch.output_shapes]. unfold arch.call_layer.
  destruct (arch.compute_output_shape l (arch.shape t)) as [s|]; [|done].
  cbn [mbind option_bind].
  specialize (IH (S i) {| arch.shape := s;
                          arch.entry := λ ix, arch.activate (arch.activation_of l)
                                           (arch.pre_activation i l (arch.entry t) ix) |}).
  cbn [arch.shape] in IH.
  destruct (arch.call_sequential _ _ _) as [t'|], (arch.output_shapes layers s) as [rest|];
    try done.
  cbn [mbind option_bind]. destruct IH as [-> Hlen].
  rewrite last_cons_default. cbn [length default]. by rewrite Hlen.
Qed.

Lemma generator_shapes (latent_size : N) :
  arch.output_shapes (arch.cnn (arch.build_generator latent_size)) [latent_size]
  = Some [ [110592]; [12; 12; 768]; [16; 16; 384]; [16; 16; 384]; [32; 32; 192];
           [32; 32; 192]; [64; 64; 96]; [64; 64; 96]; [128; 128; 3] ]%N.
Proof.
  assert (∀ act, arch.compute_output_shape
                   (arch.Dense 110592 (Some latent_size) act) [latent_size]
                 = Some [110592%N]) as Hdense.
  { intros act. simpl. by rewrite decide_True. }
  simpl arch.cnn. cbn [arch.output_shapes]. rewrite Hdense. reflexivity.
Qed.

(** X12. The generator model is defined on a pair [(latent, image_class)]
    exactly when the latent vector has shape [(latent_size,)] and the label
    is one of [0 .. num_classes - 1]: any other label is outside the
    embedding's table and any other latent shape is rejected by the input
    layer. When it is defined the image has shape (128, 128, 3). *)
Theorem generator_call_defined `{arch.Kernels} (latent_size : N) (latent : arch.tensor)
    (image_class : Z) :
  (is_Some (arch.call_generator (arch.build_generator latent_size) latent image_class)
   ↔ arch.shape latent = [latent_size] ∧ (0 ≤ image_class < Z.of_nat num_classes)%Z) ∧
  ∀ img, arch.call_generator (arch.build_generator latent_size) latent image_class
         = Some img →
         arch.shape img = [128; 128; 3]%N.
Proof.
  assert (∀ h, arch.shape h = [latent_size] →
            ∃ img, arch.call_sequential 0 (arch.cnn (arch.build_generator latent_size)) h
                   = Some img ∧ arch.shape img = [128; 128; 3]%N) as Hstack.
  { intros h Hh.
    pose proof (call_sequential_shapes (arch.cnn (arch.build_generator latent_size)) 0 h)
      as Hs.
    rewrite Hh, generator_shapes in Hs.
    destruct (arch.call_sequential _ _ _) as [img|]; [|done].
    exists img. split; [done|]. by destruct Hs as [-> _]. }
  unfold arch.call_generator, arch.embed, arch.multiply.
  cbn [arch.latent_shape arch.embedding_input_dim arch.embedding_output_dim
       arch.build_generator].
  replace (Z.of_N (N.of_nat num_classes)) with (Z.of_nat num_classes) by (by rewrite nat_N_Z).
  split.
  - split.
    + intros [img Himg]. case_decide as Hshape; [|done]. split; [done|].
      case_decide as Hclass; [done|]. done.
    + intros [Hshape Hclass]. rewrite decide_True by done. rewrite decide_True by done.
      cbn [mbind option_bind arch.shape]. rewrite decide_True by done.
      cbn [mbind option_bind].
      destruct (Hstack {| arch.shape := arch.shape latent;
                          arch.entry := λ ix, (arch.entry latent ix
                            * arch.embedding_row (Z.to_N image_class) ix)%R |} Hshape)
        as (img & Himg & _).
      cbn [arch.entry]. rewrite Himg. by eexists.
  - intros img. case_decide as Hshape; [|done]. case_decide as Hclass; [|done].
    cbn [mbind option_bind arch.shape]. rewrite decide_True by done.
    cbn [mbind option_bind arch.entry]. intros Himg.
    destruct (Hstack {| arch.shape := arch.shape latent;
                        arch.entry := λ ix, (arch.entry latent ix
                          * arch.embedding_row (Z.to_N image_class) ix)%R |} Hshape)
      as (img' & Himg' & Hs).
    congruence.
Qed.

(** X13. The discriminator accepts an input exactly when its shape is
    (128, 128, 3), which is the shape of the generator's images for every
    latent size, so the combined model is well formed. Its feature stack
    halves the resolution three times, down to (16, 16, 512), and flattens
    to 131072 features, from which the two heads give one validity score and
    [num_classes] class scores. *)
Theorem discriminator_accepts (input_shape : list N) :
  (is_Some (arch.output_shapes (arch.features arch.build_discriminator) input_shape)
   ↔ input_shape = arch.image_shape arch.build_discriminator) ∧
  arch.image_shape arch.build_discriminator = [128; 128; 3]%N ∧
  (∀ latent_size shapes,
     arch.output_shapes (arch.cnn (arch.build_generator latent_size)) [latent_size]
     = Some shapes →
     last shapes = Some (arch.image_shape arch.build_discriminator)) ∧
  ∃ shapes,
    arch.output_shapes (arch.features arch.build_discriminator)
      (arch.image_shape arch.build_discriminator) = Some shapes ∧
    shapes !! 15%nat = Some [16; 16; 512]%N ∧
    last shapes = Some [131072%N] ∧
    arch.compute_output_shape (arch.fake arch.build_discriminator) [131072%N]
    = Some [1%N] ∧
    arch.compute_output_shape (arch.aux arch.build_discriminator) [131072%N]
    = Some [N.of_nat num_classes].
Proof.
  split; [|split; [done|split]].
  - split.
    + intros [shapes Hs]. cbn [arch.features arch.build_discriminator arch.output_shapes] in Hs.
      destruct (arch.compute_output_shape _ input_shape) as [s|] eqn:Hfirst; [|done].
      clear Hs. unfold arch.compute_output_shape in Hfirst.
      destruct input_shape as [|h [|w [|c [|? ?]]]]; try done.
      case_decide as Hd; [|done]. by rewrite <- Hd.
    + intros ->. by eexists.
  - intros latent_size shapes Hs. rewrite generator_shapes in Hs. by injection Hs as <-.
  - eexists. split; [reflexivity|]. done.
Qed.

(** ** The checkpoints of a run *)

Lemma string_length_app (s t : string) :
  String.length (s +:+ t) = String.length s + String.length t.
Proof. induction s as [|c s IH]; simpl; [done|]. by rewrite IH. Qed.

Lemma string_app_inj_r (t s1 s2 : string) : s1 +:+ t = s2 +:+ t → s1 = s2.
Proof.
  revert s2. induction s1 as [|c s1 IH]; intros [|c' s2] Heq.
  - done.
  - change (t = String c' (s2 +:+ t)) in Heq.
    apply (f_equal String.length) in Heq. cbn [String.length] in Heq.
    rewrite (string_length_app s2 t) in Heq. lia.
  - change (String c (s1 +:+ t) = t) in Heq.
    apply (f_equal String.length) in Heq. cbn [String.length] in Heq.
    rewrite (string_length_app s1 t) in Heq. lia.
  - change (String c (s1 +:+ t) = String c' (s2 +:+ t)) in Heq.
    injection Heq as -> Heq. f_equal. by apply IH.
Qed.

Lemma pretty_go_head (x : N) :
  ∀ s0, (0 < x)%N → ∃ c s, pretty_N_go x s0 = String c s ∧ c ≠ "0"%char.
Proof.
  induction (N.lt_wf_0 x) as [x _ IH]; intros s0 Hx.
  rewrite pretty_N_go_step by done.
  destruct (decide (x `div` 10 = 0)%N) as [Hsmall|Hbig].
  - rewrite Hsmall, pretty_N_go_0. eexists _, _. split; [done|].
    apply N.div_small_iff in Hsmall; [|done].
    rewrite N.mod_small by done.
    assert (x = 1 ∨ x = 2 ∨ x = 3 ∨ x = 4 ∨ x = 5 ∨ x = 6
            ∨ x = 7 ∨ x = 8 ∨ x = 9)%N as Hd by lia.
    destruct Hd as [->|[->|[->|[->|[->|[->|[->|[->| ->]]]]]]]]; done.
  - apply IH; [by apply N.div_lt|]. by apply N.neq_0_lt_0.
Qed.

Lemma pretty_head (n : nat) : n ≠ 0 → ∃ c s, pretty n = String c s ∧ c ≠ "0"%char.
Proof.
  intros Hn. unfold pretty, pretty_nat, pretty, pretty_N.
  rewrite decide_False by lia. apply pretty_go_head. lia.
Qed.

Lemma strip_zeros_pad (k : nat) (s : string) :
  strip_zeros (zero_pad k +:+ s) = strip_zeros s.
Proof.
  induction k as [|k IH]; [done|].
  change (strip_zeros (String "0" (zero_pad k +:+ s)) = strip_zeros s).
  cbn [strip_zeros]. by rewrite decide_True.
Qed.

Lemma strip_zeros_format (width n : nat) :
  strip_zeros (format_0d width n) = if decide (n = 0) then ""%string else pretty n.
Proof.
  unfold format_0d. cbv zeta. rewrite strip_zeros_pad. case_decide as Hn.
  - by subst n.
  - destruct (pretty_head n Hn) as (c & s & -> & Hc). simpl. by rewrite decide_False.
Qed.

Lemma format_0d_inj (width n m : nat) : format_0d width n = format_0d width m → n = m.
Proof.
  intros Heq. apply (f_equal strip_zeros) in Heq. rewrite !strip_zeros_format in Heq.
  repeat case_decide; subst; try done.
  - by destruct (pretty_head m) as (c & s & Hp & _); [|rewrite Hp in Heq].
  - by destruct (pretty_head n) as (c & s & Hp & _); [|rewrite Hp in Heq].
  - by apply (inj pretty).
Qed.

Lemma os_path_join_inj (a b b' : string) :
  String.prefix "/" b = false → String.prefix "/" b' = false →
  os_path_join a b = os_path_join a b' → b = b'.
Proof.
  unfold os_path_join. intros -> ->.
  destruct (_ || _)%bool; intros Heq.
  - by apply (inj (String.app a)) in Heq.
  - apply (inj (String.app a)) in Heq. by apply (inj (String.app "/")) in Heq.
Qed.

(** Two checkpoint files with one path are the same file of the same
    epoch, unless they are the history file. *)
Lemma checkpoint_files_distinct run_path epoch epoch' i j path :
  checkpoint_files run_path epoch !! i = Some path →
  checkpoint_files run_path epoch' !! j = Some path →
  i = j ∧ (i ≠ 2 → epoch = epoch').
Proof.
  unfold checkpoint_files.
  destruct i as [|[|[|[|i]]]], j as [|[|[|[|j]]]]; try done;
    cbn [lookup list_lookup]; intros [= <-] [= Heq];
    apply os_path_join_inj in Heq; try reflexivity; try discriminate Heq.
  - split; [done|]. intros _.
    apply (inj (String.app "params_generator_epoch_")), string_app_inj_r in Heq.
    by eapply format_0d_inj.
  - split; [done|]. intros _.
    apply (inj (String.app "params_discriminator_epoch_")), string_app_inj_r in Heq.
    by eapply format_0d_inj.
  - split; [done|]. intros _.
    apply (inj (String.app "plot_epoch_")), string_app_inj_r in Heq.
    by eapply format_0d_inj.
Qed.

Section checkpoints.
Context `{Random} `{Keras}.
#[local] Arguments mapM : simpl never.

(** Reading a checkpoint file of epoch [e] back after the checkpoint of
    epoch [epoch] has been written. *)
Lemma lookup_after_checkpoint run_path epoch (a b c d : file) (files : gmap string file)
    e i path :
  checkpoint_files run_path e !! i = Some path →
  (<[os_path_join run_path ("plot_epoch_" +:+ format_0d 3 epoch +:+ "_generated.png") := a]>
     (<[os_path_join run_path "acgan-history.pkl" := b]>
        (<[os_path_join run_path
             ("params_discriminator_epoch_" +:+ format_0d 6 epoch +:+ ".hdf5") := c]>
           (<[os_path_join run_path
                ("params_generator_epoch_" +:+ format_0d 6 epoch +:+ ".hdf5") := d]>
              files)))) !! path
  = if decide (i = 2) then Some b
    else if decide (e = epoch) then default None ([Some d; Some c; Some b; Some a] !! i)
    else files !! path.
Proof.
  intros Hi.
  assert (∀ j, checkpoint_files run_path epoch !! j = Some path →
               i = j ∧ (i ≠ 2 → e = epoch)) as Hdist
    by (intros j Hj; by eapply checkpoint_files_distinct).
  destruct (decide (os_path_join run_path
                      ("plot_epoch_" +:+ format_0d 3 epoch +:+ "_generated.png") = path))
    as [Hp|Hp].
  { rewrite Hp, lookup_insert_eq. destruct (Hdist 3) as [-> He]; [by rewrite <- Hp|].
    rewrite decide_False by done. by rewrite decide_True by (by apply He). }
  rewrite lookup_insert_ne by done.
  destruct (decide (os_path_join run_path "acgan-history.pkl" = path)) as [Hh|Hh].
  { rewrite Hh, lookup_insert_eq. destruct (Hdist 2) as [-> _]; [by rewrite <- Hh|]. done. }
  rewrite lookup_insert_ne by done.
  destruct (decide (os_path_join run_path
                      ("params_discriminator_epoch_" +:+ format_0d 6 epoch +:+ ".hdf5")
                    = path)) as [Hd|Hd].
  { rewrite Hd, lookup_insert_eq. destruct (Hdist 1) as [-> He]; [by rewrite <- Hd|].
    rewrite decide_False by done. by rewrite decide_True by (by apply He). }
  rewrite lookup_insert_ne by done.
  destruct (decide (os_path_join run_path
                      ("params_generator_epoch_" +:+ format_0d 6 epoch +:+ ".hdf5")
                    = path)) as [Hg|Hg].
  { rewrite Hg, lookup_insert_eq. destruct (Hdist 0) as [-> He]; [by rewrite <- Hg|].
    rewrite decide_False by done. by rewrite decide_True by (by apply He). }
  rewrite lookup_insert_ne by done.
  destruct i as [|[|[|[|i]]]]; try done.
  - rewrite decide_False by done. case_decide as He; [|done]. subst e.
    by injection Hi as <-.
  - rewrite decide_False by done. case_decide as He; [|done]. subst e.
    by injection Hi as <-.
  - by injection Hi as <-.
  - rewrite decide_False by done. case_decide as He; [|done]. subst e.
    by injection Hi as <-.
Qed.

(** The checkpoint files after [E] epochs of a run. *)
Lemma run_epochs_checkpoints p x_train y_train x_test y_test run_path E :
  ∀ w (th teh : history) w',
    run_epochs p x_train y_train x_test y_test run_path E w = Some (th, teh, w') →
    ∀ e, 1 ≤ e ≤ E → e mod 50 = 0 →
      ∃ (th_e teh_e : history) w_e shown,
        run_epochs p x_train y_train x_test y_test run_path e w = Some (th_e, teh_e, w_e) ∧
        w_files w' !! os_path_join run_path
                        ("params_generator_epoch_" +:+ format_0d 6 e +:+ ".hdf5")
        = Some (hdf5 [get_weights (w_session w_e) G]) ∧
        w_files w' !! os_path_join run_path
                        ("params_discriminator_epoch_" +:+ format_0d 6 e +:+ ".hdf5")
        = Some (hdf5 [get_weights (w_session w_e) D]) ∧
        w_files w' !! os_path_join run_path
                        ("plot_epoch_" +:+ format_0d 3 e +:+ "_generated.png")
        = Some (png shown) ∧
        length shown = 30 ∧
        (E < e + 50 →
         w_files w' !! os_path_join run_path "acgan-history.pkl"
         = Some (pickle {[ "train"%string := th_e; "test"%string := teh_e ]})).
Proof.
  induction E as [|E IH]; intros w th teh w' Hrun e He Hmod; [lia|].
  pose proof Hrun as Hrun'.
  apply run_epochs_S_Some in Hrun as (th0 & teh0 & w0 & Hrun & Hepoch).
  destruct (train_epoch_disk _ _ _ _ _ _ _ _ _ _ _ _ _ Hepoch) as [Hne Heq].
  destruct (decide (e = S E)) as [->|Hlt].
  - destruct (Heq Hmod) as (_ & _ & _ & shown & Hlen & Hfiles).
    exists th, teh, w', shown. split; [done|]. rewrite Hfiles.
    rewrite (lookup_after_checkpoint _ _ _ _ _ _ _ (S E) 0) by done.
    rewrite (lookup_after_checkpoint _ _ _ _ _ _ _ (S E) 1) by done.
    rewrite (lookup_after_checkpoint _ _ _ _ _ _ _ (S E) 3) by done.
    rewrite (lookup_after_checkpoint _ _ _ _ _ _ _ (S E) 2) by done.
    rewrite !(decide_True (P := S E = S E)) by done. done.
  - destruct (IH _ _ _ _ Hrun e) as (th_e & teh_e & w_e & shown & Hrun_e & Hg & Hd & Hp
                                       & Hlen & Hh); [lia|done|].
    exists th_e, teh_e, w_e, shown. split; [done|].
    destruct (decide (S E mod 50 = 0)) as [Hck|Hck].
    + destruct (Heq Hck) as (_ & _ & _ & shown' & _ & Hfiles). rewrite Hfiles.
      rewrite (lookup_after_checkpoint _ _ _ _ _ _ _ e 0) by done.
      rewrite (lookup_after_checkpoint _ _ _ _ _ _ _ e 1) by done.
      rewrite (lookup_after_checkpoint _ _ _ _ _ _ _ e 3) by done.
      rewrite !(decide_False (P := e = S E)) by done.
      split_and!; try done. intros Hlast. exfalso.
      pose proof (Nat.div_mod_eq e 50). pose proof (Nat.div_mod_eq (S E) 50). lia.
    + destruct (Hne Hck) as (_ & -> & _). split_and!; try done.
      intros Hlast. apply Hh. lia.
Qed.

(** X14. Nothing in a run overwrites the weights or the plot of a
    checkpoint: after [E] completed epochs, for every epoch [e] among 50,
    100, ... up to [E], the two weight files of [e] hold the generator's and
    the discriminator's weights as they were at the end of epoch [e] and the
    plot file of [e] holds thirty images. Only the history file is replaced:
    it holds the histories as they were at the end of the last such epoch. *)
Theorem checkpoints_survive p x_train y_train x_test y_test run_path E :
  ∀ w (th teh : history) w',
    run_epochs p x_train y_train x_test y_test run_path E w = Some (th, teh, w') →
    ∀ e, 1 ≤ e ≤ E → e mod 50 = 0 →
      ∃ (th_e teh_e : history) w_e shown,
        run_epochs p x_train y_train x_test y_test run_path e w = Some (th_e, teh_e, w_e) ∧
        w_files w' !! os_path_join run_path
                        ("params_generator_epoch_" +:+ format_0d 6 e +:+ ".hdf5")
        = Some (hdf5 [get_weights (w_session w_e) G]) ∧
        w_files w' !! os_path_join run_path
                        ("params_discriminator_epoch_" +:+ format_0d 6 e +:+ ".hdf5")
        = Some (hdf5 [get_weights (w_session w_e) D]) ∧
        w_files w' !! os_path_join run_path
                        ("plot_epoch_" +:+ format_0d 3 e +:+ "_generated.png")
        = Some (png shown) ∧
        length shown = 30 ∧
        (E < e + 50 →
         w_files w' !! os_path_join run_path "acgan-history.pkl"
         = Some (pickle {[ "train"%string := th_e; "test"%string := teh_e ]})).
Proof. apply run_epochs_checkpoints. Qed.

End checkpoints.

(** ** The histories of a run *)

Lemma sum_axis0_columns (a : list losses) :
  sum_axis0 a
  = (foldr Qplus 0%Q ((λ l : losses, l.1.1) <$> a),
     foldr Qplus 0%Q ((λ l : losses, l.1.2) <$> a),
     foldr Qplus 0%Q ((λ l : losses, l.2) <$> a)).
Proof.
  induction a as [|[[l g] c] a IH]; [done|].
  cbn [sum_axis0 foldr fmap list_fmap]. fold (sum_axis0 a). rewrite IH. done.
Qed.

Lemma mean_axis0_columns (a : list losses) :
  0 < length a →
  mean_axis0 a
  = vec3 (foldr Qplus 0%Q ((λ l : losses, l.1.1) <$> a) / inject_Z (Z.of_nat (length a)),
          foldr Qplus 0%Q ((λ l : losses, l.1.2) <$> a) / inject_Z (Z.of_nat (length a)),
          foldr Qplus 0%Q ((λ l : losses, l.2) <$> a) / inject_Z (Z.of_nat (length a)))%Q.
Proof.
  destruct a as [|x a]; [simpl; lia|]. intros _. unfold mean_axis0.
  by rewrite sum_axis0_columns.
Qed.

Lemma for_each_seq_lookup {St} (body : nat → St → option St) (n : nat) :
  ∀ k (s s' : St),
    for_each (seq k n) body s = Some s' →
    ∀ i, i < n →
      ∃ s0 s1, for_each (seq k i) body s = Some s0 ∧ body (k + i) s0 = Some s1.
Proof.
  intros k s s' Hrun i Hi.
  replace n with (i + S (n - S i)) in Hrun by lia.
  rewrite seq_app, for_each_app in Hrun.
  destruct (for_each (seq k i) body s) as [s0|]; [|done].
  simpl in Hrun. destruct (body (k + i) s0) as [s1|] eqn:Hb; [|done].
  by exists s0, s1.
Qed.

Section histories.
Context `{Random} `{Keras} `{Disk}.
#[local] Arguments mapM : simpl never.

Lemma train_run_epochs p x_train y_train x_test y_test nrun w w' :
  train_run p x_train y_train x_test y_test nrun w = Some w' →
  (run_dir nrun ∉ w_dirs w) ∧
  ∃ th teh : history,
    run_epochs p x_train y_train x_test y_test (run_dir nrun) (epochs p)
      (set_dirs ({[run_dir nrun]} ∪ w_dirs w) w) = Some (th, teh, w').
Proof.
  unfold train_run, os_mkdir. cbv zeta.
  change (os_path_join "." ("r" +:+ pretty nrun)) with (run_dir nrun).
  case_decide as Hin; [done|]. simpl.
  destruct (run_epochs _ _ _ _ _ _ _ _) as [[[th teh] w1]|] eqn:Hrun; [|done].
  simpl. intros [= <-]. split; [done|]. by exists th, teh.
Qed.

(** C8. After [E] completed epochs of a run the five history lists
    ([train_history['generator']], [train_history['discriminator']],
    [test_history['generator']], [test_history['discriminator']],
    [test_history['accuracy']]) have length [E]. Epoch [e + 1] appends one
    entry to each of them (so the lists are in epoch order). The entry it
    appends to each train list, at index [e], is the arithmetic mean of the
    losses of the epoch's updates: with [dl !! index] the loss that
    [discriminator.train_on_batch] returned in iteration [index] of the
    batch loop and [gl !! index] the loss that [combined.train_on_batch]
    returned there, it is, component by component, the sum of the
    [num_batches > 0] losses divided by [num_batches]. Every run starts from
    empty histories, whatever the runs before it recorded: in whatever state
    a run starts, its histories have [epochs] entries each when it ends, and
    the history file of its last checkpoint, at epoch [e], holds lists of
    [e] entries. The script performs each of its runs [1 .. max_runs] as
    such a run, from the state the runs before it left. *)
Theorem history_invariant p x_train y_train x_test y_test run_path E
    w (th teh : history) w' :
  run_epochs p x_train y_train x_test y_test run_path E w = Some (th, teh, w') →
  (length (history_get "generator" th) = E ∧
   length (history_get "discriminator" th) = E ∧
   length (history_get "generator" teh) = E ∧
   length (history_get "discriminator" teh) = E ∧
   length (history_get "accuracy" teh) = E) ∧
  (∀ e, E = S e →
     ∃ (th0 teh0 : history) w0 gl dl batches rest gtl dtl acc,
       run_epochs p x_train y_train x_test y_test run_path e w = Some (th0, teh0, w0) ∧
       train_epoch p x_train y_train x_test y_test run_path (S e) (th0, teh0, w0)
         = Some (th, teh, w') ∧
       let num_batches := length x_train / batch_size p in
       0 < num_batches ∧
       length batches = num_batches ∧ length gl = num_batches ∧ length dl = num_batches ∧
       w_calls w' = w_calls w0 ++ mjoin batches ++ rest ∧
       updates rest = [] ∧
       (∀ index cs, batches !! index = Some cs →
          ∃ gl_i dl_i w_i cd cc latent image_class x y sw x2 y2,
            for_each (seq 0 index) (train_batch p x_train y_train) ([], [], w0)
              = Some (gl_i, dl_i, w_i) ∧
            w_collected w_i discriminator = Some cd ∧
            w_collected w_i combined = Some cc ∧
            cs = [ Predict generator (LatentClass latent image_class);
                   TrainOnBatch discriminator x y sw;
                   TrainOnBatch combined x2 y2 None ] ∧
            let d := keras_train_on_batch discriminator cd (w_session w_i) x y sw in
            let c := keras_train_on_batch combined cc d.1 x2 y2 None in
            dl !! index = Some d.2 ∧ gl !! index = Some c.2) ∧
       let n := inject_Z (Z.of_nat num_batches) in
       let mean (a : list losses) : value :=
         vec3 (foldr Qplus 0%Q ((λ l : losses, l.1.1) <$> a) / n,
               foldr Qplus 0%Q ((λ l : losses, l.1.2) <$> a) / n,
               foldr Qplus 0%Q ((λ l : losses, l.2) <$> a) / n)%Q in
       history_get "generator" th = history_get "generator" th0 ++ [mean gl] ∧
       history_get "discriminator" th = history_get "discriminator" th0 ++ [mean dl] ∧
       history_get "generator" teh = history_get "generator" teh0 ++ [vec3 gtl] ∧
       history_get "discriminator" teh = history_get "discriminator" teh0 ++ [vec3 dtl] ∧
       history_get "accuracy" teh = history_get "accuracy" teh0 ++ [acc] ∧
       history_get "generator" th !! e = Some (mean gl) ∧
       history_get "discriminator" th !! e = Some (mean dl)) ∧
  (∀ images labels test_images test_labels nrun w0 w1,
     train_run p images labels test_images test_labels nrun w0 = Some w1 →
     ∃ th1 teh1 : history,
       run_epochs p images labels test_images test_labels (run_dir nrun) (epochs p)
         (set_dirs ({[run_dir nrun]} ∪ w_dirs w0) w0) = Some (th1, teh1, w1) ∧
       length (history_get "generator" th1) = epochs p ∧
       length (history_get "discriminator" th1) = epochs p ∧
       length (history_get "generator" teh1) = epochs p ∧
       length (history_get "discriminator" teh1) = epochs p ∧
       length (history_get "accuracy" teh1) = epochs p ∧
       ∀ e, 1 ≤ e ≤ epochs p → e mod 50 = 0 → epochs p < e + 50 →
         ∃ th_e teh_e : history,
           w_files w1 !! os_path_join (run_dir nrun) "acgan-history.pkl"
           = Some (pickle {[ "train"%string := th_e; "test"%string := teh_e ]}) ∧
           length (history_get "generator" th_e) = e ∧
           length (history_get "discriminator" th_e) = e ∧
           length (history_get "generator" teh_e) = e ∧
           length (history_get "discriminator" teh_e) = e ∧
           length (history_get "accuracy" teh_e) = e) ∧
  (∀ w0 w_end,
     main p w0 = Some w_end →
     ∀ nrun, 1 ≤ nrun ≤ max_runs p →
       ∃ raw_train labels raw_test test_labels g w_before w_after,
         get_data (w_rng w0) = Some (raw_train, labels, raw_test, test_labels, g) ∧
         for_each (seq 1 (nrun - 1))
           (train_run p (normalize raw_train) labels (normalize raw_test) test_labels)
           (set_rng g (build_models w0)) = Some w_before ∧
         train_run p (normalize raw_train) labels (normalize raw_test) test_labels nrun w_before
         = Some w_after).
Proof.
  intros Hrun. split; [by eapply run_epochs_lengths|]. split; [|split].
  - intros e ->.
    apply run_epochs_S_Some in Hrun as (th0 & teh0 & w0 & Hrun & Hepoch).
    destruct (run_epochs_lengths _ _ _ _ _ _ _ _ _ _ _ Hrun) as (Lg & Ld & _).
    pose proof (train_epoch_histories _ _ _ _ _ _ _ _ _ _ _ _ _ Hepoch)
      as (nb' & gl' & dl' & w1' & gm & dm & gtl & dtl & acc & _ & _ & _ & _ & _ & _
          & _ & _ & Hgt & Hdt & Hacc).
    pose proof (train_epoch_iterations _ _ _ _ _ _ _ _ _ _ _ _ _ Hepoch)
      as (gl & dl & batches & rest & Hbs & Hpos & Hlen & Hgl & Hdl & Hcalls & Hu & _
          & Hth & Hall).
    exists th0, teh0, w0, gl, dl, batches, rest, gtl, dtl, acc. cbv zeta.
    split; [done|]. split; [done|]. split; [done|]. split; [done|]. split; [done|].
    split; [done|]. split; [done|]. split; [done|].
    split.
    { intros index cs Hcs.
      destruct (Hall _ _ Hcs) as (gl_i & dl_i & w_i & cd & cc & Hp & Hcd & Hcc & Hc).
      cbv zeta in Hc. destruct Hc as (-> & Hd & Hg).
      eexists gl_i, dl_i, w_i, cd, cc, _, _, _, _, _, _, _.
      split; [exact Hp|]. split; [exact Hcd|]. split; [exact Hcc|].
      split; [reflexivity|]. split; [exact Hd|exact Hg]. }
    assert (history_get "generator" th
            = history_get "generator" th0 ++ [mean_axis0 gl]) as Hg.
    { subst th. by rewrite history_get_append_ne, history_get_append. }
    assert (history_get "discriminator" th
            = history_get "discriminator" th0 ++ [mean_axis0 dl]) as Hd.
    { subst th. by rewrite history_get_append, history_get_append_ne. }
    rewrite mean_axis0_columns, Hgl in Hg by lia.
    rewrite mean_axis0_columns, Hdl in Hd by lia.
    split_and!; try done.
    + rewrite Hg. by apply list_lookup_middle.
    + rewrite Hd. by apply list_lookup_middle.
  - intros x_train' y_train' x_test' y_test' nrun w0 w1
      (_ & th1 & teh1 & Hr)%train_run_epochs.
    exists th1, teh1. split; [done|].
    destruct (run_epochs_lengths _ _ _ _ _ _ _ _ _ _ _ Hr) as (L1 & L2 & L3 & L4 & L5).
    split_and!; try done.
    intros e He Hmod Hlast.
    destruct (run_epochs_checkpoints _ _ _ _ _ _ _ _ _ _ _ Hr e He Hmod)
      as (th_e & teh_e & w_e & shown & Hre & _ & _ & _ & _ & Hfile).
    exists th_e, teh_e. split; [by apply Hfile|].
    by eapply run_epochs_lengths.
  - intros w0 w_end (x_train' & y_train' & x_test' & y_test' & g & Hget & Hruns)%main_Some
      nrun Hn.
    destruct (for_each_seq_lookup _ _ _ _ _ Hruns (nrun - 1)) as (wb & wa & Hb & Ha); [lia|].
    replace (1 + (nrun - 1)) with nrun in Ha by lia.
    by exists x_train', y_train', x_test', y_test', g, wb, wa.
Qed.

End histories.

(** ** The scaling of the images *)

(** X15. The scaling applied to the loaded images keeps their number and
    their sizes and maps pixel values, which lie in 0 .. 255, into
    [-1, 1], the range of the generator's [tanh] output. *)
Theorem normalize_range (x : list (list Z)) :
  Forall (Forall (λ v, 0 ≤ v ≤ 255)%Z) x →
  length (normalize x) = length x ∧
  Forall2 (λ raw img, length img = length raw) x (normalize x) ∧
  Forall (Forall (λ q, -1 <= q ∧ q <= 1)%Q) (normalize x).
Proof.
  intros Hx. unfold normalize. split; [by rewrite length_fmap|]. split.
  - apply Forall2_fmap_r, Forall_Forall2_diag, Forall_true. intros raw.
    unfold compose. by rewrite length_fmap.
  - apply Forall_fmap. eapply Forall_impl; [exact Hx|]. intros raw Hraw. simpl.
    apply Forall_fmap. eapply Forall_impl; [exact Hraw|]. intros v [Hlo Hhi]. simpl.
    split.
    + apply Qle_shift_div_l; [done|]. unfold Qle. simpl. lia.
    + apply Qle_shift_div_r; [done|]. unfold Qle. simpl. lia.
Qed.

(** ** The plot of a checkpoint *)

Lemma mapM_lookup_seq {A B} (f : A → B) (l : list A) (n : nat) (r : list B) :
  mapM (λ i, f <$> l !! i) (seq 0 n) = Some r ↔ n ≤ length l ∧ r = f <$> take n l.
Proof.
  rewrite mapM_Some. split.
  - intros Hall. pose proof (Forall2_length _ _ _ Hall) as Hlen. rewrite length_seq in Hlen.
    assert (n ≤ length l) as Hn.
    { destruct n as [|n]; [lia|].
      destruct (Forall2_lookup_l _ _ _ n n Hall) as (y & _ & Hy).
      { apply lookup_seq. lia. }
      destruct (l !! n) as [x|] eqn:Hx; [|done].
      apply lookup_lt_Some in Hx. lia. }
    split; [done|]. apply list_eq. intros i.
    destruct (decide (i < n)) as [Hi|Hi].
    + destruct (Forall2_lookup_l _ _ _ i i Hall) as (y & Hr & Hy).
      { apply lookup_seq. lia. }
      by rewrite Hr, list_lookup_fmap, lookup_take_lt, <- Hy.
    + rewrite !lookup_ge_None_2; [done|..].
      * rewrite length_fmap, length_take. lia.
      * lia.
  - intros [Hn ->]. apply Forall2_same_length_lookup_2.
    { rewrite length_seq, length_fmap, length_take. lia. }
    intros i j y [-> Hi]%lookup_seq Hy.
    rewrite list_lookup_fmap, lookup_take_lt in Hy by done. done.
Qed.

Section plot.
Context `{Random} `{Keras}.
#[local] Arguments mapM : simpl never.

(** X16. The plot of a checkpoint shows thirty generated images, fifteen
    requested with class 0 followed by fifteen with class 1, from thirty
    fresh latent vectors and the generator's current weights; each pixel
    value [v] is shown as [(v + 1) / 2], which maps the generator's range
    [-1, 1] to [0, 1]. *)
Theorem checkpoint_plot `{!RandomOk} `{!KerasOk} p run_path epoch (th teh : history) w w' :
  checkpoint p run_path epoch th teh w = Some w' →
  ∃ noise,
    let sampled_labels := replicate 15 [0%Z] ++ replicate 15 [1%Z] in
    let generated_images := keras_generator_predict (w_session w) noise sampled_labels in
    let shown :=
      (λ img : list Q, (λ v, ((v + 1.0) / 2.0)%Q) <$> img) <$> generated_images in
    length noise = 30 ∧ length generated_images = 30 ∧
    last (w_calls w') = Some (Predict generator (LatentClass noise sampled_labels)) ∧
    w_files w' !! os_path_join run_path
                    ("plot_epoch_" +:+ format_0d 3 epoch +:+ "_generated.png")
    = Some (png shown) ∧
    (Forall (Forall (λ v, -1 <= v ∧ v <= 1)%Q) generated_images →
     Forall (Forall (λ v, 0 <= v ∧ v <= 1)%Q) shown).
Proof.
  unfold checkpoint, model_save_weights, write_file, np_random_uniform, generator_predict.
  destruct (decide (run_path ∈ w_dirs w)) as [Hdir|]; [|done]. simpl.
  destruct (decide (run_path ∈ w_dirs w)) as [_|]; [|done]. simpl.
  destruct (decide (run_path ∈ w_dirs w)) as [_|]; [|done]. simpl.
  pose proof (random_uniform_length (w_rng w) (5 * 6) (latent_size p)) as Hnoise.
  destruct (random_uniform (w_rng w) _ _) as [noise g1] eqn:E1. simpl in Hnoise |- *.
  destruct (mapM _ _) as [shown|] eqn:Eshown; [|done]. simpl.
  destruct (decide (run_path ∈ w_dirs w)) as [_|]; [|done].
  intros [= <-]. exists noise. cbv zeta.
  change (mjoin ((λ i, replicate (5 * 3) [Z.of_nat i]) <$> seq 0 num_classes))
    with (replicate 15 [0%Z] ++ replicate 15 [1%Z]) in *.
  pose proof (keras_generator_predict_length (w_session w) noise
                (replicate 15 [0%Z] ++ replicate 15 [1%Z])) as Hgen.
  rewrite Hnoise in Hgen. change (5 * 6) with 30 in *.
  apply (mapM_lookup_seq (λ img : list Q, (λ v, ((v + 1.0) / 2.0)%Q) <$> img)
           (keras_generator_predict (w_session w) noise
              (replicate 15 [0%Z] ++ replicate 15 [1%Z])) 30) in Eshown as [_ ->].
  rewrite take_ge by (by rewrite Hgen).
  split; [done|]. split; [exact Hgen|]. split; [simpl; by rewrite last_snoc|].
  split; [simpl; by rewrite lookup_insert_eq|].
  intros Hrange. apply Forall_fmap. eapply Forall_impl; [exact Hrange|].
  intros img Himg. simpl. apply Forall_fmap. eapply Forall_impl; [exact Himg|].
  intros v [Hlo Hhi]. simpl. split.
  - apply Qle_shift_div_l; [done|]. rewrite Qmult_0_l.
    apply (Qplus_le_l _ _ (-1)). ring_simplify. by ring_simplify in Hlo.
  - apply Qle_shift_div_r; [done|].
    apply (Qplus_le_l _ _ (-1)). ring_simplify. by ring_simplify in Hhi.
Qed.

End plot.

(** ** The properties on the small instance *)

(** Run the script, or the data loader, of the small instance. *)
Ltac run_toy_main t E :=
  let Hs := fresh "Hs" in
  assert (from_option (λ _, true) false t = true) as Hs by (vm_compute; reflexivity);
  destruct t as [?|] eqn:E; [clear Hs|discriminate Hs].

Ltac run_toy_data t E :=
  let Hs := fresh "Hs" in
  assert (from_option (λ _, true) false t = true) as Hs by (vm_compute; reflexivity);
  destruct t as [[[[[? ?] ?] ?] ?]|] eqn:E; [clear Hs|discriminate Hs].

Lemma epoch_needs_full_batch_witness :
  batch_size toy.small ≠ 0 ∧ batch_size toy.small ≤ length toy.x_train.
Proof.
  apply (proj1 (@epoch_needs_full_batch toy.random toy.keras toy.small toy.x_train
                  toy.y_train toy.x_test toy.y_test "./r1" 1 ∅ ∅ toy.ready)).
  run_toy (toy_epoch 1) E. by eexists.
Defined.

Lemma run_update_count_witness :
  ∃ (th teh : history) w',
    toy_run 2 = Some (th, teh, w') ∧
    ∃ new, w_calls w' = w_calls toy.ready ++ new ∧
      length (filter (eq discriminator) (updates new)) = 4 ∧
      length (filter (eq combined) (updates new)) = 4.
Proof.
  run_toy (toy_run 2) E. eexists _, _, _. split; [reflexivity|].
  destruct (run_update_count _ _ _ _ _ _ _ _ _ _ _ E) as (new & Hc & _ & Hd & Hg).
  exists new. split; [exact Hc|]. split; [exact Hd|exact Hg].
Defined.

Lemma run_writes_witness :
  ∃ (th teh : history) w',
    toy_run 50 = Some (th, teh, w') ∧
    w_written w'
    = w_written toy.ready ++ mjoin (checkpoint_files "./r1" <$> checkpoint_epochs 50) ∧
    length (mjoin (checkpoint_files "./r1" <$> checkpoint_epochs 50)) = 4.
Proof.
  run_toy (toy_run 50) E. eexists _, _, _. split; [reflexivity|].
  destruct (run_writes _ _ _ _ _ _ _ _ _ _ _ E) as (_ & Hw & _ & Hl & _).
  split; [exact Hw|exact Hl].
Defined.

Lemma update_arrays_aligned_witness :
  ∃ th' teh' w',
    toy_epoch 1 = Some (th', teh', w') ∧
    ∃ new, w_calls w' = w_calls toy.ready ++ new ∧
      ∀ m x y aux_y sw, TrainOnBatch m x (y, aux_y) sw ∈ new →
        length y = 4 ∧ length aux_y = 4.
Proof.
  run_toy (toy_epoch 1) E. eexists _, _, _. split; [reflexivity|].
  destruct (@update_arrays_aligned _ _ toy_random_ok toy_keras_ok
              toy.small toy.x_train toy.y_train toy.x_test toy.y_test "./r1" 1 ∅ ∅
              toy.ready _ _ _ eq_refl E) as (new & Hc & Hall).
  exists new. split; [exact Hc|]. intros m x y aux_y sw Hin.
  destruct (Hall _ _ _ _ _ Hin)
    as [(_ & ? & ? & ? & _ & _ & _ & Hy & Ha & _)|(_ & ? & ? & _ & _ & _ & _ & Hy & Ha)];
    (split; [exact Hy|exact Ha]).
Defined.

Lemma evaluation_uses_hard_labels_witness :
  ∃ th' teh' w',
    toy_epoch 1 = Some (th', teh', w') ∧
    ∃ generated_images,
      length generated_images = 2 ∧
      zip (toy.x_test ++ generated_images) [1; 1; 0; 0]%Q
      = ((λ img, (img, 1%Q)) <$> toy.x_test) ++ ((λ img, (img, 0%Q)) <$> generated_images).
Proof.
  run_toy (toy_epoch 1) E. eexists _, _, _. split; [reflexivity|].
  destruct (@evaluation_uses_hard_labels _ _ toy_random_ok toy_keras_ok
              _ _ _ _ _ _ _ _ _ _ _ _ _ E)
    as (new & gen & sl & noise & cls & sl2 & _ & _ & Hlen & _ & Hzip & _).
  exists gen. split; [exact Hlen|exact Hzip].
Defined.

Lemma get_data_completes_iff_witness :
  is_Some (@get_data toy.disk toy.random 0) ↔
  ∃ melanoma_train melanoma_test other_train other_test,
    @directory_loads toy.disk "./images128/train/melanoma" melanoma_train ∧
    @directory_loads toy.disk "./images128/validation/melanoma" melanoma_test ∧
    @directory_loads toy.disk "./images128/train/outros" other_train ∧
    @directory_loads toy.disk "./images128/validation/outros" other_test ∧
    (melanoma_train = [] ↔ other_train = []) ∧
    (melanoma_test = [] ↔ other_test = []).
Proof. exact (@get_data_completes_iff toy.disk toy.random toy_random_ok 0). Defined.

Lemma label_batches_single_class_witness :
  ∃ x_train y_train x_test y_test g',
    @get_data toy.disk toy.random 0 = Some (x_train, y_train, x_test, y_test, g') ∧
    np.slice y_train (0 * 2) ((0 + 1) * 2) = replicate 2 1%Q ∧
    np.slice y_train (1 * 2) ((1 + 1) * 2) = replicate 2 0%Q.
Proof.
  run_toy_data (@get_data toy.disk toy.random 0) E. eexists _, _, _, _, _.
  split; [reflexivity|].
  destruct (@label_batches_single_class toy.disk toy.random toy_random_ok _ _ _ _ _ _ E)
    as (mt & ot & Hm & Ho & _ & Hlx & Hall).
  injection Hm as <-. injection Ho as <-.
  destruct (Hall 2 0) as (Hones & _). destruct (Hall 2 1) as (_ & Hzeros & _).
  split.
  - apply Hones. vm_compute. lia.
  - apply Hzeros; [vm_compute; lia|]. rewrite Hlx. vm_compute. lia.
Defined.

Lemma main_run_directories_witness :
  ∃ w',
    toy_main toy.small = Some w' ∧
    run_dir 1 ∈ w_dirs w' ∧
    @main toy.random toy.keras toy.disk toy.small w' = None.
Proof.
  run_toy_main (toy_main toy.small) E. eexists. split; [reflexivity|].
  destruct (@main_run_directories toy.disk toy.random toy.keras _ _ _ E)
    as (_ & _ & Hn & Hagain).
  split.
  - destruct (Hn 1) as [_ Hin]; [vm_compute; lia|exact Hin].
  - apply Hagain; [reflexivity|discriminate].
Defined.

Lemma script_totals_witness :
  ∃ w',
    toy_main toy.small = Some w' ∧
    ∃ new,
      w_calls w' = new ∧
      updates new = [discriminator; combined; discriminator; combined] ∧
      w_written w' = [].
Proof.
  run_toy_main (toy_main toy.small) E. eexists. split; [reflexivity|].
  destruct (@script_totals toy.disk toy.random toy.keras toy_random_ok _ _ _ E)
    as (mt & ot & new & Hm & Ho & Hc & Hu & Hw & _).
  injection Hm as <-. injection Ho as <-.
  exists new. split; [exact Hc|]. split; [exact Hu|exact Hw].
Defined.

Lemma accuracy_entry_witness :
  ∃ th' teh' w',
    toy_epoch 1 = Some (th', teh', w') ∧
    ∃ a, history_get "accuracy" teh' = [scalar a] ∧ (0 <= a)%Q ∧ (a <= 1)%Q.
Proof.
  run_toy (toy_epoch 1) E. eexists _, _, _. split; [reflexivity|].
  assert (toy.x_test ≠ []) as Hne by discriminate.
  destruct (@accuracy_entry _ _ toy_keras_ok toy.small toy.x_train toy.y_train toy.x_test
              toy.y_test "./r1" 1 ∅ ∅ toy.ready _ _ _ Hne E)
    as (y_pred & a & Hget & _ & _ & _ & _ & _ & _ & Hlo & Hhi & _).
  exists a. split; [exact Hget|]. split; [exact Hlo|exact Hhi].
Defined.

Lemma checkpoints_survive_witness :
  ∃ (th teh : history) w',
    toy_run 50 = Some (th, teh, w') ∧
    ∃ shown,
      w_files w' !! os_path_join "./r1" ("plot_epoch_" +:+ format_0d 3 50 +:+ "_generated.png")
      = Some (png shown) ∧
      length shown = 30 ∧
      w_files w' !! os_path_join "./r1" "acgan-history.pkl"
      = Some (pickle {[ "train"%string := th; "test"%string := teh ]}).
Proof.
  run_toy (toy_run 50) E. eexists _, _, _. split; [reflexivity|].
  destruct (checkpoints_survive _ _ _ _ _ _ _ _ _ _ _ E 50)
    as (th_e & teh_e & w_e & shown & He & _ & _ & Hp & Hlen & Hh).
  - lia.
  - reflexivity.
  - exists shown. split; [exact Hp|]. split; [exact Hlen|].
    rewrite E in He. injection He as <- <- <-. apply Hh. lia.
Defined.

Lemma history_invariant_witness :
  ∃ (th teh : history) w',
    toy_run 2 = Some (th, teh, w') ∧
    length (history_get "generator" th) = 2 ∧
    length (history_get "accuracy" teh) = 2 ∧
    ∃ gl : list losses,
      length gl = 2 ∧
      history_get "generator" th !! 1
      = Some (vec3 (foldr Qplus 0 ((λ l : losses, l.1.1) <$> gl) / 2,
                    foldr Qplus 0 ((λ l : losses, l.1.2) <$> gl) / 2,
                    foldr Qplus 0 ((λ l : losses, l.2) <$> gl) / 2)%Q).
Proof.
  run_toy (toy_run 2) E. eexists _, _, _. split; [reflexivity|].
  destruct (@history_invariant toy.random toy.keras toy.disk _ _ _ _ _ _ _ _ _ _ _ E)
    as ((Hg & _ & _ & _ & Ha) & Hlast & _).
  split; [exact Hg|]. split; [exact Ha|].
  destruct (Hlast 1 eq_refl)
    as (th0 & teh0 & w0 & gl & dl & batches & rest & gtl & dtl & acc
        & _ & _ & _ & _ & Hgl & _ & _ & _ & _ & _ & _ & _ & _ & _ & Hentry & _).
  exists gl. split; [exact Hgl|exact Hentry].
Defined.

Lemma normalize_range_witness :
  Forall (Forall (λ q, -1 <= q ∧ q <= 1)%Q) (normalize [[0; 255]%Z]).
Proof.
  apply normalize_range. repeat constructor; lia.
Defined.

Lemma checkpoint_plot_witness :
  ∃ w',
    @checkpoint toy.random toy.keras toy.small "./r1" 50 ∅ ∅ toy.ready = Some w' ∧
    ∃ noise,
      length noise = 30 ∧
      last (w_calls w')
      = Some (Predict generator
                (LatentClass noise (replicate 15 [0%Z] ++ replicate 15 [1%Z]))).
Proof.
  run_toy_main (@checkpoint toy.random toy.keras toy.small "./r1" 50 ∅ ∅ toy.ready) E.
  eexists. split; [reflexivity|].
  destruct (@checkpoint_plot _ _ toy_random_ok toy_keras_ok _ _ _ _ _ _ _ E)
    as (noise & Hn & _ & Hl & _).
  exists noise. split; [exact Hn|exact Hl].
Defined.
